(** * Policy-value network: forward pass, graph manifest and weight codec

    A shallow embedding of [training/model.py] and of
    [training/verify_inference.py].

    Numbers.  The tensors of the source hold float32 values.  The source is
    read twice.

    The first reading, which the structural properties use (layer order,
    shapes, masking, the manifest, the weight codec and its errors), takes
    the finite values as the real numbers of the Standard Library with exact
    arithmetic; the special values that the source creates on purpose
    ([float('-inf')] in [masked_fill], and the NaN that a softmax over an
    all-masked row yields) are modelled by the type [xreal], whose
    operations follow IEEE 754 on the special values.  This reading says
    nothing about rounding or overflow.

    The second reading, the module [Float32] below, takes the values as
    IEEE 754 binary32 numbers, with rounding, overflow and NaN.  The
    properties of the policy and of the value that depend on rounding or
    overflow are stated over it.

    Shapes.  A tensor of shape [(n,)] is a list, a tensor of shape [(n, k)]
    a list of lists.  The forward pass is written for one row of the batch,
    the way [verify_inference.py] calls it ([unsqueeze(0)]): every operation
    of [forward] acts on the rows of the batch independently.  A call that
    torch rejects with a shape error returns [None].

    The embedding of the shapes is exact for the models
    [PolicyValueNetwork()] constructs (predicate [has_shape]) on inputs of
    the documented shapes.  Outside them it only errs towards [None]: a call
    that torch would accept by broadcasting, or by reading the flattened
    action features in rows of another width, is treated as a shape
    error. *)

From Stdlib Require Import Reals Lra Lia ZArith SpecFloat.
From stdpp Require Import base option list strings gmap.

Local Open Scope R_scope.

(** ** Constants of the source *)

Definition STATE_SIZE : nat := 501.
Definition ACTION_SIZE : nat := 54.

(** Default [eps] of [nn.LayerNorm]; the source never overrides it. *)
Definition LN_EPS : R := 1 / 100000.

(** ** Scalars with the IEEE special values *)

Inductive xreal : Type :=
| Fin (r : R)
| PInf
| NInf
| NaN.

(** Sums and vectors of reals. *)

Definition Rsum (l : list R) : R := foldr Rplus 0 l.

Definition dot (u v : list R) : R := Rsum (zip_with Rmult u v).

(** [numpy]'s [.T] on a two-dimensional array given as a list of rows: the
    number of columns is read off the first row. *)
Definition transpose (M : list (list R)) : list (list R) :=
  match M with
  | [] => []
  | r :: _ => map (λ j, map (λ row, nth j row 0) M) (seq 0 (length r))
  end.

(** [np.array] accepts a nested list only when its rows have one length. *)
Definition rectangular (M : list (list R)) : bool :=
  match M with
  | [] => true
  | r :: _ => forallb (λ row, Nat.eqb (length row) (length r)) M
  end.

(** ** The tensor primitives the source calls *)

Module torch.

Definition add (a b : xreal) : xreal :=
  match a, b with
  | NaN, _ | _, NaN => NaN
  | PInf, NInf | NInf, PInf => NaN
  | PInf, _ | _, PInf => PInf
  | NInf, _ | _, NInf => NInf
  | Fin x, Fin y => Fin (x + y)
  end.

Definition sub (a b : xreal) : xreal :=
  match a, b with
  | NaN, _ | _, NaN => NaN
  | PInf, PInf | NInf, NInf => NaN
  | PInf, _ | _, NInf => PInf
  | NInf, _ | _, PInf => NInf
  | Fin x, Fin y => Fin (x - y)
  end.

(** [torch.max] propagates NaN. *)
Definition maximum (a b : xreal) : xreal :=
  match a, b with
  | NaN, _ | _, NaN => NaN
  | PInf, _ | _, PInf => PInf
  | NInf, x | x, NInf => x
  | Fin x, Fin y => Fin (Rmax x y)
  end.

Definition exp (a : xreal) : xreal :=
  match a with
  | NaN => NaN
  | PInf => PInf
  | NInf => Fin 0
  | Fin x => Fin (Rtrigo_def.exp x)
  end.

Definition div (a b : xreal) : xreal :=
  match a, b with
  | NaN, _ | _, NaN => NaN
  | (PInf | NInf), (PInf | NInf) => NaN
  | Fin _, (PInf | NInf) => Fin 0
  | PInf, Fin y => if Rlt_dec y 0 then NInf else PInf
  | NInf, Fin y => if Rlt_dec y 0 then PInf else NInf
  | Fin x, Fin y =>
      if Req_dec_T y 0 then
        if Req_dec_T x 0 then NaN
        else if Rlt_dec x 0 then NInf else PInf
      else Fin (x / y)
  end.

(** Reductions along the last axis. *)
Definition max (input : list xreal) : xreal := foldr maximum NInf input.
Definition sum (input : list xreal) : xreal := foldr add (Fin 0) input.

Definition tanh (x : R) : R := Rtrigo_def.tanh x.

Definition cat (a b : list R) : list R := a ++ b.

(** [input.masked_fill(mask, value)]: [value] where [mask] is true. *)
Definition masked_fill (input : list xreal) (mask : list bool) (value : xreal)
  : option (list xreal) :=
  if decide (length mask = length input)
  then Some (zip_with (λ x (b : bool), if b then value else x) input mask)
  else None.

(** [x.squeeze(-1)] on a row whose last axis has size 1. *)
Definition squeeze (x : list R) : option R :=
  match x with
  | [s] => Some s
  | _ => None
  end.

End torch.

Module F.

Definition relu (x : list R) : list R := map (Rmax 0) x.

(** [F.linear]: [y = x W^T + b], with [W] of shape [(out, in)]. *)
Definition linear (input : list R) (weight : list (list R)) (bias : list R)
  : option (list R) :=
  if decide (Forall (λ row, length row = length input) weight
             ∧ length bias = length weight)
  then Some (zip_with Rplus (map (dot input) weight) bias)
  else None.

Definition mean (x : list R) : R := Rsum x / INR (length x).

(** Biased variance, as [F.layer_norm] uses it. *)
Definition var (x : list R) : R :=
  Rsum (map (λ a, (a - mean x) * (a - mean x)) x) / INR (length x).

Definition layer_norm (input : list R) (normalized_shape : nat)
    (weight bias : list R) (eps : R) : option (list R) :=
  if decide (length input = normalized_shape
             ∧ length weight = normalized_shape
             ∧ length bias = normalized_shape)
  then
    let mu := mean input in
    let sigma := sqrt (var input + eps) in
    Some (zip_with Rplus
            (zip_with Rmult (map (λ a, (a - mu) / sigma) input) weight)
            bias)
  else None.

(** [F.softmax(input, dim=-1)]: the maximum is subtracted before the
    exponential, then the row is divided by its sum. *)
Definition softmax (input : list xreal) : list xreal :=
  let m := torch.max input in
  let e := map (λ x, torch.exp (torch.sub x m)) input in
  let s := torch.sum e in
  map (λ y, torch.div y s) e.

End F.

(** ** Layers with parameters *)

Module Linear.
Record t : Type := mk { weight : list (list R); bias : list R }.

Definition forward (self : t) (x : list R) : option (list R) :=
  F.linear x (weight self) (bias self).

Definition set_weight (v : list (list R)) (self : t) : t :=
  mk v (bias self).
Definition set_bias (v : list R) (self : t) : t :=
  mk (weight self) v.

(** [nn.Linear(in_features, out_features)] allocates a weight of shape
    [(out_features, in_features)] and a bias of shape [(out_features,)]. *)
Definition has_shape (in_features out_features : nat) (self : t) : Prop :=
  length (weight self) = out_features
  ∧ Forall (λ row, length row = in_features) (weight self)
  ∧ length (bias self) = out_features.
End Linear.

Module LayerNorm.
Record t : Type :=
  mk { normalized_shape : nat; weight : list R; bias : list R }.

Definition forward (self : t) (x : list R) : option (list R) :=
  F.layer_norm x (normalized_shape self) (weight self) (bias self) LN_EPS.

Definition set_weight (v : list R) (self : t) : t :=
  mk (normalized_shape self) v (bias self).
Definition set_bias (v : list R) (self : t) : t :=
  mk (normalized_shape self) (weight self) v.

Definition has_shape (n : nat) (self : t) : Prop :=
  normalized_shape self = n
  ∧ length (weight self) = n
  ∧ length (bias self) = n.
End LayerNorm.

(** What [named_modules] can yield: a layer, or the container itself. *)
Inductive nn_Module : Type :=
| MLinear (l : Linear.t)
| MLayerNorm (n : LayerNorm.t)
| MContainer.

(** The part of the [nn.Module] interface the manifest builder and the
    exporter use: the root under the empty name, then the children in the
    order [__init__] registers them. *)
Class NamedModules (T : Type) := named_modules : T → list (string * nn_Module).

(** ** The sub-networks *)

Module StateEncoder.
Record t : Type :=
  mk { fc1 : Linear.t; ln1 : LayerNorm.t; fc2 : Linear.t; ln2 : LayerNorm.t }.

Definition forward (self : t) (x : list R) : option (list R) :=
  x ← Linear.forward (fc1 self) x;
  x ← LayerNorm.forward (ln1 self) x;
  let x := F.relu x in
  x ← Linear.forward (fc2 self) x;
  x ← LayerNorm.forward (ln2 self) x;
  let x := F.relu x in
  Some x.

Definition over_fc1 (f : Linear.t → Linear.t) (self : t) : t :=
  mk (f (fc1 self)) (ln1 self) (fc2 self) (ln2 self).
Definition over_ln1 (f : LayerNorm.t → LayerNorm.t) (self : t) : t :=
  mk (fc1 self) (f (ln1 self)) (fc2 self) (ln2 self).
Definition over_fc2 (f : Linear.t → Linear.t) (self : t) : t :=
  mk (fc1 self) (ln1 self) (f (fc2 self)) (ln2 self).
Definition over_ln2 (f : LayerNorm.t → LayerNorm.t) (self : t) : t :=
  mk (fc1 self) (ln1 self) (fc2 self) (f (ln2 self)).

(** [StateEncoder(hidden=512, embed=256)]. *)
Definition has_shape (hidden embed : nat) (self : t) : Prop :=
  Linear.has_shape STATE_SIZE hidden (fc1 self)
  ∧ LayerNorm.has_shape hidden (ln1 self)
  ∧ Linear.has_shape hidden embed (fc2 self)
  ∧ LayerNorm.has_shape embed (ln2 self).
End StateEncoder.

#[export] Instance StateEncoder_named_modules : NamedModules StateEncoder.t :=
  λ self,
    [ ("", MContainer);
      ("fc1", MLinear (StateEncoder.fc1 self));
      ("ln1", MLayerNorm (StateEncoder.ln1 self));
      ("fc2", MLinear (StateEncoder.fc2 self));
      ("ln2", MLayerNorm (StateEncoder.ln2 self)) ].

Module ActionEncoder.
Record t : Type := mk { fc1 : Linear.t; ln1 : LayerNorm.t; fc2 : Linear.t }.

Definition forward (self : t) (x : list R) : option (list R) :=
  x ← Linear.forward (fc1 self) x;
  x ← LayerNorm.forward (ln1 self) x;
  let x := F.relu x in
  x ← Linear.forward (fc2 self) x;
  Some x.

Definition over_fc1 (f : Linear.t → Linear.t) (self : t) : t :=
  mk (f (fc1 self)) (ln1 self) (fc2 self).
Definition over_ln1 (f : LayerNorm.t → LayerNorm.t) (self : t) : t :=
  mk (fc1 self) (f (ln1 self)) (fc2 self).
Definition over_fc2 (f : Linear.t → Linear.t) (self : t) : t :=
  mk (fc1 self) (ln1 self) (f (fc2 self)).

(** [ActionEncoder(hidden=128, embed=64)]. *)
Definition has_shape (hidden embed : nat) (self : t) : Prop :=
  Linear.has_shape ACTION_SIZE hidden (fc1 self)
  ∧ LayerNorm.has_shape hidden (ln1 self)
  ∧ Linear.has_shape hidden embed (fc2 self).
End ActionEncoder.

#[export] Instance ActionEncoder_named_modules : NamedModules ActionEncoder.t :=
  λ self,
    [ ("", MContainer);
      ("fc1", MLinear (ActionEncoder.fc1 self));
      ("ln1", MLayerNorm (ActionEncoder.ln1 self));
      ("fc2", MLinear (ActionEncoder.fc2 self)) ].

Module ActionScorer.
Record t : Type := mk { fc1 : Linear.t; ln1 : LayerNorm.t; fc2 : Linear.t }.

Definition forward (self : t) (state_embed action_embed : list R) : option R :=
  let x := torch.cat state_embed action_embed in
  x ← Linear.forward (fc1 self) x;
  x ← LayerNorm.forward (ln1 self) x;
  let x := F.relu x in
  x ← Linear.forward (fc2 self) x;
  torch.squeeze x.

Definition over_fc1 (f : Linear.t → Linear.t) (self : t) : t :=
  mk (f (fc1 self)) (ln1 self) (fc2 self).
Definition over_ln1 (f : LayerNorm.t → LayerNorm.t) (self : t) : t :=
  mk (fc1 self) (f (ln1 self)) (fc2 self).
Definition over_fc2 (f : Linear.t → Linear.t) (self : t) : t :=
  mk (fc1 self) (ln1 self) (f (fc2 self)).

(** [ActionScorer(state_dim=256, action_dim=64, hidden=128)]. *)
Definition has_shape (state_dim action_dim hidden : nat) (self : t) : Prop :=
  Linear.has_shape (state_dim + action_dim) hidden (fc1 self)
  ∧ LayerNorm.has_shape hidden (ln1 self)
  ∧ Linear.has_shape hidden 1 (fc2 self).
End ActionScorer.

#[export] Instance ActionScorer_named_modules : NamedModules ActionScorer.t :=
  λ self,
    [ ("", MContainer);
      ("fc1", MLinear (ActionScorer.fc1 self));
      ("ln1", MLayerNorm (ActionScorer.ln1 self));
      ("fc2", MLinear (ActionScorer.fc2 self)) ].

Module ValueHead.
Record t : Type := mk { fc1 : Linear.t; fc2 : Linear.t }.

Definition forward (self : t) (x : list R) : option R :=
  x ← Linear.forward (fc1 self) x;
  let x := F.relu x in
  x ← Linear.forward (fc2 self) x;
  let x := map torch.tanh x in
  torch.squeeze x.

Definition over_fc1 (f : Linear.t → Linear.t) (self : t) : t :=
  mk (f (fc1 self)) (fc2 self).
Definition over_fc2 (f : Linear.t → Linear.t) (self : t) : t :=
  mk (fc1 self) (f (fc2 self)).

(** [ValueHead(state_dim=256, hidden=128)]. *)
Definition has_shape (state_dim hidden : nat) (self : t) : Prop :=
  Linear.has_shape state_dim hidden (fc1 self)
  ∧ Linear.has_shape hidden 1 (fc2 self).
End ValueHead.

#[export] Instance ValueHead_named_modules : NamedModules ValueHead.t :=
  λ self,
    [ ("", MContainer);
      ("fc1", MLinear (ValueHead.fc1 self));
      ("fc2", MLinear (ValueHead.fc2 self)) ].

(** ** The complete network *)

Module PolicyValueNetwork.
Record t : Type :=
  mk { state_encoder : StateEncoder.t;
       value_state_encoder : StateEncoder.t;
       action_encoder : ActionEncoder.t;
       action_scorer : ActionScorer.t;
       value_head : ValueHead.t }.

(** [x.reshape(-1, ACTION_SIZE)] followed, after the encoder, by
    [reshape(batch_size, max_actions, -1)]: the rows stay the actions when
    each action has [ACTION_SIZE] features, and the second reshape cannot
    infer its last axis for a batch of zero actions. *)
Definition reshape_actions (action_features : list (list R))
  : option (list (list R)) :=
  if decide (Forall (λ a, length a = ACTION_SIZE) action_features
             ∧ action_features ≠ [])
  then Some action_features
  else None.

Definition forward (self : t) (states : list R)
    (action_features : list (list R)) (action_mask : list bool)
  : option (list xreal * R) :=
  state_embed ← StateEncoder.forward (state_encoder self) states;
  value_state_embed ← StateEncoder.forward (value_state_encoder self) states;
  let max_actions := length action_features in
  flat_actions ← reshape_actions action_features;
  action_embed ← mapM (ActionEncoder.forward (action_encoder self)) flat_actions;
  let state_expanded := replicate max_actions state_embed in
  flat_scores ←
    mapM (λ sa, ActionScorer.forward (action_scorer self) sa.1 sa.2)
         (zip state_expanded action_embed);
  let scores := map Fin flat_scores in
  scores ← torch.masked_fill scores (map negb action_mask) NInf;
  values ← ValueHead.forward (value_head self) value_state_embed;
  Some (scores, values).

Definition get_policy_and_value (self : t) (states : list R)
    (action_features : list (list R)) (action_mask : list bool)
  : option (list xreal * R) :=
  '(scores, values) ← forward self states action_features action_mask;
  let policy := F.softmax scores in
  Some (policy, values).

Definition over_state_encoder (f : StateEncoder.t → StateEncoder.t) (self : t) : t :=
  mk (f (state_encoder self)) (value_state_encoder self)
     (action_encoder self) (action_scorer self) (value_head self).
Definition over_value_state_encoder (f : StateEncoder.t → StateEncoder.t) (self : t) : t :=
  mk (state_encoder self) (f (value_state_encoder self))
     (action_encoder self) (action_scorer self) (value_head self).
Definition over_action_encoder (f : ActionEncoder.t → ActionEncoder.t) (self : t) : t :=
  mk (state_encoder self) (value_state_encoder self)
     (f (action_encoder self)) (action_scorer self) (value_head self).
Definition over_action_scorer (f : ActionScorer.t → ActionScorer.t) (self : t) : t :=
  mk (state_encoder self) (value_state_encoder self)
     (action_encoder self) (f (action_scorer self)) (value_head self).
Definition over_value_head (f : ValueHead.t → ValueHead.t) (self : t) : t :=
  mk (state_encoder self) (value_state_encoder self)
     (action_encoder self) (action_scorer self) (f (value_head self)).

(** The shapes [PolicyValueNetwork()] constructs. *)
Definition has_shape (self : t) : Prop :=
  StateEncoder.has_shape 512 256 (state_encoder self)
  ∧ StateEncoder.has_shape 512 256 (value_state_encoder self)
  ∧ ActionEncoder.has_shape 128 64 (action_encoder self)
  ∧ ActionScorer.has_shape 256 64 128 (action_scorer self)
  ∧ ValueHead.has_shape 256 128 (value_head self).
End PolicyValueNetwork.

(** ** The layer sequence of a forward pass

    [layers] lists the layer applications of a sub-network's [forward] in the
    order the source performs them; [run_layers] applies such a sequence, and
    each [forward] is [run_layers] of its [layers] (lemmas [*_forward_layers]
    below). *)

Inductive layer : Type :=
| LAffine (l : Linear.t)
| LNorm (n : LayerNorm.t)
| LRelu
| LTanh.

Definition run_layer (s : layer) (x : list R) : option (list R) :=
  match s with
  | LAffine l => Linear.forward l x
  | LNorm n => LayerNorm.forward n x
  | LRelu => Some (F.relu x)
  | LTanh => Some (map torch.tanh x)
  end.

Fixpoint run_layers (ls : list layer) (x : list R) : option (list R) :=
  match ls with
  | [] => Some x
  | s :: ls => run_layer s x ≫= run_layers ls
  end.

Definition StateEncoder_layers (self : StateEncoder.t) : list layer :=
  [ LAffine (StateEncoder.fc1 self); LNorm (StateEncoder.ln1 self); LRelu;
    LAffine (StateEncoder.fc2 self); LNorm (StateEncoder.ln2 self); LRelu ].

Definition ActionEncoder_layers (self : ActionEncoder.t) : list layer :=
  [ LAffine (ActionEncoder.fc1 self); LNorm (ActionEncoder.ln1 self); LRelu;
    LAffine (ActionEncoder.fc2 self) ].

Definition ActionScorer_layers (self : ActionScorer.t) : list layer :=
  [ LAffine (ActionScorer.fc1 self); LNorm (ActionScorer.ln1 self); LRelu;
    LAffine (ActionScorer.fc2 self) ].

Definition ValueHead_layers (self : ValueHead.t) : list layer :=
  [ LAffine (ValueHead.fc1 self); LRelu; LAffine (ValueHead.fc2 self); LTanh ].

(** The kind of a layer, for statements about placement only. *)
Inductive kind : Type := KAffine | KNorm | KRelu | KTanh.

Definition kind_of (s : layer) : kind :=
  match s with
  | LAffine _ => KAffine
  | LNorm _ => KNorm
  | LRelu => KRelu
  | LTanh => KTanh
  end.

Definition is_affine (k : kind) : bool :=
  match k with KAffine => true | _ => false end.

(** Every affine layer but the last is followed by a normalization and a
    rectifier; the last affine layer is not followed by a normalization. *)
Fixpoint norm_relu_except_last (ks : list kind) : bool :=
  match ks with
  | [] => true
  | KAffine :: rest =>
      if existsb is_affine rest
      then match rest with
           | KNorm :: KRelu :: _ => norm_relu_except_last rest
           | _ => false
           end
      else match rest with
           | KNorm :: _ => false
           | _ => true
           end
  | _ :: rest => norm_relu_except_last rest
  end.

(** Every affine layer, the last included, is followed by a normalization
    and a rectifier. *)
Fixpoint norm_relu_after_all (ks : list kind) : bool :=
  match ks with
  | [] => true
  | KAffine :: rest =>
      match rest with
      | KNorm :: KRelu :: _ => norm_relu_after_all rest
      | _ => false
      end
  | _ :: rest => norm_relu_after_all rest
  end.

(** ** Graph manifest *)

Record Op : Type := mkOp { op : string; key : option string }.

Definition op_linear (prefix : string) : Op := mkOp "linear" (Some prefix).
Definition op_layernorm (prefix : string) : Op := mkOp "layernorm" (Some prefix).
Definition op_relu : Op := mkOp "relu" None.
Definition op_tanh : Op := mkOp "tanh" None.

(** [graph[c].append(o)]. *)
Definition graph_append (c : string) (o : Op) (graph : gmap string (list Op))
  : gmap string (list Op) :=
  alter (λ l, l ++ [o]) c graph.

(** The loop the source writes out for each of the four sub-networks that
    carry normalization layers. *)
Definition discover (component : string) (mods : list (string * nn_Module))
    (graph : gmap string (list Op)) : gmap string (list Op) :=
  foldl (λ graph nm,
           let '(name, module) := nm in
           if String.eqb name "" then graph
           else
             let prefix := component +:+ "_" +:+ name in
             match module with
             | MLinear _ => graph_append component (op_linear prefix) graph
             | MLayerNorm _ =>
                 graph_append component op_relu
                   (graph_append component (op_layernorm prefix) graph)
             | MContainer => graph
             end)
        graph mods.

(** The loop over the value head: no rectifier is emitted here. *)
Definition discover_value_head (mods : list (string * nn_Module))
    (graph : gmap string (list Op)) : gmap string (list Op) :=
  foldl (λ graph nm,
           let '(name, module) := nm in
           if String.eqb name "" then graph
           else
             let prefix := "value_head" +:+ "_" +:+ name in
             match module with
             | MLinear _ => graph_append "value_head" (op_linear prefix) graph
             | MLayerNorm _ => graph_append "value_head" (op_layernorm prefix) graph
             | MContainer => graph
             end)
        graph mods.

(** [[i for i, op in enumerate(vh) if op['op'] == 'linear']]. *)
Definition linear_indices (vh : list Op) : list nat :=
  map fst (List.filter (λ io, String.eqb (op io.2) "linear")
                       (imap (λ i o, (i, o)) vh)).

(** Python's [list.insert(i, x)]. *)
Definition py_insert {A} (i : nat) (x : A) (l : list A) : list A :=
  take i l ++ x :: drop i l.

Definition _build_graph_manifest (model : PolicyValueNetwork.t)
  : gmap string (list Op) :=
  let graph : gmap string (list Op) :=
    <["value_head" := []]>
      (<["action_scorer" := []]>
         (<["action_encoder" := []]>
            (<["value_state_encoder" := []]>
               (<["state_encoder" := []]> ∅)))) in
  let graph :=
    discover "state_encoder"
      (named_modules (PolicyValueNetwork.state_encoder model)) graph in
  let graph :=
    discover "value_state_encoder"
      (named_modules (PolicyValueNetwork.value_state_encoder model)) graph in
  let graph :=
    discover "action_encoder"
      (named_modules (PolicyValueNetwork.action_encoder model)) graph in
  let graph :=
    discover "action_scorer"
      (named_modules (PolicyValueNetwork.action_scorer model)) graph in
  let graph :=
    discover_value_head
      (named_modules (PolicyValueNetwork.value_head model)) graph in
  (* relu after all but the last linear, tanh after the last linear *)
  let vh := default [] (graph !! "value_head") in
  let vh :=
    foldl (λ vh idx, py_insert (idx + 1) op_relu vh)
          vh (removelast (linear_indices vh)) in
  let vh := vh ++ [op_tanh] in
  <["value_head" := vh]> graph.

(** ** Weight archive *)

Inductive jvalue : Type :=
| JMeta (version : Z) (state_size action_size : nat)
        (graph : gmap string (list Op))
| JLinear (kernel : list (list R)) (bias : list R)
| JLayerNorm (gamma beta : list R).

Definition export_linear (module : Linear.t) (name : string)
    (weights : gmap string jvalue) : gmap string jvalue :=
  <[name := JLinear (transpose (Linear.weight module)) (Linear.bias module)]> weights.

Definition export_layernorm (module : LayerNorm.t) (name : string)
    (weights : gmap string jvalue) : gmap string jvalue :=
  <[name := JLayerNorm (LayerNorm.weight module) (LayerNorm.bias module)]> weights.

(** [getattr(model, component_name).named_modules()] for the five names the
    exporter iterates over. *)
Definition components (model : PolicyValueNetwork.t)
  : list (string * list (string * nn_Module)) :=
  [ ("state_encoder", named_modules (PolicyValueNetwork.state_encoder model));
    ("value_state_encoder",
      named_modules (PolicyValueNetwork.value_state_encoder model));
    ("action_encoder", named_modules (PolicyValueNetwork.action_encoder model));
    ("action_scorer", named_modules (PolicyValueNetwork.action_scorer model));
    ("value_head", named_modules (PolicyValueNetwork.value_head model)) ].

(** The archive written to [path]. *)
Definition export_weights (model : PolicyValueNetwork.t) : gmap string jvalue :=
  let graph := _build_graph_manifest model in
  let weights : gmap string jvalue :=
    {[ "_meta" := JMeta 2 STATE_SIZE ACTION_SIZE graph ]} in
  foldl (λ weights cm,
           let '(component_name, component) := cm in
           foldl (λ weights nm,
                    let '(name, module) := nm in
                    if String.eqb name "" then weights
                    else
                      let key := component_name +:+ "_" +:+ name in
                      match module with
                      | MLinear l => export_linear l key weights
                      | MLayerNorm n => export_layernorm n key weights
                      | MContainer => weights
                      end)
                 weights component)
        weights (components model).

(** ** Loading: in-place updates of the model, printing, exceptions *)

Inductive exn : Type :=
| KeyError (k : string)
| ValueError.

(** The state a load runs in: the model being mutated and what was printed. *)
Definition Load (A : Type) : Type :=
  PolicyValueNetwork.t * list string →
  (exn + A) * (PolicyValueNetwork.t * list string).

#[export] Instance Load_ret : MRet Load := λ A a s, (inr a, s).
#[export] Instance Load_bind : MBind Load :=
  λ A B f m s,
    match m s with
    | (inl e, s') => (inl e, s')
    | (inr a, s') => f a s'
    end.

Definition raise {A} (e : exn) : Load A := λ s, (inl e, s).
Definition modify (f : PolicyValueNetwork.t → PolicyValueNetwork.t) : Load unit :=
  λ s, (inr (), (f s.1, s.2)).
Definition print (line : string) : Load unit :=
  λ s, (inr (), (s.1, s.2 ++ [line])).

Section load.
Context (weights : gmap string jvalue).

(** [weights[name]['kernel']] and the like: a missing entry raises
    [KeyError name], an entry without the field raises [KeyError] of the
    field. *)
Definition get_kernel (name : string) : Load (list (list R)) :=
  match weights !! name with
  | None => raise (KeyError name)
  | Some (JLinear kernel _) => mret kernel
  | Some _ => raise (KeyError "kernel")
  end.
Definition get_bias (name : string) : Load (list R) :=
  match weights !! name with
  | None => raise (KeyError name)
  | Some (JLinear _ bias) => mret bias
  | Some _ => raise (KeyError "bias")
  end.
Definition get_gamma (name : string) : Load (list R) :=
  match weights !! name with
  | None => raise (KeyError name)
  | Some (JLayerNorm gamma _) => mret gamma
  | Some _ => raise (KeyError "gamma")
  end.
Definition get_beta (name : string) : Load (list R) :=
  match weights !! name with
  | None => raise (KeyError name)
  | Some (JLayerNorm _ beta) => mret beta
  | Some _ => raise (KeyError "beta")
  end.

(** [np.array] of a nested list. *)
Definition np_array (M : list (list R)) : Load (list (list R)) :=
  if rectangular M then mret M else raise ValueError.

(** [module] is given by the way to update it inside the model. *)
Definition load_linear
    (module : (Linear.t → Linear.t) → PolicyValueNetwork.t → PolicyValueNetwork.t)
    (name : string) : Load unit :=
  kernel ← get_kernel name;
  arr ← np_array kernel;
  modify (module (Linear.set_weight (transpose arr)));;
  bias ← get_bias name;
  modify (module (Linear.set_bias bias)).

Definition load_layernorm
    (module : (LayerNorm.t → LayerNorm.t) → PolicyValueNetwork.t → PolicyValueNetwork.t)
    (name : string) : Load unit :=
  gamma ← get_gamma name;
  modify (module (LayerNorm.set_weight gamma));;
  beta ← get_beta name;
  modify (module (LayerNorm.set_bias beta)).

Definition load_weights_body (path : string) : Load unit :=
  let state_encoder f := PolicyValueNetwork.over_state_encoder f in
  let value_state_encoder f := PolicyValueNetwork.over_value_state_encoder f in
  let action_encoder f := PolicyValueNetwork.over_action_encoder f in
  let action_scorer f := PolicyValueNetwork.over_action_scorer f in
  let value_head f := PolicyValueNetwork.over_value_head f in
  load_linear (state_encoder ∘ StateEncoder.over_fc1) "state_encoder_fc1";;
  load_layernorm (state_encoder ∘ StateEncoder.over_ln1) "state_encoder_ln1";;
  load_linear (state_encoder ∘ StateEncoder.over_fc2) "state_encoder_fc2";;
  load_layernorm (state_encoder ∘ StateEncoder.over_ln2) "state_encoder_ln2";;
  (* tolerate missing for backward compat with old weights *)
  match weights !! "value_state_encoder_fc1" with
  | Some _ =>
      load_linear (value_state_encoder ∘ StateEncoder.over_fc1) "value_state_encoder_fc1";;
      load_layernorm (value_state_encoder ∘ StateEncoder.over_ln1) "value_state_encoder_ln1";;
      load_linear (value_state_encoder ∘ StateEncoder.over_fc2) "value_state_encoder_fc2";;
      load_layernorm (value_state_encoder ∘ StateEncoder.over_ln2) "value_state_encoder_ln2"
  | None =>
      print "  Note: value_state_encoder not found in weights, using random init"
  end;;
  load_linear (action_encoder ∘ ActionEncoder.over_fc1) "action_encoder_fc1";;
  load_layernorm (action_encoder ∘ ActionEncoder.over_ln1) "action_encoder_ln1";;
  load_linear (action_encoder ∘ ActionEncoder.over_fc2) "action_encoder_fc2";;
  load_linear (action_scorer ∘ ActionScorer.over_fc1) "action_scorer_fc1";;
  load_layernorm (action_scorer ∘ ActionScorer.over_ln1) "action_scorer_ln1";;
  load_linear (action_scorer ∘ ActionScorer.over_fc2) "action_scorer_fc2";;
  load_linear (value_head ∘ ValueHead.over_fc1) "value_head_fc1";;
  load_linear (value_head ∘ ValueHead.over_fc2) "value_head_fc2";;
  print ("Loaded weights from " +:+ path).
End load.

(** [load_weights(model, path)], where [weights] is the JSON read from
    [path].  The result holds the exception raised, if any, the model as the
    call leaves it, and the lines printed. *)
Definition load_weights (model : PolicyValueNetwork.t) (path : string)
    (weights : gmap string jvalue)
  : (exn + unit) * (PolicyValueNetwork.t * list string) :=
  load_weights_body weights path (model, []).

(** ** A generic executor of the archive *)

(** Modelled from the spec: the executor that replays a manifest (the
    TypeScript adapter) is not among the sources.  It applies the operations
    in their listed order; an affine operation computes
    [input · kernel + bias] with the kernel as stored in the archive, a
    normalization uses the stored scale and shift. *)
Definition affine (input : list R) (kernel : list (list R)) (bias : list R)
  : option (list R) :=
  if decide (length kernel = length input
             ∧ length bias = length (transpose kernel))
  then Some (zip_with Rplus (map (dot input) (transpose kernel)) bias)
  else None.

(** Modelled from the spec: one operation of the executor (the adapter is
    not among the sources).  The kind selects the computation; the key, for
    an affine or a normalization operation, selects the stored parameters. *)
Definition apply_op (weights : gmap string jvalue) (o : Op) (x : list R)
  : option (list R) :=
  if String.eqb (op o) "linear" then
    k ← key o;
    match weights !! k with
    | Some (JLinear kernel bias) => affine x kernel bias
    | _ => None
    end
  else if String.eqb (op o) "layernorm" then
    k ← key o;
    match weights !! k with
    | Some (JLayerNorm gamma beta) =>
        F.layer_norm x (length gamma) gamma beta LN_EPS
    | _ => None
    end
  else if String.eqb (op o) "relu" then Some (F.relu x)
  else if String.eqb (op o) "tanh" then Some (map torch.tanh x)
  else None.

(** Modelled from the spec: the executor replays the operations in their
    listed order (the adapter is not among the sources). *)
Fixpoint run_ops (weights : gmap string jvalue) (ops : list Op) (x : list R)
  : option (list R) :=
  match ops with
  | [] => Some x
  | o :: ops => apply_op weights o x ≫= run_ops weights ops
  end.

(** Modelled from the spec: the executor reads the manifest of a
    sub-network from the archive's metadata (the adapter is not among the
    sources). *)
Definition manifest_of (weights : gmap string jvalue) (name : string)
  : option (list Op) :=
  match weights !! "_meta" with
  | Some (JMeta _ _ _ graph) => graph !! name
  | _ => None
  end.

(** Modelled from the spec: the executor runs a sub-network of an archive by
    replaying its manifest (the adapter is not among the sources). *)
Definition run_archive (weights : gmap string jvalue) (name : string)
    (x : list R) : option (list R) :=
  ops ← manifest_of weights name;
  run_ops weights ops x.

(** ** Auxiliary notions for the statements *)

(** The scores [forward] returns for raw scores [raw]: the masked positions
    hold negative infinity. *)
Definition mask_scores (raw : list R) (action_mask : list bool) : list xreal :=
  zip_with (λ x (b : bool), if b then NInf else x) (map Fin raw) (map negb action_mask).


Definition count_valid (action_mask : list bool) : nat :=
  length (List.filter (λ b : bool, b) action_mask).

(** At least one position is valid. *)
Definition any_valid (action_mask : list bool) : bool :=
  existsb (λ b : bool, b) action_mask.

(** ** A concrete model and concrete inputs

    Parameters of the constructed shapes: every affine weight and bias is
    [c], every normalization has scale 1 and shift 0. *)

Definition const_linear (in_features out_features : nat) (c : R) : Linear.t :=
  Linear.mk (replicate out_features (replicate in_features c))
            (replicate out_features c).

Definition unit_layernorm (n : nat) : LayerNorm.t :=
  LayerNorm.mk n (replicate n 1) (replicate n 0).

Definition const_state_encoder (c : R) : StateEncoder.t :=
  StateEncoder.mk (const_linear STATE_SIZE 512 c) (unit_layernorm 512)
                  (const_linear 512 256 c) (unit_layernorm 256).

Definition const_model (c : R) : PolicyValueNetwork.t :=
  PolicyValueNetwork.mk
    (const_state_encoder c)
    (const_state_encoder c)
    (ActionEncoder.mk (const_linear ACTION_SIZE 128 c) (unit_layernorm 128)
                      (const_linear 128 64 c))
    (ActionScorer.mk (const_linear (256 + 64) 128 c) (unit_layernorm 128)
                     (const_linear 128 1 c))
    (ValueHead.mk (const_linear 256 128 c) (const_linear 128 1 c)).

Definition sample_state : list R := replicate STATE_SIZE 1.
Definition sample_action (c : R) : list R := replicate ACTION_SIZE c.

(** Placement facts about a manifest: a rectifier follows every
    normalization operation; no normalization operation occurs. *)
Fixpoint relu_after_layernorm (ops : list Op) : bool :=
  match ops with
  | [] => true
  | o :: rest =>
      (if String.eqb (op o) "layernorm"
       then match rest with
            | o' :: _ => String.eqb (op o') "relu"
            | [] => false
            end
       else true)
      && relu_after_layernorm rest
  end.

Definition no_layernorm (ops : list Op) : bool :=
  forallb (λ o, negb (String.eqb (op o) "layernorm")) ops.

(** The five sub-network names of the manifest. *)
Definition SUBNETWORKS : list string :=
  [ "state_encoder"; "value_state_encoder"; "action_encoder";
    "action_scorer"; "value_head" ].

(** The placement the specification words for all three encoders: in each,
    every affine layer but the last is followed by a normalization and a
    rectifier, and the last is not followed by a normalization. *)
Definition encoders_norm_relu_except_last (m : PolicyValueNetwork.t) : Prop :=
  norm_relu_except_last
    (map kind_of (StateEncoder_layers (PolicyValueNetwork.state_encoder m))) = true
  ∧ norm_relu_except_last
      (map kind_of (StateEncoder_layers (PolicyValueNetwork.value_state_encoder m))) = true
  ∧ norm_relu_except_last
      (map kind_of (ActionEncoder_layers (PolicyValueNetwork.action_encoder m))) = true.

(** ** Keys of the archive and what a load stores *)

Definition MANDATORY_LINEAR : list string :=
  [ "state_encoder_fc1"; "state_encoder_fc2";
    "action_encoder_fc1"; "action_encoder_fc2";
    "action_scorer_fc1"; "action_scorer_fc2";
    "value_head_fc1"; "value_head_fc2" ].

Definition MANDATORY_LAYERNORM : list string :=
  [ "state_encoder_ln1"; "state_encoder_ln2";
    "action_encoder_ln1"; "action_scorer_ln1" ].

Definition OPTIONAL_LINEAR : list string :=
  [ "value_state_encoder_fc1"; "value_state_encoder_fc2" ].

Definition OPTIONAL_LAYERNORM : list string :=
  [ "value_state_encoder_ln1"; "value_state_encoder_ln2" ].

(** The archive holds, under [name], what [load_linear] (respectively
    [load_layernorm]) reads. *)
Definition loadable_linear (weights : gmap string jvalue) (name : string) : Prop :=
  ∃ kernel bias,
    weights !! name = Some (JLinear kernel bias) ∧ rectangular kernel = true.

Definition loadable_layernorm (weights : gmap string jvalue) (name : string) : Prop :=
  ∃ gamma beta, weights !! name = Some (JLayerNorm gamma beta).

(** The layer a successful [load_linear] (respectively [load_layernorm])
    leaves in place of [old]. *)
Definition stored_linear (weights : gmap string jvalue) (name : string)
    (old : Linear.t) : Linear.t :=
  match weights !! name with
  | Some (JLinear kernel bias) => Linear.mk (transpose kernel) bias
  | _ => old
  end.

Definition stored_layernorm (weights : gmap string jvalue) (name : string)
    (old : LayerNorm.t) : LayerNorm.t :=
  match weights !! name with
  | Some (JLayerNorm gamma beta) =>
      LayerNorm.mk (LayerNorm.normalized_shape old) gamma beta
  | _ => old
  end.

Definition stored_state_encoder (weights : gmap string jvalue) (prefix : string)
    (old : StateEncoder.t) : StateEncoder.t :=
  StateEncoder.mk
    (stored_linear weights (prefix +:+ "_fc1") (StateEncoder.fc1 old))
    (stored_layernorm weights (prefix +:+ "_ln1") (StateEncoder.ln1 old))
    (stored_linear weights (prefix +:+ "_fc2") (StateEncoder.fc2 old))
    (stored_layernorm weights (prefix +:+ "_ln2") (StateEncoder.ln2 old)).

(** The model a successful [load_weights] leaves behind. *)
Definition loaded_model (weights : gmap string jvalue)
    (model : PolicyValueNetwork.t) : PolicyValueNetwork.t :=
  PolicyValueNetwork.mk
    (stored_state_encoder weights "state_encoder"
       (PolicyValueNetwork.state_encoder model))
    (match weights !! "value_state_encoder_fc1" with
     | Some _ =>
         stored_state_encoder weights "value_state_encoder"
           (PolicyValueNetwork.value_state_encoder model)
     | None => PolicyValueNetwork.value_state_encoder model
     end)
    (ActionEncoder.mk
       (stored_linear weights "action_encoder_fc1"
          (ActionEncoder.fc1 (PolicyValueNetwork.action_encoder model)))
       (stored_layernorm weights "action_encoder_ln1"
          (ActionEncoder.ln1 (PolicyValueNetwork.action_encoder model)))
       (stored_linear weights "action_encoder_fc2"
          (ActionEncoder.fc2 (PolicyValueNetwork.action_encoder model))))
    (ActionScorer.mk
       (stored_linear weights "action_scorer_fc1"
          (ActionScorer.fc1 (PolicyValueNetwork.action_scorer model)))
       (stored_layernorm weights "action_scorer_ln1"
          (ActionScorer.ln1 (PolicyValueNetwork.action_scorer model)))
       (stored_linear weights "action_scorer_fc2"
          (ActionScorer.fc2 (PolicyValueNetwork.action_scorer model))))
    (ValueHead.mk
       (stored_linear weights "value_head_fc1"
          (ValueHead.fc1 (PolicyValueNetwork.value_head model)))
       (stored_linear weights "value_head_fc2"
          (ValueHead.fc2 (PolicyValueNetwork.value_head model)))).

Definition FALLBACK_NOTE : string :=
  "  Note: value_state_encoder not found in weights, using random init".

(** The lines a successful [load_weights] prints. *)
Definition loaded_output (weights : gmap string jvalue) (path : string)
  : list string :=
  match weights !! "value_state_encoder_fc1" with
  | Some _ => []
  | None => [FALLBACK_NOTE]
  end ++ ["Loaded weights from " +:+ path].

(** An archive written before the value-path encoder existed: the export
    without the four [value_state_encoder] entries. *)
Definition legacy_archive (model : PolicyValueNetwork.t) : gmap string jvalue :=
  delete "value_state_encoder_fc1"
    (delete "value_state_encoder_ln1"
       (delete "value_state_encoder_fc2"
          (delete "value_state_encoder_ln2" (export_weights model)))).

(** The affine layers of a model under their archive keys, in the order the
    exporter visits them. *)
Definition keyed_linears (model : PolicyValueNetwork.t)
  : list (string * Linear.t) :=
  flat_map
    (λ cm : string * list (string * nn_Module),
       omap (λ nm : string * nn_Module,
               match nm.2 with
               | MLinear l => Some (cm.1 +:+ "_" +:+ nm.1, l)
               | _ => None
               end)
            cm.2)
    (components model).

(** A computation of the loader that raises from every state. *)
Definition fails {A} (c : Load A) : Prop :=
  ∀ s, ∃ e s', c s = (inl e, s').

(** * Further functions of the sources, and notions for their properties *)

(** ** The two paths of the forward pass

    [forward] sends the state through the policy path (state encoder, action
    encoder, scorer) once per action, and through the value path (value
    state encoder, value head) once. *)

(** The raw score of one action: lines 117, 125 and 134 of the source for
    one row of the flattened batch. *)
Definition raw_score (model : PolicyValueNetwork.t) (states : list R)
    (action : list R) : option R :=
  state_embed ←
    StateEncoder.forward (PolicyValueNetwork.state_encoder model) states;
  action_embed ←
    ActionEncoder.forward (PolicyValueNetwork.action_encoder model) action;
  ActionScorer.forward (PolicyValueNetwork.action_scorer model)
    state_embed action_embed.

(** The value of a state: lines 120 and 141 of the source. *)
Definition state_value (model : PolicyValueNetwork.t) (states : list R)
  : option R :=
  value_state_embed ←
    StateEncoder.forward (PolicyValueNetwork.value_state_encoder model) states;
  ValueHead.forward (PolicyValueNetwork.value_head model) value_state_embed.

(** Inputs of the documented shapes: a state of [STATE_SIZE] features, at
    least one action, [ACTION_SIZE] features per action, one mask entry per
    action. *)
Definition documented_shapes (states : list R)
    (action_features : list (list R)) (action_mask : list bool) : Prop :=
  length states = STATE_SIZE
  ∧ Forall (λ a, length a = ACTION_SIZE) action_features
  ∧ action_features ≠ []
  ∧ length action_mask = length action_features.

(** Two action batches agree wherever the mask marks a position valid. *)
Definition agree_on_valid (action_mask : list bool)
    (actions1 actions2 : list (list R)) : Prop :=
  length actions1 = length actions2
  ∧ ∀ i, action_mask !! i = Some true → actions1 !! i = actions2 !! i.

(** A model of the constructed shapes whose policy path has the parameters
    of [const_model c] and whose value path those of [const_model d]. *)
Definition mixed_model (c d : R) : PolicyValueNetwork.t :=
  PolicyValueNetwork.mk
    (PolicyValueNetwork.state_encoder (const_model c))
    (PolicyValueNetwork.value_state_encoder (const_model d))
    (PolicyValueNetwork.action_encoder (const_model c))
    (PolicyValueNetwork.action_scorer (const_model c))
    (PolicyValueNetwork.value_head (const_model d)).

(** ** [count_parameters]

    [sum(p.numel() for p in self.parameters() if p.requires_grad)]: the
    parameters are the weight and the bias of every layer of the five
    sub-networks, and each requires gradients (the source never freezes
    one). *)

Definition numel (M : list (list R)) : Z := Z.of_nat (sum_list (map length M)).

Definition module_numel (module : nn_Module) : Z :=
  match module with
  | MLinear l =>
      (numel (Linear.weight l) + Z.of_nat (length (Linear.bias l)))%Z
  | MLayerNorm n =>
      (Z.of_nat (length (LayerNorm.weight n))
       + Z.of_nat (length (LayerNorm.bias n)))%Z
  | MContainer => 0%Z
  end.

Definition count_parameters (self : PolicyValueNetwork.t) : Z :=
  foldr Z.add 0%Z
    (map (λ nm : string * nn_Module, module_numel nm.2)
         (flat_map snd (components self))).

(** ** The value head's fix-up, on its own

    Lines 222 to 228 of the source: the indices of the linear operations are
    taken once, a rectifier is inserted after each of them but the last, and
    the saturating operation is appended. *)
Definition value_head_fixup (vh : list Op) : list Op :=
  let vh :=
    foldl (λ vh idx, py_insert (idx + 1) op_relu vh)
          vh (removelast (linear_indices vh)) in
  vh ++ [op_tanh].

(** The graph as the five loops of [_build_graph_manifest] leave it. *)
Definition discovered_graph (model : PolicyValueNetwork.t)
  : gmap string (list Op) :=
  let graph : gmap string (list Op) :=
    <["value_head" := []]>
      (<["action_scorer" := []]>
         (<["action_encoder" := []]>
            (<["value_state_encoder" := []]>
               (<["state_encoder" := []]> ∅)))) in
  let graph :=
    discover "state_encoder"
      (named_modules (PolicyValueNetwork.state_encoder model)) graph in
  let graph :=
    discover "value_state_encoder"
      (named_modules (PolicyValueNetwork.value_state_encoder model)) graph in
  let graph :=
    discover "action_encoder"
      (named_modules (PolicyValueNetwork.action_encoder model)) graph in
  let graph :=
    discover "action_scorer"
      (named_modules (PolicyValueNetwork.action_scorer model)) graph in
  discover_value_head
    (named_modules (PolicyValueNetwork.value_head model)) graph.

(** ** The archive and its own manifest *)

(** The operation names an entry of the archive of its kind, or is one of
    the two operations without parameters. *)
Definition op_resolves (weights : gmap string jvalue) (o : Op) : Prop :=
  match key o with
  | Some k =>
      (op o = "linear"
       ∧ ∃ kernel bias, weights !! k = Some (JLinear kernel bias))
      ∨ (op o = "layernorm"
         ∧ ∃ gamma beta, weights !! k = Some (JLayerNorm gamma beta))
  | None => op o = "relu" ∨ op o = "tanh"
  end.

(** The keys the manifest of an archive references, sub-network by
    sub-network. *)
Definition manifest_keys (weights : gmap string jvalue) : list string :=
  flat_map (λ name, omap key (default [] (manifest_of weights name)))
           SUBNETWORKS.

(** ** Archives for the loader's edge cases *)

(** The three [value_state_encoder] keys the loader reads only after it has
    found [value_state_encoder_fc1]. *)
Definition OPTIONAL_REST : list string :=
  [ "value_state_encoder_ln1"; "value_state_encoder_fc2";
    "value_state_encoder_ln2" ].

(** ** [verify_inference.py]

    [main] builds a model under a fixed seed, exports it, draws a state and
    [num_actions] actions under another fixed seed, and saves them with the
    outputs of one forward pass over an all-ones mask.  The model and the
    two draws are the arguments here; the result is the pair of files
    written: the archive and the test case. *)

Module TestCase.
Record t : Type :=
  mk { state : list R;
       actions : list (list R);
       expected_scores : list xreal;
       expected_value : R;
       expected_policy : list xreal }.
End TestCase.

Definition NUM_ACTIONS : nat := 5.

Definition main (model : PolicyValueNetwork.t) (state : list R)
    (actions : list (list R)) : option (gmap string jvalue * TestCase.t) :=
  let weights := export_weights model in
  let num_actions := NUM_ACTIONS in
  let mask := replicate num_actions true in
  '(scores, values) ← PolicyValueNetwork.forward model state actions mask;
  let policy := F.softmax scores in
  let test_case := TestCase.mk state actions scores values policy in
  Some (weights, test_case).

(** Modelled from the spec: the forward pass of the generic executor (the
    adapter is not among the sources) on a batch without padding.  It
    encodes the state twice, encodes every action, scores every pair of
    state embedding and action embedding, and evaluates the value head, each
    time by replaying the manifest of the sub-network. *)
Definition executor_forward (weights : gmap string jvalue) (state : list R)
    (actions : list (list R)) : option (list R * R) :=
  policy_embed ← run_archive weights "state_encoder" state;
  value_embed ← run_archive weights "value_state_encoder" state;
  action_embeds ← mapM (run_archive weights "action_encoder") actions;
  scores ←
    mapM (λ action_embed,
            run_archive weights "action_scorer"
              (torch.cat policy_embed action_embed) ≫= torch.squeeze)
         action_embeds;
  value ← run_archive weights "value_head" value_embed ≫= torch.squeeze;
  Some (scores, value).

(** * The forward pass over IEEE 754 binary32

    The definitions above read the source over the real numbers: they give
    what the network computes when no operation rounds and none overflows.
    The tensors of the source hold float32 values, whose operations round,
    overflow to an infinity and yield NaN where the result is undefined.
    This part reads the same forward pass over binary32 ([spec_float] with a
    precision of 24 bits and exponents below 128), for the properties of the
    policy and of the value on which the two readings differ.

    The source calls torch, and torch leaves two things open.  The order in
    which a reduction adds its terms: here a sum adds from the last term to
    the first ([foldr]).  The values of the exponential and of the
    hyperbolic tangent at the arguments that are neither zero, nor infinite,
    nor NaN: they belong to the math library in use and are a parameter
    ([libm]); at the special arguments the values are those of IEEE 754 and
    of Annex F of the C standard.  The properties proved over this reading
    rest on the special values, on signs and on shapes, which neither choice
    changes; none compares the results of two different batches. *)

Module Float32.

Definition float32 : Type := spec_float.

Definition prec : Z := 24.
Definition emax : Z := 128.

Definition add : float32 → float32 → float32 := SFadd prec emax.
Definition sub : float32 → float32 → float32 := SFsub prec emax.
Definition mul : float32 → float32 → float32 := SFmul prec emax.
Definition div : float32 → float32 → float32 := SFdiv prec emax.
Definition sqrt : float32 → float32 := SFsqrt prec emax.

(** The conversion of a length to a float32. *)
Definition of_nat (n : nat) : float32 :=
  binary_normalize prec emax (Z.of_nat n) 0 false.

Definition zero : float32 := S754_zero false.
Definition one : float32 := S754_finite false 8388608 (-23).
Definition minus_one : float32 := S754_finite true 8388608 (-23).
Definition inf : float32 := S754_infinity false.
Definition neg_inf : float32 := S754_infinity true.
Definition nan : float32 := S754_nan.

(** The largest finite float32, [(2 - 2^-23) * 2^127]. *)
Definition FLT_MAX : float32 := S754_finite false 16777215 104.

(** Default [eps] of [nn.LayerNorm], [1e-5], as the nearest float32. *)
Definition LN_EPS : float32 := S754_finite false 10995116 (-40).


(** Neither NaN nor an infinity. *)
Definition is_finite (x : float32) : bool :=
  match x with S754_zero _ | S754_finite _ _ _ => true | _ => false end.


(** Positive zero, a positive number or positive infinity. *)
Definition nonneg (x : float32) : bool :=
  match x with
  | S754_zero false | S754_infinity false | S754_finite false _ _ => true
  | _ => false
  end.

(** The math library: the exponential and the hyperbolic tangent at the
    arguments that are neither zero, nor infinite, nor NaN, given by sign,
    mantissa and exponent. *)
Record libm : Type :=
  { expf : bool → positive → Z → float32;
    tanhf : bool → positive → Z → float32 }.



Module torch.

(** [torch.max] propagates NaN. *)
Definition maximum (a b : float32) : float32 :=
  match SFcompare a b with
  | None => nan
  | Some Lt => b
  | Some _ => a
  end.

Definition max (input : list float32) : float32 := foldr maximum neg_inf input.
Definition sum (input : list float32) : float32 := foldr add zero input.

Definition exp (M : libm) (x : float32) : float32 :=
  match x with
  | S754_nan => nan
  | S754_infinity false => inf
  | S754_infinity true => zero
  | S754_zero _ => one
  | S754_finite s m e => expf M s m e
  end.

Definition tanh (M : libm) (x : float32) : float32 :=
  match x with
  | S754_nan => nan
  | S754_infinity false => one
  | S754_infinity true => minus_one
  | S754_zero s => S754_zero s
  | S754_finite s m e => tanhf M s m e
  end.

Definition cat (a b : list float32) : list float32 := a ++ b.

Definition masked_fill (input : list float32) (mask : list bool)
    (value : float32) : option (list float32) :=
  if decide (length mask = length input)
  then Some (zip_with (λ x (b : bool), if b then value else x) input mask)
  else None.

Definition squeeze (x : list float32) : option float32 :=
  match x with
  | [s] => Some s
  | _ => None
  end.

End torch.

Module F.

(** [F.relu] keeps NaN. *)
Definition relu1 (x : float32) : float32 :=
  match SFcompare x zero with
  | None => nan
  | Some Lt => zero
  | Some _ => x
  end.

Definition relu (x : list float32) : list float32 := map relu1 x.

Definition dot (u v : list float32) : float32 := torch.sum (zip_with mul u v).

Definition linear (input : list float32) (weight : list (list float32))
    (bias : list float32) : option (list float32) :=
  if decide (Forall (λ row, length row = length input) weight
             ∧ length bias = length weight)
  then Some (zip_with add (map (dot input) weight) bias)
  else None.

Definition mean (x : list float32) : float32 :=
  div (torch.sum x) (of_nat (length x)).

Definition var (x : list float32) : float32 :=
  div (torch.sum (map (λ a, mul (sub a (mean x)) (sub a (mean x))) x))
      (of_nat (length x)).

Definition layer_norm (input : list float32) (normalized_shape : nat)
    (weight bias : list float32) (eps : float32) : option (list float32) :=
  if decide (length input = normalized_shape
             ∧ length weight = normalized_shape
             ∧ length bias = normalized_shape)
  then
    let mu := mean input in
    let sigma := sqrt (add (var input) eps) in
    Some (zip_with add
            (zip_with mul (map (λ a, div (sub a mu) sigma) input) weight)
            bias)
  else None.

Definition softmax (M : libm) (input : list float32) : list float32 :=
  let m := torch.max input in
  let e := map (λ x, torch.exp M (sub x m)) input in
  let s := torch.sum e in
  map (λ y, div y s) e.

End F.

Module Linear.
Record t : Type := mk { weight : list (list float32); bias : list float32 }.

Definition forward (self : t) (x : list float32) : option (list float32) :=
  F.linear x (weight self) (bias self).

Definition has_shape (in_features out_features : nat) (self : t) : Prop :=
  length (weight self) = out_features
  ∧ Forall (λ row, length row = in_features) (weight self)
  ∧ length (bias self) = out_features.
End Linear.

Module LayerNorm.
Record t : Type :=
  mk { normalized_shape : nat; weight : list float32; bias : list float32 }.

Definition forward (self : t) (x : list float32) : option (list float32) :=
  F.layer_norm x (normalized_shape self) (weight self) (bias self) LN_EPS.

Definition has_shape (n : nat) (self : t) : Prop :=
  normalized_shape self = n
  ∧ length (weight self) = n
  ∧ length (bias self) = n.
End LayerNorm.

Module StateEncoder.
Record t : Type :=
  mk { fc1 : Linear.t; ln1 : LayerNorm.t; fc2 : Linear.t; ln2 : LayerNorm.t }.

Definition forward (self : t) (x : list float32) : option (list float32) :=
  x ← Linear.forward (fc1 self) x;
  x ← LayerNorm.forward (ln1 self) x;
  let x := F.relu x in
  x ← Linear.forward (fc2 self) x;
  x ← LayerNorm.forward (ln2 self) x;
  let x := F.relu x in
  Some x.

Definition has_shape (hidden embed : nat) (self : t) : Prop :=
  Linear.has_shape STATE_SIZE hidden (fc1 self)
  ∧ LayerNorm.has_shape hidden (ln1 self)
  ∧ Linear.has_shape hidden embed (fc2 self)
  ∧ LayerNorm.has_shape embed (ln2 self).
End StateEncoder.

Module ActionEncoder.
Record t : Type := mk { fc1 : Linear.t; ln1 : LayerNorm.t; fc2 : Linear.t }.

Definition forward (self : t) (x : list float32) : option (list float32) :=
  x ← Linear.forward (fc1 self) x;
  x ← LayerNorm.forward (ln1 self) x;
  let x := F.relu x in
  x ← Linear.forward (fc2 self) x;
  Some x.

Definition has_shape (hidden embed : nat) (self : t) : Prop :=
  Linear.has_shape ACTION_SIZE hidden (fc1 self)
  ∧ LayerNorm.has_shape hidden (ln1 self)
  ∧ Linear.has_shape hidden embed (fc2 self).
End ActionEncoder.

Module ActionScorer.
Record t : Type := mk { fc1 : Linear.t; ln1 : LayerNorm.t; fc2 : Linear.t }.

Definition forward (self : t) (state_embed action_embed : list float32)
  : option float32 :=
  let x := torch.cat state_embed action_embed in
  x ← Linear.forward (fc1 self) x;
  x ← LayerNorm.forward (ln1 self) x;
  let x := F.relu x in
  x ← Linear.forward (fc2 self) x;
  torch.squeeze x.

Definition has_shape (state_dim action_dim hidden : nat) (self : t) : Prop :=
  Linear.has_shape (state_dim + action_dim) hidden (fc1 self)
  ∧ LayerNorm.has_shape hidden (ln1 self)
  ∧ Linear.has_shape hidden 1 (fc2 self).
End ActionScorer.

Module ValueHead.
Record t : Type := mk { fc1 : Linear.t; fc2 : Linear.t }.

Definition forward (M : libm) (self : t) (x : list float32) : option float32 :=
  x ← Linear.forward (fc1 self) x;
  let x := F.relu x in
  x ← Linear.forward (fc2 self) x;
  let x := map (torch.tanh M) x in
  torch.squeeze x.

Definition has_shape (state_dim hidden : nat) (self : t) : Prop :=
  Linear.has_shape state_dim hidden (fc1 self)
  ∧ Linear.has_shape hidden 1 (fc2 self).
End ValueHead.

Module PolicyValueNetwork.
Record t : Type :=
  mk { state_encoder : StateEncoder.t;
       value_state_encoder : StateEncoder.t;
       action_encoder : ActionEncoder.t;
       action_scorer : ActionScorer.t;
       value_head : ValueHead.t }.

Definition reshape_actions (action_features : list (list float32))
  : option (list (list float32)) :=
  if decide (Forall (λ a, length a = ACTION_SIZE) action_features
             ∧ action_features ≠ [])
  then Some action_features
  else None.

Definition forward (M : libm) (self : t) (states : list float32)
    (action_features : list (list float32)) (action_mask : list bool)
  : option (list float32 * float32) :=
  state_embed ← StateEncoder.forward (state_encoder self) states;
  value_state_embed ← StateEncoder.forward (value_state_encoder self) states;
  let max_actions := length action_features in
  flat_actions ← reshape_actions action_features;
  action_embed ← mapM (ActionEncoder.forward (action_encoder self)) flat_actions;
  let state_expanded := replicate max_actions state_embed in
  flat_scores ←
    mapM (λ sa, ActionScorer.forward (action_scorer self) sa.1 sa.2)
         (zip state_expanded action_embed);
  scores ← torch.masked_fill flat_scores (map negb action_mask) neg_inf;
  values ← ValueHead.forward M (value_head self) value_state_embed;
  Some (scores, values).

Definition get_policy_and_value (M : libm) (self : t) (states : list float32)
    (action_features : list (list float32)) (action_mask : list bool)
  : option (list float32 * float32) :=
  '(scores, values) ← forward M self states action_features action_mask;
  let policy := F.softmax M scores in
  Some (policy, values).

Definition has_shape (self : t) : Prop :=
  StateEncoder.has_shape 512 256 (state_encoder self)
  ∧ StateEncoder.has_shape 512 256 (value_state_encoder self)
  ∧ ActionEncoder.has_shape 128 64 (action_encoder self)
  ∧ ActionScorer.has_shape 256 64 128 (action_scorer self)
  ∧ ValueHead.has_shape 256 128 (value_head self).
End PolicyValueNetwork.

(** Inputs of the documented shapes. *)
Definition documented_shapes (states : list float32)
    (action_features : list (list float32)) (action_mask : list bool) : Prop :=
  length states = STATE_SIZE
  ∧ Forall (λ a, length a = ACTION_SIZE) action_features
  ∧ action_features ≠ []
  ∧ length action_mask = length action_features.

(** [forward] overwrites the scores of the masked positions. *)
Definition mask_scores (raw : list float32) (action_mask : list bool)
  : list float32 :=
  zip_with (λ x (b : bool), if b then neg_inf else x) raw (map negb action_mask).


(** Positive infinity, or a positive number whose leading bit weighs at
    least [2^0]: a value of at least 1. *)
Definition at_least_one (x : float32) : bool :=
  match x with
  | S754_infinity false => true
  | S754_finite false m e => (1 <=? Zpos (digits2_pos m) + e)%Z
  | _ => false
  end.

(** A score [forward] can return when no raw score overflowed: a number, or
    the negative infinity of a masked position. *)
Definition number_or_masked (x : float32) : Prop :=
  is_finite x = true ∨ x = neg_inf.


(** The row that holds 1 at position [k] and 0 elsewhere. *)
Definition one_hot (n k : nat) : list float32 :=
  <[k := one]> (replicate n zero).

(** ** Concrete parameters and inputs

    [const_model c]: every affine weight is [c], every bias 0, every
    normalization has scale 1 and shift 0. *)

Definition const_linear (in_features out_features : nat) (c : float32)
  : Linear.t :=
  Linear.mk (replicate out_features (replicate in_features c))
            (replicate out_features zero).

Definition unit_layernorm (n : nat) : LayerNorm.t :=
  LayerNorm.mk n (replicate n one) (replicate n zero).

Definition const_state_encoder (c : float32) : StateEncoder.t :=
  StateEncoder.mk (const_linear STATE_SIZE 512 c) (unit_layernorm 512)
                  (const_linear 512 256 c) (unit_layernorm 256).

Definition const_model (c : float32) : PolicyValueNetwork.t :=
  PolicyValueNetwork.mk
    (const_state_encoder c)
    (const_state_encoder c)
    (ActionEncoder.mk (const_linear ACTION_SIZE 128 c) (unit_layernorm 128)
                      (const_linear 128 64 c))
    (ActionScorer.mk (const_linear (256 + 64) 128 c) (unit_layernorm 128)
                     (const_linear 128 1 c))
    (ValueHead.mk (const_linear 256 128 c) (const_linear 128 1 c)).

(** A state of [STATE_SIZE] features, all equal to [c]. *)
Definition const_state (c : float32) : list float32 := replicate STATE_SIZE c.

Definition const_action (c : float32) : list float32 := replicate ACTION_SIZE c.

(** A math library that returns the limits: it meets [expf_nonneg] and
    [tanhf_bounded], and serves to instantiate the statements. *)
Definition limit_libm : libm :=
  {| expf := λ s _ _, if s : bool then zero else inf;
     tanhf := λ s _ _, if s : bool then minus_one else one |}.

End Float32.

(** * Proofs *)

(** ** Transposition *)

Lemma length_transpose (M : list (list R)) (r : list R) :
  head M = Some r → length (transpose M) = length r.
Proof.
  destruct M as [|r' M]; intros [= ->]. unfold transpose.
  by rewrite length_map, length_seq.
Qed.

Lemma transpose_rows (M : list (list R)) :
  Forall (λ col, length col = length M) (transpose M).
Proof.
  destruct M as [|r M]; [constructor|]. unfold transpose.
  apply Forall_forall. intros col [j [-> _]]%list_elem_of_fmap.
  by rewrite length_map.
Qed.

Lemma rectangular_transpose (M : list (list R)) : rectangular (transpose M) = true.
Proof.
  pose proof (transpose_rows M) as H.
  destruct (transpose M) as [|c T] eqn:E; [done|].
  unfold rectangular. apply forallb_forall. intros row Hin.
  apply Nat.eqb_eq. rewrite Forall_forall in H.
  rewrite (H row), (H c); [done | left | by apply list_elem_of_In].
Qed.

Lemma map_nth_seq (l : list R) (d : R) :
  map (λ j, nth j l d) (seq 0 (length l)) = l.
Proof.
  induction l as [|a l IH]; [done|].
  cbn [length seq map nth]. f_equal.
  rewrite <- seq_shift, map_map. exact IH.
Qed.

Lemma nth_col (M : list (list R)) (i j : nat) :
  (i < length M)%nat →
  nth i (map (λ row, nth j row 0) M) 0 = nth j (nth i M []) 0.
Proof.
  revert i. induction M as [|r M IH]; intros i Hi; simpl in *; [lia|].
  destruct i as [|i]; [done|]. apply IH. lia.
Qed.

Lemma nth_map_seq {A} (f : nat → A) (n i : nat) (d : A) :
  (i < n)%nat → nth i (map f (seq 0 n)) d = f i.
Proof.
  intros Hi. apply nth_lookup_Some.
  change (map f (seq 0 n)) with (f <$> seq 0 n).
  rewrite list_lookup_fmap, lookup_seq_lt by done. done.
Qed.

Lemma transpose_eq (M : list (list R)) (c : list R) :
  head M = Some c →
  transpose M = map (λ j, map (λ row, nth j row 0) M) (seq 0 (length c)).
Proof. destruct M; intros [= ->]; done. Qed.

Lemma transpose_involutive (M : list (list R)) (n : nat) :
  (0 < n)%nat → Forall (λ row, length row = n) M →
  transpose (transpose M) = M.
Proof.
  intros Hn HM. destruct M as [|r M]; [done|].
  assert (Hr : length r = n) by (by inversion HM).
  set (M' := r :: M) in *.
  rewrite (transpose_eq M' r eq_refl), Hr.
  set (T := map _ (seq 0 n)).
  assert (HT : head T = Some (map (λ row, nth 0 row 0) M'))
    by (unfold T; destruct n; [lia | done]).
  rewrite (transpose_eq T _ HT), length_map.
  apply (nth_ext _ _ [] []).
  { by rewrite length_map, length_seq. }
  intros i. rewrite length_map, length_seq. intros Hi.
  rewrite nth_map_seq by done.
  unfold T. rewrite map_map.
  assert (Hrow : length (nth i M' []) = n).
  { rewrite Forall_forall in HM. apply HM, list_elem_of_In, nth_In. done. }
  etransitivity; [|apply (map_nth_seq (nth i M' []) 0)]. rewrite Hrow.
  apply map_ext. intros j. by apply nth_col.
Qed.

(** ** Layers succeed on inputs of the constructed shapes *)

Lemma length_relu (x : list R) : length (F.relu x) = length x.
Proof. apply length_map. Qed.

Lemma linear_forward_Some (l : Linear.t) (i o : nat) (x : list R) :
  Linear.has_shape i o l → length x = i →
  Linear.forward l x
    = Some (zip_with Rplus (map (dot x) (Linear.weight l)) (Linear.bias l))
  ∧ length (zip_with Rplus (map (dot x) (Linear.weight l)) (Linear.bias l)) = o.
Proof.
  intros (Hw & Hrows & Hb) Hx. unfold Linear.forward, F.linear.
  rewrite decide_True.
  - split; [done|]. rewrite length_zip_with, length_map. lia.
  - split; [|lia]. eapply Forall_impl; [exact Hrows|]. simpl. lia.
Qed.

Lemma layernorm_forward_Some (n : LayerNorm.t) (k : nat) (x : list R) :
  LayerNorm.has_shape k n → length x = k →
  ∃ y, LayerNorm.forward n x = Some y ∧ length y = k.
Proof.
  intros (Hs & Hw & Hb) Hx. unfold LayerNorm.forward, F.layer_norm.
  rewrite decide_True by lia. eexists; split; [done|].
  rewrite !length_zip_with, length_map. lia.
Qed.

Lemma StateEncoder_forward_Some (e : StateEncoder.t) (h d : nat) (x : list R) :
  StateEncoder.has_shape h d e → length x = STATE_SIZE →
  ∃ y, StateEncoder.forward e x = Some y ∧ length y = d.
Proof.
  intros (H1 & H2 & H3 & H4) Hx. unfold StateEncoder.forward.
  destruct (linear_forward_Some _ _ _ x H1 Hx) as [-> L1]. cbn [mbind option_bind].
  destruct (layernorm_forward_Some _ _ _ H2 L1) as (y2 & -> & L2). cbn [mbind option_bind].
  rewrite <- length_relu in L2.
  destruct (linear_forward_Some _ _ _ _ H3 L2) as [-> L3]. cbn [mbind option_bind].
  destruct (layernorm_forward_Some _ _ _ H4 L3) as (y4 & -> & L4). cbn [mbind option_bind].
  eexists; split; [done|]. by rewrite length_relu.
Qed.

Lemma ActionEncoder_forward_Some (e : ActionEncoder.t) (h d : nat) (x : list R) :
  ActionEncoder.has_shape h d e → length x = ACTION_SIZE →
  ∃ y, ActionEncoder.forward e x = Some y ∧ length y = d.
Proof.
  intros (H1 & H2 & H3) Hx. unfold ActionEncoder.forward.
  destruct (linear_forward_Some _ _ _ x H1 Hx) as [-> L1]. cbn [mbind option_bind].
  destruct (layernorm_forward_Some _ _ _ H2 L1) as (y2 & -> & L2). cbn [mbind option_bind].
  rewrite <- length_relu in L2.
  destruct (linear_forward_Some _ _ _ _ H3 L2) as [-> L3]. cbn [mbind option_bind].
  eexists; split; done.
Qed.

Lemma length_1_inv {A} (l : list A) : length l = 1%nat → ∃ a, l = [a].
Proof. destruct l as [|a [|b l]]; intros [=]. by exists a. Qed.

Lemma ActionScorer_forward_Some (e : ActionScorer.t) (sd ad h : nat)
    (s a : list R) :
  ActionScorer.has_shape sd ad h e → length s = sd → length a = ad →
  ∃ y, ActionScorer.forward e s a = Some y.
Proof.
  intros (H1 & H2 & H3) Hs Ha. unfold ActionScorer.forward, torch.cat.
  assert (Hx : length (s ++ a) = (sd + ad)%nat) by (rewrite length_app; lia).
  destruct (linear_forward_Some _ _ _ _ H1 Hx) as [-> L1]. cbn [mbind option_bind].
  destruct (layernorm_forward_Some _ _ _ H2 L1) as (y2 & -> & L2). cbn [mbind option_bind].
  rewrite <- length_relu in L2.
  destruct (linear_forward_Some _ _ _ _ H3 L2) as [-> L3]. cbn [mbind option_bind].
  destruct (length_1_inv _ L3) as [y ->]. by exists y.
Qed.

Lemma ValueHead_forward_Some (e : ValueHead.t) (sd h : nat) (x : list R) :
  ValueHead.has_shape sd h e → length x = sd →
  ∃ z, ValueHead.forward e x = Some (torch.tanh z).
Proof.
  intros (H1 & H2) Hx. unfold ValueHead.forward.
  destruct (linear_forward_Some _ _ _ _ H1 Hx) as [-> L1]. cbn [mbind option_bind].
  rewrite <- length_relu in L1.
  destruct (linear_forward_Some _ _ _ _ H2 L1) as [-> L2]. cbn [mbind option_bind].
  destruct (length_1_inv _ L2) as [z ->]. by exists z.
Qed.

(** ** The forward pass, with the broadcast state folded away *)

Lemma mapM_zip_replicate {A B C} (f : A → B → option C) (a : A) (l : list B) :
  mapM (λ sa, f sa.1 sa.2) (zip (replicate (length l) a) l) = mapM (f a) l.
Proof.
  induction l as [|b l IH]; [done|]. cbn. by rewrite IH.
Qed.

Lemma forward_unfold (m : PolicyValueNetwork.t) (states : list R)
    (action_features : list (list R)) (action_mask : list bool) :
  PolicyValueNetwork.forward m states action_features action_mask =
    (state_embed ← StateEncoder.forward (PolicyValueNetwork.state_encoder m) states;
     value_state_embed ←
       StateEncoder.forward (PolicyValueNetwork.value_state_encoder m) states;
     flat_actions ← PolicyValueNetwork.reshape_actions action_features;
     action_embed ←
       mapM (ActionEncoder.forward (PolicyValueNetwork.action_encoder m)) flat_actions;
     flat_scores ←
       mapM (ActionScorer.forward (PolicyValueNetwork.action_scorer m) state_embed)
            action_embed;
     scores ← torch.masked_fill (map Fin flat_scores) (map negb action_mask) NInf;
     values ← ValueHead.forward (PolicyValueNetwork.value_head m) value_state_embed;
     Some (scores, values)).
Proof.
  unfold PolicyValueNetwork.forward.
  destruct (StateEncoder.forward _ states) as [se|]; [|done]. cbn [mbind option_bind].
  destruct (StateEncoder.forward _ states) as [vse|]; [|done]. cbn [mbind option_bind].
  unfold PolicyValueNetwork.reshape_actions. case_decide; [|done]. cbn [mbind option_bind].
  destruct (mapM _ action_features) as [ae|] eqn:E; [|done]. cbn [mbind option_bind].
  apply length_mapM in E. rewrite E, mapM_zip_replicate. done.
Qed.

Lemma mapM_Forall_Some {A B} (f : A → option B) (P : B → Prop) (l : list A) :
  Forall (λ a, ∃ y, f a = Some y ∧ P y) l →
  ∃ k, mapM f l = Some k ∧ Forall P k ∧ length k = length l.
Proof.
  induction 1 as [|a l (y & Hy & Py) _ (k & Hk & Pk & Lk)].
  - exists []. by repeat split.
  - exists (y :: k). cbn. rewrite Hy. cbn. rewrite Hk. cbn.
    repeat split; [by constructor | by rewrite Lk].
Qed.

Lemma masked_fill_mask_scores (raw : list R) (action_mask : list bool) :
  length action_mask = length raw →
  torch.masked_fill (map Fin raw) (map negb action_mask) NInf
    = Some (mask_scores raw action_mask).
Proof.
  intros H. unfold torch.masked_fill.
  rewrite decide_True by (by rewrite !length_map). done.
Qed.

(** On inputs of the documented shapes the forward pass returns: the scores
    are the masked raw scores, the value is a hyperbolic tangent. *)
Lemma forward_Some (m : PolicyValueNetwork.t) (states : list R)
    (action_features : list (list R)) (action_mask : list bool) :
  PolicyValueNetwork.has_shape m →
  length states = STATE_SIZE →
  Forall (λ a, length a = ACTION_SIZE) action_features →
  action_features ≠ [] →
  length action_mask = length action_features →
  ∃ raw z,
    PolicyValueNetwork.forward m states action_features action_mask
      = Some (mask_scores raw action_mask, torch.tanh z)
    ∧ length raw = length action_features.
Proof.
  intros (Hse & Hvse & Hae & Has & Hvh) Hs Ha Hne Hm.
  rewrite forward_unfold.
  destruct (StateEncoder_forward_Some _ _ _ _ Hse Hs) as (se & -> & Lse).
  destruct (StateEncoder_forward_Some _ _ _ _ Hvse Hs) as (vse & -> & Lvse).
  cbn [mbind option_bind].
  unfold PolicyValueNetwork.reshape_actions. rewrite decide_True by done.
  cbn [mbind option_bind].
  destruct (mapM_Forall_Some
              (ActionEncoder.forward (PolicyValueNetwork.action_encoder m))
              (λ y, length y = 64%nat) action_features) as (ae & -> & Pae & Lae).
  { eapply Forall_impl; [exact Ha|]. intros a La.
    by apply (ActionEncoder_forward_Some _ _ _ _ Hae). }
  cbn [mbind option_bind].
  destruct (mapM_Forall_Some
              (ActionScorer.forward (PolicyValueNetwork.action_scorer m) se)
              (λ _, True) ae) as (raw & -> & _ & Lraw).
  { eapply Forall_impl; [exact Pae|]. intros a La.
    destruct (ActionScorer_forward_Some _ _ _ _ se a Has Lse La) as [y Hy].
    by exists y. }
  cbn [mbind option_bind].
  rewrite masked_fill_mask_scores by lia. cbn [mbind option_bind].
  destruct (ValueHead_forward_Some _ _ _ _ Hvh Lvse) as (z & ->).
  cbn [mbind option_bind]. exists raw, z. split; [done | lia].
Qed.

(** ** Masked scores *)

Lemma mask_scores_cons (r : R) (raw : list R) (b : bool) (action_mask : list bool) :
  mask_scores (r :: raw) (b :: action_mask)
    = (if b then Fin r else NInf) :: mask_scores raw action_mask.
Proof. unfold mask_scores. by destruct b. Qed.

(** ** The concrete model has the constructed shapes *)

Lemma const_linear_has_shape (i o : nat) (c : R) :
  Linear.has_shape i o (const_linear i o c).
Proof.
  unfold Linear.has_shape, const_linear. cbn [Linear.weight Linear.bias].
  rewrite !length_replicate. repeat split.
  apply Forall_replicate. by rewrite length_replicate.
Qed.

Lemma unit_layernorm_has_shape (n : nat) : LayerNorm.has_shape n (unit_layernorm n).
Proof.
  unfold LayerNorm.has_shape, unit_layernorm.
  cbn [LayerNorm.normalized_shape LayerNorm.weight LayerNorm.bias].
  by rewrite !length_replicate.
Qed.

Lemma const_model_has_shape (c : R) : PolicyValueNetwork.has_shape (const_model c).
Proof.
  unfold PolicyValueNetwork.has_shape, const_model, const_state_encoder,
    StateEncoder.has_shape, ActionEncoder.has_shape, ActionScorer.has_shape,
    ValueHead.has_shape.
  cbn [PolicyValueNetwork.state_encoder PolicyValueNetwork.value_state_encoder
       PolicyValueNetwork.action_encoder PolicyValueNetwork.action_scorer
       PolicyValueNetwork.value_head
       StateEncoder.fc1 StateEncoder.ln1 StateEncoder.fc2 StateEncoder.ln2
       ActionEncoder.fc1 ActionEncoder.ln1 ActionEncoder.fc2
       ActionScorer.fc1 ActionScorer.ln1 ActionScorer.fc2
       ValueHead.fc1 ValueHead.fc2].
  repeat split;
    first [apply const_linear_has_shape | apply unit_layernorm_has_shape].
Qed.

Lemma sample_state_length : length sample_state = STATE_SIZE.
Proof. apply length_replicate. Qed.

Lemma sample_action_length (c : R) : length (sample_action c) = ACTION_SIZE.
Proof. apply length_replicate. Qed.

(** * The claims *)

(** ** A mask with no valid position *)

Lemma mask_scores_none_valid (raw : list R) (action_mask : list bool) :
  length raw = length action_mask →
  any_valid action_mask = false →
  mask_scores raw action_mask = replicate (length raw) NInf.
Proof.
  revert action_mask. induction raw as [|r raw IH]; intros [|b mask] [=]; [done|].
  rewrite mask_scores_cons. unfold any_valid in *. cbn [existsb].
  destruct b; [done|]. intros He. cbn. f_equal. by apply IH.
Qed.

Lemma softmax_all_NInf (n : nat) :
  F.softmax (replicate n NInf) = replicate n NaN.
Proof.
  destruct n as [|n]; [done|]. unfold F.softmax.
  assert (Hmax : torch.max (replicate (S n) NInf) = NInf).
  { unfold torch.max. induction n as [|n IH]; [done|].
    cbn [replicate foldr] in *. by rewrite IH. }
  rewrite Hmax.
  change (map ?f ?l) with (f <$> l). rewrite !fmap_replicate. cbn [torch.sub torch.exp].
  assert (Hsum : torch.sum (replicate (S n) NaN) = NaN) by done.
  rewrite Hsum. done.
Qed.

(** C10. With a mask that marks no position valid, the forward pass of a
    model of the constructed shapes still returns on a batch of at least one
    action: every score is negative infinity, and every entry of the policy
    [get_policy_and_value] returns is NaN, so the policy is not a list of
    probabilities. *)
Theorem all_masked_policy_is_nan (m : PolicyValueNetwork.t) (states : list R)
    (action_features : list (list R)) (action_mask : list bool) :
  PolicyValueNetwork.has_shape m →
  length states = STATE_SIZE →
  Forall (λ a, length a = ACTION_SIZE) action_features →
  action_features ≠ [] →
  length action_mask = length action_features →
  any_valid action_mask = false →
  ∃ v,
    PolicyValueNetwork.forward m states action_features action_mask
      = Some (replicate (length action_features) NInf, v)
    ∧ PolicyValueNetwork.get_policy_and_value m states action_features action_mask
      = Some (replicate (length action_features) NaN, v)
    ∧ ¬ ∃ ps, replicate (length action_features) NaN = map Fin ps.
Proof.
  intros Hm Hs Ha Hne HL He.
  destruct (forward_Some m states action_features action_mask Hm Hs Ha Hne HL)
    as (raw & z & Hf & Lraw).
  rewrite mask_scores_none_valid in Hf by (done || lia). rewrite Lraw in Hf.
  exists (torch.tanh z). split; [done|]. split.
  - unfold PolicyValueNetwork.get_policy_and_value. rewrite Hf. cbn.
    by rewrite softmax_all_NInf.
  - intros [ps Hps]. destruct action_features as [|a l]; [done|].
    destruct ps; discriminate.
Qed.

Lemma all_masked_policy_is_nan_witness :
  ∃ v,
    PolicyValueNetwork.forward (const_model 1) sample_state
      [sample_action 1; sample_action 2] [false; false]
      = Some ([NInf; NInf], v)
    ∧ PolicyValueNetwork.get_policy_and_value (const_model 1) sample_state
        [sample_action 1; sample_action 2] [false; false]
      = Some ([NaN; NaN], v)
    ∧ ¬ ∃ ps, [NaN; NaN] = map Fin ps.
Proof.
  apply (all_masked_policy_is_nan (const_model 1) sample_state
           [sample_action 1; sample_action 2] [false; false]).
  - apply const_model_has_shape.
  - apply sample_state_length.
  - repeat constructor; apply sample_action_length.
  - discriminate.
  - reflexivity.
  - reflexivity.
Defined.

(** A batch of zero actions is rejected: the reshape of the encoded actions
    cannot infer its last axis. *)
Lemma forward_no_actions (m : PolicyValueNetwork.t) (states : list R)
    (action_mask : list bool) :
  PolicyValueNetwork.forward m states [] action_mask = None.
Proof.
  rewrite forward_unfold.
  destruct (StateEncoder.forward (PolicyValueNetwork.state_encoder m) states);
    [|done].
  cbn [mbind option_bind].
  destruct (StateEncoder.forward (PolicyValueNetwork.value_state_encoder m) states);
    [|done].
  cbn [mbind option_bind].
  unfold PolicyValueNetwork.reshape_actions.
  rewrite decide_False; [done | intros [_ H]; by apply H].
Qed.

(** ** Each forward pass runs its layer sequence *)

Lemma StateEncoder_forward_layers (e : StateEncoder.t) (x : list R) :
  StateEncoder.forward e x = run_layers (StateEncoder_layers e) x.
Proof. reflexivity. Qed.

Lemma ActionEncoder_forward_layers (e : ActionEncoder.t) (x : list R) :
  ActionEncoder.forward e x = run_layers (ActionEncoder_layers e) x.
Proof. reflexivity. Qed.

Lemma ActionScorer_forward_layers (e : ActionScorer.t) (s a : list R) :
  ActionScorer.forward e s a
    = run_layers (ActionScorer_layers e) (torch.cat s a) ≫= torch.squeeze.
Proof.
  unfold ActionScorer.forward, ActionScorer_layers. cbn [run_layers run_layer].
  destruct (Linear.forward (ActionScorer.fc1 e) _) as [y1|]; [|done].
  cbn [mbind option_bind].
  destruct (LayerNorm.forward (ActionScorer.ln1 e) y1) as [y2|]; [|done].
  cbn [mbind option_bind].
  by destruct (Linear.forward (ActionScorer.fc2 e) _).
Qed.

Lemma ValueHead_forward_layers (e : ValueHead.t) (x : list R) :
  ValueHead.forward e x = run_layers (ValueHead_layers e) x ≫= torch.squeeze.
Proof.
  unfold ValueHead.forward, ValueHead_layers. cbn [run_layers run_layer].
  destruct (Linear.forward (ValueHead.fc1 e) x) as [y1|]; [|done].
  cbn [mbind option_bind].
  by destruct (Linear.forward (ValueHead.fc2 e) _).
Qed.

(** ** The stored kernel computes the affine layer *)

Lemma affine_transpose (l : Linear.t) (i o : nat) (x : list R) :
  Linear.has_shape i o l → (0 < i)%nat → (0 < o)%nat →
  affine x (transpose (Linear.weight l)) (Linear.bias l) = Linear.forward l x.
Proof.
  intros (Hw & Hrows & Hb) Hi Ho. unfold affine, Linear.forward, F.linear.
  rewrite (transpose_involutive _ i Hi Hrows).
  destruct (Linear.weight l) as [|r W] eqn:EW; [cbn in Hw; lia|].
  assert (Hr : length r = i) by (by inversion Hrows).
  rewrite (length_transpose (r :: W) r eq_refl), Hr.
  destruct (decide (i = length x)) as [->|Hne].
  - rewrite !decide_True; [done | split; [done | lia] | split; [done | lia]].
  - rewrite !decide_False; [done | |]; intros [H1 H2]; [|done].
    inversion H1; subst. lia.
Qed.

Lemma apply_op_linear (w : gmap string jvalue) (k : string) (l : Linear.t)
    (i o : nat) (x : list R) :
  w !! k = Some (JLinear (transpose (Linear.weight l)) (Linear.bias l)) →
  Linear.has_shape i o l → (0 < i)%nat → (0 < o)%nat →
  apply_op w (op_linear k) x = run_layer (LAffine l) x.
Proof.
  intros Hk Hl Hi Ho. unfold apply_op, op_linear. cbn [op key String.eqb Ascii.eqb Bool.eqb].
  cbn [mbind option_bind]. rewrite Hk. by apply (affine_transpose l i o).
Qed.

Lemma apply_op_layernorm (w : gmap string jvalue) (k : string) (n : LayerNorm.t)
    (s : nat) (x : list R) :
  w !! k = Some (JLayerNorm (LayerNorm.weight n) (LayerNorm.bias n)) →
  LayerNorm.has_shape s n →
  apply_op w (op_layernorm k) x = run_layer (LNorm n) x.
Proof.
  intros Hk (Hs & Hw & Hb). unfold apply_op, op_layernorm.
  cbn [op key String.eqb Ascii.eqb Bool.eqb]. cbn [mbind option_bind].
  rewrite Hk. cbn [run_layer]. unfold LayerNorm.forward. by rewrite Hw, Hs.
Qed.

(** ** The manifests stored in an exported archive *)

Lemma manifest_of_state_encoder (m : PolicyValueNetwork.t) :
  manifest_of (export_weights m) "state_encoder"
    = Some [ op_linear "state_encoder_fc1"; op_layernorm "state_encoder_ln1";
             op_relu; op_linear "state_encoder_fc2";
             op_layernorm "state_encoder_ln2"; op_relu ].
Proof. vm_compute. reflexivity. Qed.

Lemma manifest_of_value_state_encoder (m : PolicyValueNetwork.t) :
  manifest_of (export_weights m) "value_state_encoder"
    = Some [ op_linear "value_state_encoder_fc1";
             op_layernorm "value_state_encoder_ln1"; op_relu;
             op_linear "value_state_encoder_fc2";
             op_layernorm "value_state_encoder_ln2"; op_relu ].
Proof. vm_compute. reflexivity. Qed.

Lemma manifest_of_action_encoder (m : PolicyValueNetwork.t) :
  manifest_of (export_weights m) "action_encoder"
    = Some [ op_linear "action_encoder_fc1"; op_layernorm "action_encoder_ln1";
             op_relu; op_linear "action_encoder_fc2" ].
Proof. vm_compute. reflexivity. Qed.

Lemma manifest_of_action_scorer (m : PolicyValueNetwork.t) :
  manifest_of (export_weights m) "action_scorer"
    = Some [ op_linear "action_scorer_fc1"; op_layernorm "action_scorer_ln1";
             op_relu; op_linear "action_scorer_fc2" ].
Proof. vm_compute. reflexivity. Qed.

Lemma manifest_of_value_head (m : PolicyValueNetwork.t) :
  manifest_of (export_weights m) "value_head"
    = Some [ op_linear "value_head_fc1"; op_relu;
             op_linear "value_head_fc2"; op_tanh ].
Proof. vm_compute. reflexivity. Qed.

(** One step of the replay: the operation at the head of the manifest is
    the layer at the head of the layer sequence. *)
Ltac replay_linear H :=
  match type of H with
  | Linear.has_shape ?i ?o ?l =>
      match goal with
      | |- context [apply_op ?w (op_linear ?k) ?x] =>
          rewrite (apply_op_linear w k l i o x eq_refl H) by lia
      end
  end.

Ltac replay_layernorm H :=
  match type of H with
  | LayerNorm.has_shape ?s ?n =>
      match goal with
      | |- context [apply_op ?w (op_layernorm ?k) ?x] =>
          rewrite (apply_op_layernorm w k n s x eq_refl H)
      end
  end.

(** C3. For a model of the constructed shapes, replaying the manifest of
    the exported archive, operation by operation, over the exported
    parameters computes each of the five sub-networks' forward methods (the
    scorer on the concatenated embeddings, scorer and value head up to the
    final squeeze); in every manifest a rectifier follows every
    normalization operation, and the value head's manifest ends with the
    saturating operation and holds no normalization. *)
Theorem manifest_replay_is_forward (m : PolicyValueNetwork.t) :
  PolicyValueNetwork.has_shape m →
  (∀ x, run_archive (export_weights m) "state_encoder" x
        = StateEncoder.forward (PolicyValueNetwork.state_encoder m) x)
  ∧ (∀ x, run_archive (export_weights m) "value_state_encoder" x
          = StateEncoder.forward (PolicyValueNetwork.value_state_encoder m) x)
  ∧ (∀ x, run_archive (export_weights m) "action_encoder" x
          = ActionEncoder.forward (PolicyValueNetwork.action_encoder m) x)
  ∧ (∀ s a, run_archive (export_weights m) "action_scorer" (torch.cat s a)
              ≫= torch.squeeze
            = ActionScorer.forward (PolicyValueNetwork.action_scorer m) s a)
  ∧ (∀ x, run_archive (export_weights m) "value_head" x ≫= torch.squeeze
          = ValueHead.forward (PolicyValueNetwork.value_head m) x)
  ∧ Forall (λ name, ∃ ops, manifest_of (export_weights m) name = Some ops
                           ∧ relu_after_layernorm ops = true) SUBNETWORKS
  ∧ (∃ ops, manifest_of (export_weights m) "value_head" = Some ops
            ∧ last ops = Some op_tanh
            ∧ no_layernorm ops = true).
Proof.
  intros ((S1 & S2 & S3 & S4) & (V1 & V2 & V3 & V4) & (A1 & A2 & A3)
          & (C1 & C2 & C3) & (H1 & H2)).
  assert (Hstate : (0 < STATE_SIZE)%nat) by (unfold STATE_SIZE; lia).
  assert (Haction : (0 < ACTION_SIZE)%nat) by (unfold ACTION_SIZE; lia).
  repeat apply conj.
  - intros x. rewrite StateEncoder_forward_layers. unfold run_archive.
    rewrite manifest_of_state_encoder.
    cbn [mbind option_bind run_ops StateEncoder_layers run_layers].
    replay_linear S1.
    destruct (run_layer _ x) as [x1|]; [|done]. cbn [mbind option_bind].
    replay_layernorm S2.
    destruct (run_layer _ x1) as [x2|]; [|done]. cbn [mbind option_bind].
    change (apply_op _ op_relu x2) with (Some (F.relu x2)).
    change (run_layer LRelu x2) with (Some (F.relu x2)).
    cbn [mbind option_bind].
    replay_linear S3.
    destruct (run_layer _ (F.relu x2)) as [x3|]; [|done]. cbn [mbind option_bind].
    replay_layernorm S4.
    by destruct (run_layer _ x3).
  - intros x. rewrite StateEncoder_forward_layers. unfold run_archive.
    rewrite manifest_of_value_state_encoder.
    cbn [mbind option_bind run_ops StateEncoder_layers run_layers].
    replay_linear V1.
    destruct (run_layer _ x) as [x1|]; [|done]. cbn [mbind option_bind].
    replay_layernorm V2.
    destruct (run_layer _ x1) as [x2|]; [|done]. cbn [mbind option_bind].
    change (apply_op _ op_relu x2) with (Some (F.relu x2)).
    change (run_layer LRelu x2) with (Some (F.relu x2)).
    cbn [mbind option_bind].
    replay_linear V3.
    destruct (run_layer _ (F.relu x2)) as [x3|]; [|done]. cbn [mbind option_bind].
    replay_layernorm V4.
    by destruct (run_layer _ x3).
  - intros x. rewrite ActionEncoder_forward_layers. unfold run_archive.
    rewrite manifest_of_action_encoder.
    cbn [mbind option_bind run_ops ActionEncoder_layers run_layers].
    replay_linear A1.
    destruct (run_layer _ x) as [x1|]; [|done]. cbn [mbind option_bind].
    replay_layernorm A2.
    destruct (run_layer _ x1) as [x2|]; [|done]. cbn [mbind option_bind].
    change (apply_op _ op_relu x2) with (Some (F.relu x2)).
    change (run_layer LRelu x2) with (Some (F.relu x2)).
    cbn [mbind option_bind].
    by replay_linear A3.
  - intros s a. rewrite ActionScorer_forward_layers. f_equal. unfold run_archive.
    rewrite manifest_of_action_scorer.
    cbn [mbind option_bind run_ops ActionScorer_layers run_layers].
    replay_linear C1.
    destruct (run_layer _ (torch.cat s a)) as [x1|]; [|done]. cbn [mbind option_bind].
    replay_layernorm C2.
    destruct (run_layer _ x1) as [x2|]; [|done]. cbn [mbind option_bind].
    change (apply_op _ op_relu x2) with (Some (F.relu x2)).
    change (run_layer LRelu x2) with (Some (F.relu x2)).
    cbn [mbind option_bind].
    by replay_linear C3.
  - intros x. rewrite ValueHead_forward_layers. f_equal. unfold run_archive.
    rewrite manifest_of_value_head.
    cbn [mbind option_bind run_ops ValueHead_layers run_layers].
    replay_linear H1.
    destruct (run_layer _ x) as [x1|]; [|done]. cbn [mbind option_bind].
    change (apply_op _ op_relu x1) with (Some (F.relu x1)).
    change (run_layer LRelu x1) with (Some (F.relu x1)).
    cbn [mbind option_bind].
    replay_linear H2.
    by destruct (run_layer _ (F.relu x1)).
  - unfold SUBNETWORKS.
    constructor;
      [eexists; split; [apply manifest_of_state_encoder | reflexivity]|].
    constructor;
      [eexists; split; [apply manifest_of_value_state_encoder | reflexivity]|].
    constructor;
      [eexists; split; [apply manifest_of_action_encoder | reflexivity]|].
    constructor;
      [eexists; split; [apply manifest_of_action_scorer | reflexivity]|].
    constructor;
      [eexists; split; [apply manifest_of_value_head | reflexivity]|].
    constructor.
  - eexists. split; [apply manifest_of_value_head|]. split; reflexivity.
Qed.

Lemma manifest_replay_is_forward_witness :
  run_archive (export_weights (const_model 1)) "state_encoder" sample_state
    = StateEncoder.forward (PolicyValueNetwork.state_encoder (const_model 1))
        sample_state
  ∧ run_archive (export_weights (const_model 1)) "value_head"
        (replicate 256 1) ≫= torch.squeeze
    = ValueHead.forward (PolicyValueNetwork.value_head (const_model 1))
        (replicate 256 1).
Proof.
  pose proof (manifest_replay_is_forward (const_model 1)
                (const_model_has_shape 1)) as (H1 & _ & _ & _ & H5 & _).
  split; [exact (H1 sample_state) | exact (H5 (replicate 256 1))].
Defined.

(** ** Placement of normalization in the encoders *)

(** C5, as stated, fails: the last affine layer of a state encoder, [fc2],
    is followed by the normalization [ln2] and a rectifier. *)
Lemma state_encoder_last_affine_is_normalized :
  ¬ encoders_norm_relu_except_last (const_model 0).
Proof. intros [H _]. lazy in H. discriminate. Qed.

(** C5, amended. In both state encoders every affine layer, the last
    included, is followed by a normalization and a rectifier; in the action
    encoder every affine layer but the last is, and the last affine layer is
    followed by no normalization.  The layer sequences are those the forward
    methods run. *)
Theorem encoder_layer_placement (m : PolicyValueNetwork.t) :
  (∀ x, StateEncoder.forward (PolicyValueNetwork.state_encoder m) x
        = run_layers (StateEncoder_layers (PolicyValueNetwork.state_encoder m)) x)
  ∧ (∀ x, StateEncoder.forward (PolicyValueNetwork.value_state_encoder m) x
          = run_layers
              (StateEncoder_layers (PolicyValueNetwork.value_state_encoder m)) x)
  ∧ (∀ x, ActionEncoder.forward (PolicyValueNetwork.action_encoder m) x
          = run_layers (ActionEncoder_layers (PolicyValueNetwork.action_encoder m)) x)
  ∧ norm_relu_after_all
      (map kind_of (StateEncoder_layers (PolicyValueNetwork.state_encoder m))) = true
  ∧ norm_relu_after_all
      (map kind_of (StateEncoder_layers (PolicyValueNetwork.value_state_encoder m))) = true
  ∧ norm_relu_except_last
      (map kind_of (ActionEncoder_layers (PolicyValueNetwork.action_encoder m))) = true.
Proof.
  split; [intros x; apply StateEncoder_forward_layers|].
  split; [intros x; apply StateEncoder_forward_layers|].
  split; [intros x; apply ActionEncoder_forward_layers|].
  split; [reflexivity|]. split; reflexivity.
Qed.

(** ** Running a load *)

Lemma load_linear_missing (w : gmap string jvalue)
    (module : (Linear.t → Linear.t) → PolicyValueNetwork.t → PolicyValueNetwork.t)
    (name : string) (s : PolicyValueNetwork.t * list string) :
  w !! name = None → load_linear w module name s = (inl (KeyError name), s).
Proof.
  intros Hk. unfold load_linear, get_kernel, mbind, Load_bind. by rewrite Hk.
Qed.

Lemma load_layernorm_missing (w : gmap string jvalue)
    (module : (LayerNorm.t → LayerNorm.t) → PolicyValueNetwork.t → PolicyValueNetwork.t)
    (name : string) (s : PolicyValueNetwork.t * list string) :
  w !! name = None → load_layernorm w module name s = (inl (KeyError name), s).
Proof.
  intros Hk. unfold load_layernorm, get_gamma, mbind, Load_bind. by rewrite Hk.
Qed.

Lemma bind_fail {A B} (c : Load A) (f : A → Load B)
    (s s' : PolicyValueNetwork.t * list string) (e : exn) :
  c s = (inl e, s') → (c ≫= f) s = (inl e, s').
Proof. intros H. unfold mbind, Load_bind. by rewrite H. Qed.

(** A load of an archive that holds every mandatory entry, and the optional
    sub-network either whole or without its first key, succeeds. *)
Lemma load_weights_success (model : PolicyValueNetwork.t) (path : string)
    (w : gmap string jvalue) :
  Forall (loadable_linear w) MANDATORY_LINEAR →
  Forall (loadable_layernorm w) MANDATORY_LAYERNORM →
  w !! "value_state_encoder_fc1" = None
  ∨ (Forall (loadable_linear w) OPTIONAL_LINEAR
     ∧ Forall (loadable_layernorm w) OPTIONAL_LAYERNORM) →
  load_weights model path w
    = (inr (), (loaded_model w model, loaded_output w path)).
Proof.
  unfold MANDATORY_LINEAR, MANDATORY_LAYERNORM, OPTIONAL_LINEAR, OPTIONAL_LAYERNORM.
  intros HL HN HO.
  assert (HO' : w !! "value_state_encoder_fc1" = None
                ∨ (loadable_linear w "value_state_encoder_fc1"
                   ∧ loadable_linear w "value_state_encoder_fc2"
                   ∧ loadable_layernorm w "value_state_encoder_ln1"
                   ∧ loadable_layernorm w "value_state_encoder_ln2")).
  { destruct HO as [HO|[H1 H2]]; [by left | right].
    repeat match goal with
           | H : Forall _ (_ :: _) |- _ => apply Forall_cons_1 in H; destruct H
           end. done. }
  clear HO.
  repeat match goal with
         | H : Forall _ (_ :: _) |- _ => apply Forall_cons_1 in H; destruct H
         | H : Forall _ [] |- _ => clear H
         end.
  unfold load_weights, load_weights_body, loaded_model, loaded_output,
    stored_state_encoder, stored_linear, stored_layernorm,
    load_linear, load_layernorm, get_kernel, get_bias, get_gamma, get_beta,
    np_array, mbind, Load_bind, mret, Load_ret, modify, print, FALLBACK_NOTE.
  repeat match goal with |- context [?a +:+ ?b] => let s := eval vm_compute in (a +:+ b) in change (a +:+ b) with s end.
  destruct HO' as [HO|(O1 & O2 & O3 & O4)].
  - rewrite HO.
    repeat match goal with
           | H : loadable_linear _ _ |- _ =>
               let E := fresh "E" in let R := fresh "R" in
               destruct H as (? & ? & E & R); rewrite ?E; cbn [fst snd]; rewrite ?R
           | H : loadable_layernorm _ _ |- _ =>
               let E := fresh "E" in
               destruct H as (? & ? & E); rewrite ?E; cbn [fst snd]
           end.
    reflexivity.
  - repeat match goal with
           | H : loadable_linear _ _ |- _ =>
               let E := fresh "E" in let R := fresh "R" in
               destruct H as (? & ? & E & R); rewrite ?E; cbn [fst snd]; rewrite ?R
           | H : loadable_layernorm _ _ |- _ =>
               let E := fresh "E" in
               destruct H as (? & ? & E); rewrite ?E; cbn [fst snd]
           end.
    reflexivity.
Qed.

(** ** The exported archive, key by key *)

Lemma export_state_encoder_fc1 (m : PolicyValueNetwork.t) :
  export_weights m !! "state_encoder_fc1"
    = Some (JLinear (transpose (Linear.weight (StateEncoder.fc1 (PolicyValueNetwork.state_encoder m))))
                    (Linear.bias (StateEncoder.fc1 (PolicyValueNetwork.state_encoder m)))).
Proof. reflexivity. Qed.

Lemma export_state_encoder_ln1 (m : PolicyValueNetwork.t) :
  export_weights m !! "state_encoder_ln1"
    = Some (JLayerNorm (LayerNorm.weight (StateEncoder.ln1 (PolicyValueNetwork.state_encoder m)))
                       (LayerNorm.bias (StateEncoder.ln1 (PolicyValueNetwork.state_encoder m)))).
Proof. reflexivity. Qed.

Lemma export_state_encoder_fc2 (m : PolicyValueNetwork.t) :
  export_weights m !! "state_encoder_fc2"
    = Some (JLinear (transpose (Linear.weight (StateEncoder.fc2 (PolicyValueNetwork.state_encoder m))))
                    (Linear.bias (StateEncoder.fc2 (PolicyValueNetwork.state_encoder m)))).
Proof. reflexivity. Qed.

Lemma export_state_encoder_ln2 (m : PolicyValueNetwork.t) :
  export_weights m !! "state_encoder_ln2"
    = Some (JLayerNorm (LayerNorm.weight (StateEncoder.ln2 (PolicyValueNetwork.state_encoder m)))
                       (LayerNorm.bias (StateEncoder.ln2 (PolicyValueNetwork.state_encoder m)))).
Proof. reflexivity. Qed.

Lemma export_value_state_encoder_fc1 (m : PolicyValueNetwork.t) :
  export_weights m !! "value_state_encoder_fc1"
    = Some (JLinear (transpose (Linear.weight (StateEncoder.fc1 (PolicyValueNetwork.value_state_encoder m))))
                    (Linear.bias (StateEncoder.fc1 (PolicyValueNetwork.value_state_encoder m)))).
Proof. reflexivity. Qed.

Lemma export_value_state_encoder_ln1 (m : PolicyValueNetwork.t) :
  export_weights m !! "value_state_encoder_ln1"
    = Some (JLayerNorm (LayerNorm.weight (StateEncoder.ln1 (PolicyValueNetwork.value_state_encoder m)))
                       (LayerNorm.bias (StateEncoder.ln1 (PolicyValueNetwork.value_state_encoder m)))).
Proof. reflexivity. Qed.

Lemma export_value_state_encoder_fc2 (m : PolicyValueNetwork.t) :
  export_weights m !! "value_state_encoder_fc2"
    = Some (JLinear (transpose (Linear.weight (StateEncoder.fc2 (PolicyValueNetwork.value_state_encoder m))))
                    (Linear.bias (StateEncoder.fc2 (PolicyValueNetwork.value_state_encoder m)))).
Proof. reflexivity. Qed.

Lemma export_value_state_encoder_ln2 (m : PolicyValueNetwork.t) :
  export_weights m !! "value_state_encoder_ln2"
    = Some (JLayerNorm (LayerNorm.weight (StateEncoder.ln2 (PolicyValueNetwork.value_state_encoder m)))
                       (LayerNorm.bias (StateEncoder.ln2 (PolicyValueNetwork.value_state_encoder m)))).
Proof. reflexivity. Qed.

Lemma export_action_encoder_fc1 (m : PolicyValueNetwork.t) :
  export_weights m !! "action_encoder_fc1"
    = Some (JLinear (transpose (Linear.weight (ActionEncoder.fc1 (PolicyValueNetwork.action_encoder m))))
                    (Linear.bias (ActionEncoder.fc1 (PolicyValueNetwork.action_encoder m)))).
Proof. reflexivity. Qed.

Lemma export_action_encoder_ln1 (m : PolicyValueNetwork.t) :
  export_weights m !! "action_encoder_ln1"
    = Some (JLayerNorm (LayerNorm.weight (ActionEncoder.ln1 (PolicyValueNetwork.action_encoder m)))
                       (LayerNorm.bias (ActionEncoder.ln1 (PolicyValueNetwork.action_encoder m)))).
Proof. reflexivity. Qed.

Lemma export_action_encoder_fc2 (m : PolicyValueNetwork.t) :
  export_weights m !! "action_encoder_fc2"
    = Some (JLinear (transpose (Linear.weight (ActionEncoder.fc2 (PolicyValueNetwork.action_encoder m))))
                    (Linear.bias (ActionEncoder.fc2 (PolicyValueNetwork.action_encoder m)))).
Proof. reflexivity. Qed.

Lemma export_action_scorer_fc1 (m : PolicyValueNetwork.t) :
  export_weights m !! "action_scorer_fc1"
    = Some (JLinear (transpose (Linear.weight (ActionScorer.fc1 (PolicyValueNetwork.action_scorer m))))
                    (Linear.bias (ActionScorer.fc1 (PolicyValueNetwork.action_scorer m)))).
Proof. reflexivity. Qed.

Lemma export_action_scorer_ln1 (m : PolicyValueNetwork.t) :
  export_weights m !! "action_scorer_ln1"
    = Some (JLayerNorm (LayerNorm.weight (ActionScorer.ln1 (PolicyValueNetwork.action_scorer m)))
                       (LayerNorm.bias (ActionScorer.ln1 (PolicyValueNetwork.action_scorer m)))).
Proof. reflexivity. Qed.

Lemma export_action_scorer_fc2 (m : PolicyValueNetwork.t) :
  export_weights m !! "action_scorer_fc2"
    = Some (JLinear (transpose (Linear.weight (ActionScorer.fc2 (PolicyValueNetwork.action_scorer m))))
                    (Linear.bias (ActionScorer.fc2 (PolicyValueNetwork.action_scorer m)))).
Proof. reflexivity. Qed.

Lemma export_value_head_fc1 (m : PolicyValueNetwork.t) :
  export_weights m !! "value_head_fc1"
    = Some (JLinear (transpose (Linear.weight (ValueHead.fc1 (PolicyValueNetwork.value_head m))))
                    (Linear.bias (ValueHead.fc1 (PolicyValueNetwork.value_head m)))).
Proof. reflexivity. Qed.

Lemma export_value_head_fc2 (m : PolicyValueNetwork.t) :
  export_weights m !! "value_head_fc2"
    = Some (JLinear (transpose (Linear.weight (ValueHead.fc2 (PolicyValueNetwork.value_head m))))
                    (Linear.bias (ValueHead.fc2 (PolicyValueNetwork.value_head m)))).
Proof. reflexivity. Qed.

Ltac rewrite_export :=
  rewrite ?export_state_encoder_fc1,
    ?export_state_encoder_ln1,
    ?export_state_encoder_fc2,
    ?export_state_encoder_ln2,
    ?export_value_state_encoder_fc1,
    ?export_value_state_encoder_ln1,
    ?export_value_state_encoder_fc2,
    ?export_value_state_encoder_ln2,
    ?export_action_encoder_fc1,
    ?export_action_encoder_ln1,
    ?export_action_encoder_fc2,
    ?export_action_scorer_fc1,
    ?export_action_scorer_ln1,
    ?export_action_scorer_fc2,
    ?export_value_head_fc1,
    ?export_value_head_fc2.

Lemma export_loadable (m : PolicyValueNetwork.t) :
  Forall (loadable_linear (export_weights m)) MANDATORY_LINEAR
  ∧ Forall (loadable_layernorm (export_weights m)) MANDATORY_LAYERNORM
  ∧ Forall (loadable_linear (export_weights m)) OPTIONAL_LINEAR
  ∧ Forall (loadable_layernorm (export_weights m)) OPTIONAL_LAYERNORM.
Proof.
  unfold MANDATORY_LINEAR, MANDATORY_LAYERNORM, OPTIONAL_LINEAR, OPTIONAL_LAYERNORM.
  repeat apply conj;
    repeat (apply List.Forall_cons || apply List.Forall_nil);
    first [ eexists _, _; split; [reflexivity | apply rectangular_transpose]
          | eexists _, _; reflexivity ].
Qed.

(** Records are determined by their fields. *)

Lemma Linear_eta (l : Linear.t) : Linear.mk (Linear.weight l) (Linear.bias l) = l.
Proof. by destruct l. Qed.

Lemma LayerNorm_eta (n : nat) (l : LayerNorm.t) :
  LayerNorm.has_shape n l →
  LayerNorm.mk n (LayerNorm.weight l) (LayerNorm.bias l) = l.
Proof. destruct l. intros [H _]. cbn in H. by subst. Qed.

Lemma StateEncoder_eta (e : StateEncoder.t) :
  StateEncoder.mk (StateEncoder.fc1 e) (StateEncoder.ln1 e)
                  (StateEncoder.fc2 e) (StateEncoder.ln2 e) = e.
Proof. by destruct e. Qed.

Lemma ActionEncoder_eta (e : ActionEncoder.t) :
  ActionEncoder.mk (ActionEncoder.fc1 e) (ActionEncoder.ln1 e)
                   (ActionEncoder.fc2 e) = e.
Proof. by destruct e. Qed.

Lemma ActionScorer_eta (e : ActionScorer.t) :
  ActionScorer.mk (ActionScorer.fc1 e) (ActionScorer.ln1 e)
                  (ActionScorer.fc2 e) = e.
Proof. by destruct e. Qed.

Lemma ValueHead_eta (e : ValueHead.t) :
  ValueHead.mk (ValueHead.fc1 e) (ValueHead.fc2 e) = e.
Proof. by destruct e. Qed.

Lemma PolicyValueNetwork_eta (m : PolicyValueNetwork.t) :
  PolicyValueNetwork.mk
    (PolicyValueNetwork.state_encoder m) (PolicyValueNetwork.value_state_encoder m)
    (PolicyValueNetwork.action_encoder m) (PolicyValueNetwork.action_scorer m)
    (PolicyValueNetwork.value_head m) = m.
Proof. by destruct m. Qed.

(** Loading an export into a model of the same construction restores every
    parameter. *)
Lemma loaded_model_export (m fresh : PolicyValueNetwork.t) :
  PolicyValueNetwork.has_shape m → PolicyValueNetwork.has_shape fresh →
  loaded_model (export_weights m) fresh = m.
Proof.
  intros ((S1 & S2 & S3 & S4) & (V1 & V2 & V3 & V4) & (A1 & A2 & A3)
          & (C1 & C2 & C3) & (H1 & H2))
         ((S1' & S2' & S3' & S4') & (V1' & V2' & V3' & V4') & (A1' & A2' & A3')
          & (C1' & C2' & C3') & (H1' & H2')).
  assert (Hstate : (0 < STATE_SIZE)%nat) by (unfold STATE_SIZE; lia).
  assert (Haction : (0 < ACTION_SIZE)%nat) by (unfold ACTION_SIZE; lia).
  unfold loaded_model, stored_state_encoder, stored_linear, stored_layernorm.
  repeat match goal with
         | |- context [?a +:+ ?b] =>
             let s := eval vm_compute in (a +:+ b) in change (a +:+ b) with s
         end.
  rewrite_export.
  rewrite (proj1 S2'), (proj1 S4'), (proj1 V2'), (proj1 V4'), (proj1 A2'),
    (proj1 C2').
  rewrite (transpose_involutive _ _ Hstate (proj1 (proj2 S1))),
    (transpose_involutive _ _ Hstate (proj1 (proj2 V1))),
    (transpose_involutive _ _ Haction (proj1 (proj2 A1))).
  rewrite (transpose_involutive _ 512 ltac:(lia) (proj1 (proj2 S3))),
    (transpose_involutive _ 512 ltac:(lia) (proj1 (proj2 V3))),
    (transpose_involutive _ 128 ltac:(lia) (proj1 (proj2 A3))),
    (transpose_involutive _ (256 + 64) ltac:(lia) (proj1 (proj2 C1))),
    (transpose_involutive _ 128 ltac:(lia) (proj1 (proj2 C3))),
    (transpose_involutive _ 256 ltac:(lia) (proj1 (proj2 H1))),
    (transpose_involutive _ 128 ltac:(lia) (proj1 (proj2 H2))).
  rewrite !Linear_eta.
  rewrite (LayerNorm_eta _ _ S2), (LayerNorm_eta _ _ S4), (LayerNorm_eta _ _ V2),
    (LayerNorm_eta _ _ V4), (LayerNorm_eta _ _ A2), (LayerNorm_eta _ _ C2).
  rewrite !StateEncoder_eta, ActionEncoder_eta, ActionScorer_eta, ValueHead_eta.
  apply PolicyValueNetwork_eta.
Qed.

Lemma load_export (m fresh : PolicyValueNetwork.t) (path : string) :
  PolicyValueNetwork.has_shape m → PolicyValueNetwork.has_shape fresh →
  load_weights fresh path (export_weights m)
    = (inr (), (m, ["Loaded weights from " +:+ path])).
Proof.
  intros Hm Hf. destruct (export_loadable m) as (L1 & L2 & L3 & L4).
  rewrite (load_weights_success fresh path (export_weights m) L1 L2)
    by (right; done).
  rewrite (loaded_model_export m fresh Hm Hf).
  unfold loaded_output. by rewrite export_value_state_encoder_fc1.
Qed.

Lemma keyed_linears_eq (m : PolicyValueNetwork.t) :
  keyed_linears m =
    [ ("state_encoder_fc1", StateEncoder.fc1 (PolicyValueNetwork.state_encoder m));
      ("state_encoder_fc2", StateEncoder.fc2 (PolicyValueNetwork.state_encoder m));
      ("value_state_encoder_fc1",
        StateEncoder.fc1 (PolicyValueNetwork.value_state_encoder m));
      ("value_state_encoder_fc2",
        StateEncoder.fc2 (PolicyValueNetwork.value_state_encoder m));
      ("action_encoder_fc1", ActionEncoder.fc1 (PolicyValueNetwork.action_encoder m));
      ("action_encoder_fc2", ActionEncoder.fc2 (PolicyValueNetwork.action_encoder m));
      ("action_scorer_fc1", ActionScorer.fc1 (PolicyValueNetwork.action_scorer m));
      ("action_scorer_fc2", ActionScorer.fc2 (PolicyValueNetwork.action_scorer m));
      ("value_head_fc1", ValueHead.fc1 (PolicyValueNetwork.value_head m));
      ("value_head_fc2", ValueHead.fc2 (PolicyValueNetwork.value_head m)) ].
Proof. reflexivity. Qed.

(** ** The loader and the metadata *)

Lemma load_linear_insert_ne (w : gmap string jvalue) (k : string) (v : jvalue)
    (module : (Linear.t → Linear.t) → PolicyValueNetwork.t → PolicyValueNetwork.t)
    (name : string) :
  k ≠ name → load_linear (<[k := v]> w) module name = load_linear w module name.
Proof.
  intros Hne. unfold load_linear, get_kernel, get_bias.
  by rewrite !lookup_insert_ne.
Qed.

Lemma load_layernorm_insert_ne (w : gmap string jvalue) (k : string) (v : jvalue)
    (module : (LayerNorm.t → LayerNorm.t) → PolicyValueNetwork.t → PolicyValueNetwork.t)
    (name : string) :
  k ≠ name →
  load_layernorm (<[k := v]> w) module name = load_layernorm w module name.
Proof.
  intros Hne. unfold load_layernorm, get_gamma, get_beta.
  by rewrite !lookup_insert_ne.
Qed.

Lemma load_weights_ignores_meta_aux (model : PolicyValueNetwork.t) (path : string)
    (w : gmap string jvalue) (meta : jvalue) :
  load_weights model path (<["_meta" := meta]> w) = load_weights model path w.
Proof.
  unfold load_weights, load_weights_body.
  rewrite !load_linear_insert_ne, !load_layernorm_insert_ne by done.
  by rewrite lookup_insert_ne.
Qed.

(** C4, amended. The loader never reads the metadata: replacing the [_meta]
    entry of an archive, its version included, changes nothing of what
    [load_weights] does (the exception or success, the model it leaves, the
    lines it prints). *)
Theorem load_weights_ignores_meta (model : PolicyValueNetwork.t) (path : string)
    (w : gmap string jvalue) (meta : jvalue) :
  load_weights model path (<["_meta" := meta]> w) = load_weights model path w.
Proof. apply load_weights_ignores_meta_aux. Qed.

(** C4, as stated, fails: an archive whose version is 999 loads, and loads
    completely. *)
Lemma unknown_version_is_loaded :
  (999 ≠ 2)%Z
  ∧ load_weights (const_model 0) "models/test_weights.json"
      (<["_meta" := JMeta 999 STATE_SIZE ACTION_SIZE
                      (_build_graph_manifest (const_model 1))]>
         (export_weights (const_model 1)))
    = (inr (), (const_model 1, ["Loaded weights from models/test_weights.json"])).
Proof.
  split; [done|]. rewrite load_weights_ignores_meta_aux.
  apply (load_export (const_model 1) (const_model 0));
    apply const_model_has_shape.
Qed.

(** ** Loads that raise *)

Lemma fails_bind_l {A B} (c : Load A) (f : A → Load B) :
  fails c → fails (c ≫= f).
Proof.
  intros Hc s. destruct (Hc s) as (e & s' & E).
  exists e, s'. by apply bind_fail.
Qed.

Lemma fails_bind_r {A B} (c : Load A) (f : A → Load B) :
  (∀ a, fails (f a)) → fails (c ≫= f).
Proof.
  intros Hf s. unfold mbind, Load_bind.
  destruct (c s) as [[e|a] s']; [by exists e, s' | apply Hf].
Qed.

Lemma fails_load_linear (w : gmap string jvalue)
    (module : (Linear.t → Linear.t) → PolicyValueNetwork.t → PolicyValueNetwork.t)
    (name : string) :
  w !! name = None → fails (load_linear w module name).
Proof. intros Hk s. eexists _, _. by apply load_linear_missing. Qed.

Lemma fails_load_layernorm (w : gmap string jvalue)
    (module : (LayerNorm.t → LayerNorm.t) → PolicyValueNetwork.t → PolicyValueNetwork.t)
    (name : string) :
  w !! name = None → fails (load_layernorm w module name).
Proof. intros Hk s. eexists _, _. by apply load_layernorm_missing. Qed.

(** Walk down the statements of [load_weights] to the one that reads the
    missing key [Hk]. *)
Ltac find_failing_load Hk :=
  repeat first
    [ apply fails_bind_l, fails_load_linear; exact Hk
    | apply fails_bind_l, fails_load_layernorm; exact Hk
    | apply fails_bind_r; intros _ ].

Lemma load_weights_missing_mandatory (path : string) (w : gmap string jvalue)
    (k : string) :
  k ∈ MANDATORY_LINEAR ++ MANDATORY_LAYERNORM →
  w !! k = None →
  fails (load_weights_body w path).
Proof.
  unfold MANDATORY_LINEAR, MANDATORY_LAYERNORM. cbn [app].
  intros Hin Hk. unfold load_weights_body.
  repeat (apply elem_of_cons in Hin as [->|Hin]; [find_failing_load Hk|]).
  by apply elem_of_nil in Hin.
Qed.

(** C6. An archive that holds every mandatory entry and none of the
    [value_state_encoder] entries loads without raising, leaves the value
    state encoder of the model as it was, and prints the fallback note; an
    archive that lacks an entry of a mandatory sub-network makes the load
    raise. *)
Theorem optional_subnetwork_fallback (model : PolicyValueNetwork.t)
    (path : string) (w : gmap string jvalue) :
  (Forall (loadable_linear w) MANDATORY_LINEAR →
   Forall (loadable_layernorm w) MANDATORY_LAYERNORM →
   Forall (λ k, w !! k = None) (OPTIONAL_LINEAR ++ OPTIONAL_LAYERNORM) →
   ∃ loaded out,
     load_weights model path w = (inr (), (loaded, out))
     ∧ PolicyValueNetwork.value_state_encoder loaded
       = PolicyValueNetwork.value_state_encoder model
     ∧ FALLBACK_NOTE ∈ out)
  ∧ (∀ k, k ∈ MANDATORY_LINEAR ++ MANDATORY_LAYERNORM →
          w !! k = None →
          ∃ e loaded out, load_weights model path w = (inl e, (loaded, out))).
Proof.
  split.
  - intros HL HN HO.
    assert (Hfc1 : w !! "value_state_encoder_fc1" = None).
    { apply Forall_cons_1 in HO. tauto. }
    exists (loaded_model w model), (loaded_output w path).
    split; [apply load_weights_success; auto|].
    unfold loaded_model, loaded_output. rewrite Hfc1. split; [done|].
    cbn [app]. apply list_elem_of_here.
  - intros k Hin Hk.
    destruct (load_weights_missing_mandatory path w k Hin Hk (model, []))
      as (e & [loaded out] & E).
    by exists e, loaded, out.
Qed.

Lemma legacy_archive_loadable (m : PolicyValueNetwork.t) :
  Forall (loadable_linear (legacy_archive m)) MANDATORY_LINEAR
  ∧ Forall (loadable_layernorm (legacy_archive m)) MANDATORY_LAYERNORM
  ∧ Forall (λ k, legacy_archive m !! k = None)
           (OPTIONAL_LINEAR ++ OPTIONAL_LAYERNORM).
Proof.
  unfold MANDATORY_LINEAR, MANDATORY_LAYERNORM, OPTIONAL_LINEAR, OPTIONAL_LAYERNORM.
  cbn [app].
  repeat apply conj;
    repeat (apply List.Forall_cons || apply List.Forall_nil);
    first [ eexists _, _; split; [reflexivity | apply rectangular_transpose]
          | eexists _, _; reflexivity
          | reflexivity ].
Qed.

Lemma optional_subnetwork_fallback_witness :
  (∃ loaded out,
     load_weights (const_model 0) "old.json" (legacy_archive (const_model 1))
       = (inr (), (loaded, out))
     ∧ PolicyValueNetwork.value_state_encoder loaded
       = PolicyValueNetwork.value_state_encoder (const_model 0)
     ∧ FALLBACK_NOTE ∈ out)
  ∧ (∃ e loaded out,
       load_weights (const_model 0) "old.json"
         (delete "action_scorer_ln1" (legacy_archive (const_model 1)))
         = (inl e, (loaded, out))).
Proof.
  split.
  - destruct (legacy_archive_loadable (const_model 1)) as (L1 & L2 & L3).
    exact (proj1 (optional_subnetwork_fallback (const_model 0) "old.json"
                    (legacy_archive (const_model 1))) L1 L2 L3).
  - apply (proj2 (optional_subnetwork_fallback (const_model 0) "old.json"
                    (delete "action_scorer_ln1" (legacy_archive (const_model 1))))
             "action_scorer_ln1").
    + unfold MANDATORY_LINEAR, MANDATORY_LAYERNORM. cbn [app].
      repeat first [apply list_elem_of_here | apply list_elem_of_further].
    + apply lookup_delete_eq.
Defined.

(** The loader updates the model in place and has no rollback: a load that
    raises midway leaves the parameters read so far in the model. *)
Lemma failed_load_is_partial :
  load_weights (const_model 0) "old.json"
      {[ "state_encoder_fc1" := JLinear [[1]] [1] ]}
    = (inl (KeyError "state_encoder_ln1"),
       (PolicyValueNetwork.over_state_encoder
          (StateEncoder.over_fc1 (λ _, Linear.mk [[1]] [1])) (const_model 0),
        [])).
Proof. reflexivity. Qed.

(** * Further properties of the sources *)

(** ** The forward pass, one action at a time *)

Lemma mapM_bind {A B C} (f : A → option B) (g : B → option C) (l : list A) :
  mapM (λ a, f a ≫= g) l = mapM f l ≫= mapM g.
Proof.
  induction l as [|a l IH]; [done|].
  cbn. destruct (f a) as [b|]; cbn; [|done].
  rewrite IH. destruct (mapM f l) as [k|]; cbn.
  - by destruct (g b), (mapM g k).
  - by destruct (g b).
Qed.

Lemma mapM_None_const {A B} (l : list A) :
  l ≠ [] → mapM (λ _ : A, @None B) l = None.
Proof. destruct l; [done|]. intros _. done. Qed.

(** On a batch of at least one action of the documented width, with one
    mask entry per action, [forward] is the raw score of each action, masked,
    and the value of the state. *)
Lemma forward_by_action (m : PolicyValueNetwork.t) (states : list R)
    (action_features : list (list R)) (action_mask : list bool) :
  Forall (λ a, length a = ACTION_SIZE) action_features →
  action_features ≠ [] →
  length action_mask = length action_features →
  PolicyValueNetwork.forward m states action_features action_mask
    = (raw ← mapM (raw_score m states) action_features;
       v ← state_value m states;
       Some (mask_scores raw action_mask, v)).
Proof.
  intros Ha Hne HL. rewrite forward_unfold. unfold raw_score, state_value.
  destruct (StateEncoder.forward (PolicyValueNetwork.state_encoder m) states)
    as [se|]; cbn [mbind option_bind].
  2: { by rewrite mapM_None_const. }
  rewrite mapM_bind.
  unfold PolicyValueNetwork.reshape_actions. rewrite decide_True by done.
  cbn [mbind option_bind].
  destruct (StateEncoder.forward (PolicyValueNetwork.value_state_encoder m) states)
    as [vse|]; cbn [mbind option_bind].
  2: { destruct (mapM _ action_features) as [ae|]; cbn [mbind option_bind]; [|done].
       by destruct (mapM _ ae). }
  destruct (mapM _ action_features) as [ae|] eqn:Eae; cbn [mbind option_bind];
    [|done].
  destruct (mapM _ ae) as [raw|] eqn:Eraw; cbn [mbind option_bind]; [|done].
  apply length_mapM in Eae. apply length_mapM in Eraw.
  rewrite masked_fill_mask_scores by lia. done.
Qed.

Lemma raw_score_Some (m : PolicyValueNetwork.t) (states a : list R) :
  PolicyValueNetwork.has_shape m →
  length states = STATE_SIZE → length a = ACTION_SIZE →
  ∃ r, raw_score m states a = Some r.
Proof.
  intros (Hse & _ & Hae & Has & _) Hs Ha. unfold raw_score.
  destruct (StateEncoder_forward_Some _ _ _ _ Hse Hs) as (se & -> & Lse).
  destruct (ActionEncoder_forward_Some _ _ _ _ Hae Ha) as (ae & -> & Lae).
  cbn [mbind option_bind].
  apply (ActionScorer_forward_Some _ _ _ _ se ae Has Lse Lae).
Qed.

Lemma state_value_Some (m : PolicyValueNetwork.t) (states : list R) :
  PolicyValueNetwork.has_shape m → length states = STATE_SIZE →
  ∃ z, state_value m states = Some (torch.tanh z).
Proof.
  intros (_ & Hvse & _ & _ & Hvh) Hs. unfold state_value.
  destruct (StateEncoder_forward_Some _ _ _ _ Hvse Hs) as (vse & -> & Lvse).
  cbn [mbind option_bind]. apply (ValueHead_forward_Some _ _ _ _ Hvh Lvse).
Qed.

Lemma mapM_lookup {A B} (f : A → option B) (l : list A) (k : list B) (i : nat) :
  mapM f l = Some k → k !! i = l !! i ≫= f.
Proof.
  intros H%mapM_Some. revert i.
  induction H as [|x y l k Hxy _ IH]; intros [|i]; cbn; done.
Qed.

Lemma mapM_raw_score_Some (m : PolicyValueNetwork.t) (states : list R)
    (action_features : list (list R)) :
  PolicyValueNetwork.has_shape m →
  length states = STATE_SIZE →
  Forall (λ a, length a = ACTION_SIZE) action_features →
  ∃ raw, mapM (raw_score m states) action_features = Some raw
         ∧ length raw = length action_features.
Proof.
  intros Hm Hs Ha.
  destruct (mapM_Forall_Some (raw_score m states) (λ _, True) action_features)
    as (raw & E & _ & L); [|by exists raw].
  eapply Forall_impl; [exact Ha|]. intros a La.
  destruct (raw_score_Some m states a Hm Hs La) as [r Hr]. by exists r.
Qed.

Lemma mask_scores_lookup (raw : list R) (action_mask : list bool) (i : nat) :
  mask_scores raw action_mask !! i
    = (r ← raw !! i; b ← action_mask !! i;
       Some (if b : bool then Fin r else NInf)).
Proof.
  unfold mask_scores. rewrite lookup_zip_with.
  change (map Fin raw) with (Fin <$> raw).
  change (map negb action_mask) with (negb <$> action_mask).
  rewrite !list_lookup_fmap.
  destruct (raw !! i) as [r|]; cbn; [|done].
  by destruct (action_mask !! i) as [[]|].
Qed.

Lemma length_mask_scores (raw : list R) (action_mask : list bool) :
  length raw = length action_mask →
  length (mask_scores raw action_mask) = length raw.
Proof.
  intros H. unfold mask_scores. rewrite length_zip_with, !length_map. lia.
Qed.

(** What [forward] returns for a model of the constructed shapes on inputs
    of the documented shapes. *)
Lemma forward_documented (m : PolicyValueNetwork.t) (states : list R)
    (action_features : list (list R)) (action_mask : list bool) :
  PolicyValueNetwork.has_shape m →
  documented_shapes states action_features action_mask →
  ∃ raw z,
    mapM (raw_score m states) action_features = Some raw
    ∧ length raw = length action_features
    ∧ state_value m states = Some (torch.tanh z)
    ∧ PolicyValueNetwork.forward m states action_features action_mask
      = Some (mask_scores raw action_mask, torch.tanh z).
Proof.
  intros Hm (Hs & Ha & Hne & HL).
  destruct (mapM_raw_score_Some m states action_features Hm Hs Ha)
    as (raw & Eraw & Lraw).
  destruct (state_value_Some m states Hm Hs) as (z & Ez).
  exists raw, z. repeat apply conj; try done.
  rewrite forward_by_action by done. rewrite Eraw, Ez. done.
Qed.

Lemma sample_documented_shapes (actions : list (list R)) (action_mask : list bool) :
  Forall (λ a, length a = ACTION_SIZE) actions →
  actions ≠ [] →
  length action_mask = length actions →
  documented_shapes sample_state actions action_mask.
Proof. intros. split; [apply sample_state_length | done]. Qed.

(** X1. The scores are aligned with the batch: the forward pass returns one
    score per action, and the score is negative infinity at every position
    the mask marks as padding. *)
Theorem scores_aligned_with_mask (m : PolicyValueNetwork.t) (states : list R)
    (action_features : list (list R)) (action_mask : list bool) :
  PolicyValueNetwork.has_shape m →
  documented_shapes states action_features action_mask →
  ∃ scores v,
    PolicyValueNetwork.forward m states action_features action_mask
      = Some (scores, v)
    ∧ length scores = length action_features
    ∧ (∀ i, action_mask !! i = Some false → scores !! i = Some NInf).
Proof.
  intros Hm Hd.
  destruct (forward_documented m states action_features action_mask Hm Hd)
    as (raw & z & _ & Lraw & _ & Hf).
  destruct Hd as (_ & _ & _ & HL).
  exists (mask_scores raw action_mask), (torch.tanh z).
  split; [done|]. split; [rewrite length_mask_scores; lia|].
  intros i Hi. rewrite mask_scores_lookup, Hi.
  destruct (lookup_lt_is_Some_2 raw i) as [r ->];
    [apply lookup_lt_Some in Hi; lia | done].
Qed.

Lemma scores_aligned_with_mask_witness :
  ∃ scores v,
    PolicyValueNetwork.forward (const_model 1) sample_state
      [sample_action 1; sample_action 2; sample_action 3] [true; false; true]
      = Some (scores, v)
    ∧ length scores = 3%nat
    ∧ (∀ i, [true; false; true] !! i = Some false → scores !! i = Some NInf).
Proof.
  apply (scores_aligned_with_mask (const_model 1) sample_state
           [sample_action 1; sample_action 2; sample_action 3]
           [true; false; true]).
  - apply const_model_has_shape.
  - apply sample_documented_shapes;
      [repeat constructor; apply sample_action_length | discriminate | reflexivity].
Defined.

Lemma mask_scores_ext (raw raw' : list R) (action_mask : list bool) :
  length raw = length raw' →
  (∀ i, action_mask !! i = Some true → raw !! i = raw' !! i) →
  mask_scores raw action_mask = mask_scores raw' action_mask.
Proof.
  intros HL H. apply list_eq. intros i. rewrite !mask_scores_lookup.
  destruct (action_mask !! i) as [[]|] eqn:Ek.
  - by rewrite (H i Ek).
  - destruct (raw !! i) as [r|] eqn:Er.
    + destruct (lookup_lt_is_Some_2 raw' i) as [r' ->]; [|done].
      apply lookup_lt_Some in Er. lia.
    + apply lookup_ge_None in Er. rewrite (lookup_ge_None_2 raw' i) by lia. done.
  - destruct (raw !! i), (raw' !! i); done.
Qed.

(** X3. Padding never influences the result: two batches that agree at the
    valid positions get the same scores, the same policy and the same
    value, whatever features the padded positions hold. *)
Theorem padding_content_is_irrelevant (m : PolicyValueNetwork.t) (states : list R)
    (actions1 actions2 : list (list R)) (action_mask : list bool) :
  PolicyValueNetwork.has_shape m →
  documented_shapes states actions1 action_mask →
  documented_shapes states actions2 action_mask →
  agree_on_valid action_mask actions1 actions2 →
  ∃ scores policy v,
    PolicyValueNetwork.forward m states actions1 action_mask = Some (scores, v)
    ∧ PolicyValueNetwork.forward m states actions2 action_mask = Some (scores, v)
    ∧ PolicyValueNetwork.get_policy_and_value m states actions1 action_mask
      = Some (policy, v)
    ∧ PolicyValueNetwork.get_policy_and_value m states actions2 action_mask
      = Some (policy, v).
Proof.
  intros Hm Hd1 Hd2 [HL Hag].
  destruct (forward_documented m states actions1 action_mask Hm Hd1)
    as (raw1 & z1 & E1 & L1 & Ez1 & Hf1).
  destruct (forward_documented m states actions2 action_mask Hm Hd2)
    as (raw2 & z2 & E2 & L2 & Ez2 & Hf2).
  assert (Hv : torch.tanh z1 = torch.tanh z2) by congruence.
  assert (Hs : mask_scores raw1 action_mask = mask_scores raw2 action_mask).
  { apply mask_scores_ext; [lia|]. intros i Hi.
    rewrite (mapM_lookup _ _ _ i E1), (mapM_lookup _ _ _ i E2).
    by rewrite (Hag i Hi). }
  exists (mask_scores raw1 action_mask),
    (F.softmax (mask_scores raw1 action_mask)), (torch.tanh z1).
  unfold PolicyValueNetwork.get_policy_and_value.
  rewrite Hf1, Hf2, <- Hs, <- Hv. done.
Qed.

Lemma padding_content_is_irrelevant_witness :
  ∃ scores policy v,
    PolicyValueNetwork.forward (const_model 1) sample_state
      [sample_action 1; sample_action 2] [true; false] = Some (scores, v)
    ∧ PolicyValueNetwork.forward (const_model 1) sample_state
        [sample_action 1; sample_action 7] [true; false] = Some (scores, v)
    ∧ PolicyValueNetwork.get_policy_and_value (const_model 1) sample_state
        [sample_action 1; sample_action 2] [true; false] = Some (policy, v)
    ∧ PolicyValueNetwork.get_policy_and_value (const_model 1) sample_state
        [sample_action 1; sample_action 7] [true; false] = Some (policy, v).
Proof.
  apply (padding_content_is_irrelevant (const_model 1) sample_state
           [sample_action 1; sample_action 2] [sample_action 1; sample_action 7]
           [true; false]).
  - apply const_model_has_shape.
  - apply sample_documented_shapes;
      [repeat constructor; apply sample_action_length | discriminate | reflexivity].
  - apply sample_documented_shapes;
      [repeat constructor; apply sample_action_length | discriminate | reflexivity].
  - split; [reflexivity|]. intros [|[|i]] Hi; [reflexivity | discriminate | discriminate].
Defined.

(** X4. The value belongs to the state alone: whatever the action batch and
    the mask, the forward pass returns the same value for the same state. *)
Theorem value_is_independent_of_actions (m : PolicyValueNetwork.t)
    (states : list R) (actions1 actions2 : list (list R))
    (mask1 mask2 : list bool) :
  PolicyValueNetwork.has_shape m →
  documented_shapes states actions1 mask1 →
  documented_shapes states actions2 mask2 →
  ∃ scores1 scores2 v,
    PolicyValueNetwork.forward m states actions1 mask1 = Some (scores1, v)
    ∧ PolicyValueNetwork.forward m states actions2 mask2 = Some (scores2, v).
Proof.
  intros Hm Hd1 Hd2.
  destruct (forward_documented m states actions1 mask1 Hm Hd1)
    as (raw1 & z1 & _ & _ & Ez1 & Hf1).
  destruct (forward_documented m states actions2 mask2 Hm Hd2)
    as (raw2 & z2 & _ & _ & Ez2 & Hf2).
  assert (Hv : torch.tanh z1 = torch.tanh z2) by congruence.
  exists (mask_scores raw1 mask1), (mask_scores raw2 mask2), (torch.tanh z1).
  split; [done|]. by rewrite Hv.
Qed.

Lemma value_is_independent_of_actions_witness :
  ∃ scores1 scores2 v,
    PolicyValueNetwork.forward (const_model 1) sample_state
      [sample_action 1; sample_action 2] [true; false] = Some (scores1, v)
    ∧ PolicyValueNetwork.forward (const_model 1) sample_state
        [sample_action 5] [true] = Some (scores2, v).
Proof.
  apply (value_is_independent_of_actions (const_model 1) sample_state
           [sample_action 1; sample_action 2] [sample_action 5]
           [true; false] [true]).
  - apply const_model_has_shape.
  - apply sample_documented_shapes;
      [repeat constructor; apply sample_action_length | discriminate | reflexivity].
  - apply sample_documented_shapes;
      [repeat constructor; apply sample_action_length | discriminate | reflexivity].
Defined.

(** X5. The policy path and the value path share no parameter: the scores
    (and the policy) are those of the state encoder, the action encoder and
    the scorer; the value is that of the value state encoder and the value
    head. *)
Theorem policy_and_value_paths_are_separate (m1 m2 : PolicyValueNetwork.t)
    (states : list R) (action_features : list (list R))
    (action_mask : list bool) :
  PolicyValueNetwork.has_shape m1 →
  PolicyValueNetwork.has_shape m2 →
  documented_shapes states action_features action_mask →
  ∃ scores1 v1 scores2 v2,
    PolicyValueNetwork.forward m1 states action_features action_mask
      = Some (scores1, v1)
    ∧ PolicyValueNetwork.forward m2 states action_features action_mask
      = Some (scores2, v2)
    ∧ (PolicyValueNetwork.state_encoder m1 = PolicyValueNetwork.state_encoder m2 →
       PolicyValueNetwork.action_encoder m1 = PolicyValueNetwork.action_encoder m2 →
       PolicyValueNetwork.action_scorer m1 = PolicyValueNetwork.action_scorer m2 →
       scores1 = scores2)
    ∧ (PolicyValueNetwork.value_state_encoder m1
         = PolicyValueNetwork.value_state_encoder m2 →
       PolicyValueNetwork.value_head m1 = PolicyValueNetwork.value_head m2 →
       v1 = v2).
Proof.
  intros Hm1 Hm2 Hd.
  destruct (forward_documented m1 states action_features action_mask Hm1 Hd)
    as (raw1 & z1 & E1 & _ & Ez1 & Hf1).
  destruct (forward_documented m2 states action_features action_mask Hm2 Hd)
    as (raw2 & z2 & E2 & _ & Ez2 & Hf2).
  exists (mask_scores raw1 action_mask), (torch.tanh z1),
    (mask_scores raw2 action_mask), (torch.tanh z2).
  split; [done|]. split; [done|]. split.
  - intros H1 H2 H3.
    assert (mapM (raw_score m1 states) action_features
            = mapM (raw_score m2 states) action_features) as Hraw.
    { apply mapM_ext. intros a. unfold raw_score. by rewrite H1, H2, H3. }
    congruence.
  - intros H1 H2. unfold state_value in *. rewrite H1, H2 in Ez1. congruence.
Qed.

Lemma mixed_model_has_shape (c d : R) :
  PolicyValueNetwork.has_shape (mixed_model c d).
Proof.
  destruct (const_model_has_shape c) as (S & _ & A & C & _).
  destruct (const_model_has_shape d) as (_ & V & _ & _ & H).
  exact (conj S (conj V (conj A (conj C H)))).
Qed.

Lemma policy_and_value_paths_are_separate_witness :
  ∃ scores v1 v2,
    PolicyValueNetwork.forward (const_model 1) sample_state
      [sample_action 1; sample_action 2] [true; true] = Some (scores, v1)
    ∧ PolicyValueNetwork.forward (mixed_model 1 2) sample_state
        [sample_action 1; sample_action 2] [true; true] = Some (scores, v2).
Proof.
  destruct (policy_and_value_paths_are_separate (const_model 1) (mixed_model 1 2)
              sample_state [sample_action 1; sample_action 2] [true; true])
    as (scores1 & v1 & scores2 & v2 & H1 & H2 & Hs & _).
  - apply const_model_has_shape.
  - apply mixed_model_has_shape.
  - apply sample_documented_shapes;
      [repeat constructor; apply sample_action_length | discriminate | reflexivity].
  - exists scores1, v1, v2. split; [exact H1|].
    rewrite (Hs eq_refl eq_refl eq_refl). exact H2.
Defined.

(** ** Inputs that break the shape contract *)

Lemma StateEncoder_forward_bad_length (e : StateEncoder.t) (h d : nat)
    (x : list R) :
  StateEncoder.has_shape h d e → (0 < h)%nat → length x ≠ STATE_SIZE →
  StateEncoder.forward e x = None.
Proof.
  intros ((Hw & Hrows & _) & _) Hh Hx.
  unfold StateEncoder.forward, Linear.forward, F.linear.
  rewrite decide_False; [done|]. intros [HF _].
  destruct (Linear.weight (StateEncoder.fc1 e)) as [|r W]; [cbn in Hw; lia|].
  inversion HF; inversion Hrows; subst. congruence.
Qed.

(** X6. A constructed model rejects a state vector whose length is not
    [STATE_SIZE], an action vector whose length is not [ACTION_SIZE], and a
    batch of zero actions: the call fails, nothing is padded or truncated. *)
Theorem contract_violations_are_rejected (m : PolicyValueNetwork.t)
    (states : list R) (action_features : list (list R))
    (action_mask : list bool) :
  PolicyValueNetwork.has_shape m →
  length states ≠ STATE_SIZE
  ∨ ¬ Forall (λ a, length a = ACTION_SIZE) action_features
  ∨ action_features = [] →
  PolicyValueNetwork.forward m states action_features action_mask = None
  ∧ PolicyValueNetwork.get_policy_and_value m states action_features action_mask
    = None.
Proof.
  intros (Hse & _) Hbad.
  assert (Hf : PolicyValueNetwork.forward m states action_features action_mask
               = None).
  { destruct Hbad as [Hs|[Ha| ->]].
    - rewrite forward_unfold.
      by rewrite (StateEncoder_forward_bad_length _ _ _ _ Hse ltac:(lia) Hs).
    - rewrite forward_unfold.
      destruct (StateEncoder.forward (PolicyValueNetwork.state_encoder m) states);
        [|done].
      cbn [mbind option_bind].
      destruct (StateEncoder.forward (PolicyValueNetwork.value_state_encoder m)
                  states); [|done].
      cbn [mbind option_bind]. unfold PolicyValueNetwork.reshape_actions.
      rewrite decide_False; [done | tauto].
    - apply forward_no_actions. }
  split; [done|]. unfold PolicyValueNetwork.get_policy_and_value. by rewrite Hf.
Qed.

Lemma contract_violations_are_rejected_witness :
  PolicyValueNetwork.forward (const_model 1) (replicate 500 1)
      [sample_action 1] [true] = None
  ∧ PolicyValueNetwork.get_policy_and_value (const_model 1) (replicate 500 1)
      [sample_action 1] [true] = None.
Proof.
  apply (contract_violations_are_rejected (const_model 1) (replicate 500 1)
           [sample_action 1] [true]).
  - apply const_model_has_shape.
  - left. rewrite length_replicate. unfold STATE_SIZE. lia.
Defined.

(** ** The embeddings *)




(** ** Counting the parameters *)

Lemma numel_rectangular (M : list (list R)) (rows cols : nat) :
  length M = rows → Forall (λ row, length row = cols) M →
  numel M = (Z.of_nat rows * Z.of_nat cols)%Z.
Proof.
  intros <- HM. unfold numel.
  induction HM as [|r M Hr _ IH]; [done|].
  change (sum_list (map length (r :: M)))
    with (length r + sum_list (map length M))%nat.
  cbn [length]. rewrite Nat2Z.inj_add, IH, Hr. lia.
Qed.

Lemma linear_numel (l : Linear.t) (i o : nat) :
  Linear.has_shape i o l →
  module_numel (MLinear l) = (Z.of_nat o * Z.of_nat i + Z.of_nat o)%Z.
Proof.
  intros (Hw & Hrows & Hb). cbn [module_numel].
  by rewrite (numel_rectangular _ o i Hw Hrows), Hb.
Qed.

Lemma layernorm_numel (n : LayerNorm.t) (k : nat) :
  LayerNorm.has_shape k n →
  module_numel (MLayerNorm n) = (Z.of_nat k + Z.of_nat k)%Z.
Proof. intros (_ & Hw & Hb). cbn [module_numel]. by rewrite Hw, Hb. Qed.

(** X10. Every constructed model has 869826 parameters. *)
Theorem count_parameters_constructed (m : PolicyValueNetwork.t) :
  PolicyValueNetwork.has_shape m → count_parameters m = 869826%Z.
Proof.
  intros ((S1 & S2 & S3 & S4) & (V1 & V2 & V3 & V4) & (A1 & A2 & A3)
          & (C1 & C2 & C3) & (H1 & H2)).
  unfold count_parameters, components, named_modules,
    StateEncoder_named_modules, ActionEncoder_named_modules,
    ActionScorer_named_modules, ValueHead_named_modules.
  cbn [flat_map snd app map foldr].
  rewrite (linear_numel _ _ _ S1), (layernorm_numel _ _ S2),
    (linear_numel _ _ _ S3), (layernorm_numel _ _ S4),
    (linear_numel _ _ _ V1), (layernorm_numel _ _ V2),
    (linear_numel _ _ _ V3), (layernorm_numel _ _ V4),
    (linear_numel _ _ _ A1), (layernorm_numel _ _ A2), (linear_numel _ _ _ A3),
    (linear_numel _ _ _ C1), (layernorm_numel _ _ C2), (linear_numel _ _ _ C3),
    (linear_numel _ _ _ H1), (linear_numel _ _ _ H2).
  cbn [module_numel]. unfold STATE_SIZE, ACTION_SIZE. lia.
Qed.

Lemma count_parameters_constructed_witness :
  count_parameters (const_model 1) = 869826%Z.
Proof.
  apply (count_parameters_constructed (const_model 1)).
  apply const_model_has_shape.
Defined.

(** ** The archive is self-contained *)

(** X11. The exported archive is consistent with its own manifest: every
    operation of every sub-network's manifest names an entry of the archive
    of its kind (or needs none), no key is referenced twice, and the
    archive holds exactly the referenced entries and the metadata. *)
Theorem archive_is_self_contained (m : PolicyValueNetwork.t) :
  Forall (λ name, ∃ ops, manifest_of (export_weights m) name = Some ops
                         ∧ Forall (op_resolves (export_weights m)) ops)
         SUBNETWORKS
  ∧ NoDup (manifest_keys (export_weights m))
  ∧ dom (export_weights m)
    = list_to_set (manifest_keys (export_weights m)) ∪ {["_meta"]}.
Proof.
  split; [|split].
  - unfold SUBNETWORKS.
    constructor;
      [eexists; split; [apply manifest_of_state_encoder|]|].
    2: constructor;
      [eexists; split; [apply manifest_of_value_state_encoder|]|].
    3: constructor;
      [eexists; split; [apply manifest_of_action_encoder|]|].
    4: constructor;
      [eexists; split; [apply manifest_of_action_scorer|]|].
    5: constructor;
      [eexists; split; [apply manifest_of_value_head|]|].
    6: constructor.
    all: repeat (apply List.Forall_cons || apply List.Forall_nil);
      unfold op_resolves; cbn [key op op_linear op_layernorm op_relu op_tanh];
      first [ left; split; [reflexivity | eexists _, _; reflexivity]
            | right; split; [reflexivity | eexists _, _; reflexivity]
            | left; reflexivity
            | right; reflexivity ].
  - assert (manifest_keys (export_weights m)
            = [ "state_encoder_fc1"; "state_encoder_ln1"; "state_encoder_fc2";
                "state_encoder_ln2"; "value_state_encoder_fc1";
                "value_state_encoder_ln1"; "value_state_encoder_fc2";
                "value_state_encoder_ln2"; "action_encoder_fc1";
                "action_encoder_ln1"; "action_encoder_fc2"; "action_scorer_fc1";
                "action_scorer_ln1"; "action_scorer_fc2"; "value_head_fc1";
                "value_head_fc2" ]) as ->
      by (vm_compute; reflexivity).
    compute_done.
  - vm_compute. reflexivity.
Qed.

(** ** The value head's fix-up on longer heads *)

Lemma linear_indices_all_linear_from (n : nat) (ks : list string) :
  map fst (List.filter (λ io : nat * Op, String.eqb (op io.2) "linear")
             (imap (λ i o, (n + i, o)%nat) (map op_linear ks)))
    = seq n (length ks).
Proof.
  revert n. induction ks as [|k ks IH]; intros n; [done|].
  cbn [map imap List.filter length seq op op_linear snd fst String.eqb
       Ascii.eqb Bool.eqb].
  rewrite Nat.add_0_r. f_equal.
  rewrite <- (IH (S n)). do 2 f_equal.
  apply imap_ext. intros i o _. cbn. f_equal. lia.
Qed.

Lemma linear_indices_all_linear (ks : list string) :
  linear_indices (map op_linear ks) = seq 0 (length ks).
Proof. apply (linear_indices_all_linear_from 0). Qed.

Lemma removelast_seq (n : nat) : removelast (seq 0 (S n)) = seq 0 n.
Proof.
  rewrite seq_S. cbn [plus]. rewrite removelast_app by discriminate.
  cbn. apply app_nil_r.
Qed.

Lemma replicate_app_cons {A} (j : nat) (x : A) (l : list A) :
  replicate j x ++ x :: l = x :: replicate j x ++ l.
Proof. induction j as [|j IH]; cbn; [done|]. by rewrite IH. Qed.

Lemma insert_relus_after_first (o : Op) (rest : list Op) (j : nat) :
  foldl (λ vh idx, py_insert (idx + 1) op_relu vh) (o :: rest) (seq 0 j)
    = o :: replicate j op_relu ++ rest.
Proof.
  induction j as [|j IH]; [done|].
  rewrite seq_S, foldl_app, IH. cbn [plus foldl].
  unfold py_insert. rewrite Nat.add_1_r. cbn [take drop].
  rewrite take_app_length', drop_app_length' by (by rewrite length_replicate).
  cbn [app replicate]. f_equal. apply replicate_app_cons.
Qed.

(** X12. The fix-up of the value head takes the positions of the linear
    operations once, before it inserts: on a head of [n] linear operations
    it leaves the first one in place, puts all [n - 1] rectifiers directly
    after it, then the other linear operations, then the saturating
    operation.  A rectifier therefore follows every linear operation but
    the last only when the head has at most two linear layers, as the
    constructed head has. *)
Theorem value_head_fixup_on_linear_ops (m : PolicyValueNetwork.t)
    (k0 : string) (ks : list string) :
  _build_graph_manifest m
    = <["value_head" :=
          value_head_fixup (default [] (discovered_graph m !! "value_head"))]>
        (discovered_graph m)
  ∧ value_head_fixup [] = [op_tanh]
  ∧ value_head_fixup (map op_linear (k0 :: ks))
    = op_linear k0 :: replicate (length ks) op_relu
        ++ map op_linear ks ++ [op_tanh]
  ∧ value_head_fixup [op_linear "value_head_fc1"; op_linear "value_head_fc2";
                      op_linear "value_head_fc3"]
    = [op_linear "value_head_fc1"; op_relu; op_relu;
       op_linear "value_head_fc2"; op_linear "value_head_fc3"; op_tanh].
Proof.
  assert (Hgen : ∀ k0 ks,
            value_head_fixup (map op_linear (k0 :: ks))
            = op_linear k0 :: replicate (length ks) op_relu
                ++ map op_linear ks ++ [op_tanh]).
  { clear. intros k0 ks. unfold value_head_fixup.
    rewrite linear_indices_all_linear. cbn [length].
    rewrite removelast_seq. cbn [map].
    rewrite insert_relus_after_first. cbn [app]. by rewrite <- app_assoc. }
  split; [reflexivity|]. split; [reflexivity|]. split; [apply Hgen|].
  apply (Hgen "value_head_fc1" ["value_head_fc2"; "value_head_fc3"]).
Qed.

(** ** The stored kernel *)

Lemma transpose_entry (W : list (list R)) (i o a b : nat) :
  length W = o → Forall (λ row, length row = i) W →
  (a < i)%nat → (b < o)%nat →
  nth b (nth a (transpose W) []) 0 = nth a (nth b W []) 0.
Proof.
  intros Hw Hrows Ha Hb.
  destruct W as [|r W]; [cbn in Hw; lia|].
  assert (Hr : length r = i) by (by inversion Hrows).
  rewrite (transpose_eq (r :: W) r eq_refl), Hr.
  rewrite nth_map_seq by done. apply nth_col. lia.
Qed.

Lemma transpose_shape (W : list (list R)) (i o : nat) :
  length W = o → Forall (λ row, length row = i) W → (0 < o)%nat →
  length (transpose W) = i ∧ Forall (λ col, length col = o) (transpose W).
Proof.
  intros Hw Hrows Ho. split.
  - destruct W as [|r W']; [cbn in Hw; lia|].
    rewrite (length_transpose (r :: W') r eq_refl). by inversion Hrows.
  - rewrite <- Hw. apply transpose_rows.
Qed.

(** X13. The archive stores an affine layer's weight with the axes swapped:
    for a layer of [i] inputs and [o] outputs the kernel has [i] rows of [o]
    entries, its entry [(a, b)] is the weight's entry [(b, a)], and the bias
    is stored as it is. *)
Theorem exported_kernel_layout (m : PolicyValueNetwork.t)
    (k : string) (l : Linear.t) (i o : nat) :
  (k, l) ∈ keyed_linears m →
  Linear.has_shape i o l →
  (0 < o)%nat →
  ∃ kernel,
    export_weights m !! k = Some (JLinear kernel (Linear.bias l))
    ∧ length kernel = i
    ∧ Forall (λ row, length row = o) kernel
    ∧ ∀ a b, (a < i)%nat → (b < o)%nat →
             nth b (nth a kernel []) 0 = nth a (nth b (Linear.weight l) []) 0.
Proof.
  intros Hin (Hw & Hrows & Hb) Ho.
  exists (transpose (Linear.weight l)).
  destruct (transpose_shape _ _ _ Hw Hrows Ho) as [HL HF].
  split; [|split; [done|split; [done|]]].
  - rewrite keyed_linears_eq in Hin.
    repeat (apply elem_of_cons in Hin as [[= -> ->]|Hin]; [reflexivity|]).
    by apply elem_of_nil in Hin.
  - intros a b Ha Hb'. by apply (transpose_entry _ i o).
Qed.

Lemma exported_kernel_layout_witness :
  ∃ kernel,
    export_weights (const_model 1) !! "action_scorer_fc1"
      = Some (JLinear kernel
                (Linear.bias (ActionScorer.fc1
                   (PolicyValueNetwork.action_scorer (const_model 1)))))
    ∧ length kernel = 320%nat
    ∧ Forall (λ row, length row = 128%nat) kernel
    ∧ ∀ a b, (a < 320)%nat → (b < 128)%nat →
             nth b (nth a kernel []) 0
             = nth a (nth b (Linear.weight (ActionScorer.fc1
                        (PolicyValueNetwork.action_scorer (const_model 1)))) [])
                 0.
Proof.
  apply (exported_kernel_layout (const_model 1) "action_scorer_fc1"
           (ActionScorer.fc1 (PolicyValueNetwork.action_scorer (const_model 1)))
           320 128).
  - rewrite keyed_linears_eq.
    repeat first [apply list_elem_of_here | apply list_elem_of_further].
  - apply (const_linear_has_shape (256 + 64) 128 1).
  - lia.
Defined.

(** ** Different models, different archives *)

(** X14. Nothing is lost in the export: two different models of the
    constructed shapes never export the same archive. *)
Theorem export_weights_is_injective (m1 m2 : PolicyValueNetwork.t) :
  PolicyValueNetwork.has_shape m1 →
  PolicyValueNetwork.has_shape m2 →
  m1 ≠ m2 →
  export_weights m1 ≠ export_weights m2.
Proof.
  intros H1 H2 Hne Heq. apply Hne.
  pose proof (load_export m1 m1 "" H1 H1) as L1.
  pose proof (load_export m2 m1 "" H2 H1) as L2.
  rewrite <- Heq in L2. congruence.
Qed.

Lemma const_model_neq : const_model 0 ≠ const_model 1.
Proof.
  intros H.
  apply (f_equal (λ m, Linear.bias (ValueHead.fc2 (PolicyValueNetwork.value_head m))))
    in H.
  cbn in H. injection H as H. lra.
Qed.

Lemma export_weights_is_injective_witness :
  export_weights (const_model 0) ≠ export_weights (const_model 1).
Proof.
  apply (export_weights_is_injective (const_model 0) (const_model 1)).
  - apply const_model_has_shape.
  - apply const_model_has_shape.
  - apply const_model_neq.
Defined.

(** X22. Exporting a model of the constructed shapes and loading the archive
    into another model of these shapes succeeds, prints the confirmation,
    and leaves exactly the exported parameters, whatever the parameters of
    the receiving model were. *)
Theorem export_then_load_restores_parameters (m fresh : PolicyValueNetwork.t)
    (path : string) :
  PolicyValueNetwork.has_shape m →
  PolicyValueNetwork.has_shape fresh →
  load_weights fresh path (export_weights m)
    = (inr (), (m, ["Loaded weights from " +:+ path])).
Proof. apply load_export. Qed.

Lemma export_then_load_restores_parameters_witness :
  load_weights (const_model 0) "models/test_weights.json"
    (export_weights (const_model 1))
  = (inr (), (const_model 1,
              ["Loaded weights from " +:+ "models/test_weights.json"])).
Proof.
  exact (export_then_load_restores_parameters (const_model 1) (const_model 0)
           "models/test_weights.json"
           (const_model_has_shape 1) (const_model_has_shape 0)).
Defined.

(** ** The optional sub-network is keyed on one entry *)

(** X15. Whether the loader falls back is decided by the key
    [value_state_encoder_fc1] alone: when it is absent the other
    [value_state_encoder] entries are not read, whether present or not; the
    load succeeds, leaves the value state encoder as it was, and prints the
    note, then the confirmation. *)
Theorem fallback_is_keyed_on_fc1 (model : PolicyValueNetwork.t) (path : string)
    (w : gmap string jvalue) :
  Forall (loadable_linear w) MANDATORY_LINEAR →
  Forall (loadable_layernorm w) MANDATORY_LAYERNORM →
  w !! "value_state_encoder_fc1" = None →
  ∃ loaded,
    load_weights model path w
      = (inr (), (loaded, [FALLBACK_NOTE; "Loaded weights from " +:+ path]))
    ∧ PolicyValueNetwork.value_state_encoder loaded
      = PolicyValueNetwork.value_state_encoder model.
Proof.
  intros HL HN Hfc1. exists (loaded_model w model).
  rewrite (load_weights_success model path w HL HN) by (by left).
  unfold loaded_output, loaded_model. rewrite Hfc1. done.
Qed.

Lemma fallback_is_keyed_on_fc1_witness :
  ∃ loaded,
    load_weights (const_model 0) "old.json"
      (delete "value_state_encoder_fc1" (export_weights (const_model 1)))
      = (inr (), (loaded, [FALLBACK_NOTE; "Loaded weights from old.json"]))
    ∧ PolicyValueNetwork.value_state_encoder loaded
      = PolicyValueNetwork.value_state_encoder (const_model 0).
Proof.
  apply (fallback_is_keyed_on_fc1 (const_model 0) "old.json"
           (delete "value_state_encoder_fc1" (export_weights (const_model 1)))).
  - unfold MANDATORY_LINEAR.
    repeat (apply List.Forall_cons || apply List.Forall_nil);
      (eexists _, _; split; [reflexivity | apply rectangular_transpose]).
  - unfold MANDATORY_LAYERNORM.
    repeat (apply List.Forall_cons || apply List.Forall_nil);
      (eexists _, _; reflexivity).
  - apply lookup_delete_eq.
Defined.

Ltac find_load Hk :=
  first
    [ apply fails_load_linear; exact Hk
    | apply fails_load_layernorm; exact Hk
    | apply fails_bind_l; find_load Hk
    | apply fails_bind_r; intros _; find_load Hk ].

(** X16. The optional sub-network is all or nothing: when
    [value_state_encoder_fc1] is present, a missing entry among the other
    three [value_state_encoder] keys makes the load raise. *)
Theorem partial_optional_subnetwork_raises (model : PolicyValueNetwork.t)
    (path : string) (w : gmap string jvalue) (k : string) :
  is_Some (w !! "value_state_encoder_fc1") →
  k ∈ OPTIONAL_REST →
  w !! k = None →
  ∃ e loaded out, load_weights model path w = (inl e, (loaded, out)).
Proof.
  intros [v Hfc1] Hin Hk.
  assert (Hf : fails (load_weights_body w path)).
  { unfold load_weights_body. rewrite Hfc1. unfold OPTIONAL_REST in Hin.
    repeat (apply elem_of_cons in Hin as [->|Hin]; [find_load Hk|]).
    by apply elem_of_nil in Hin. }
  destruct (Hf (model, [])) as (e & [loaded out] & E).
  by exists e, loaded, out.
Qed.

Lemma partial_optional_subnetwork_raises_witness :
  ∃ e loaded out,
    load_weights (const_model 0) "weights.json"
      (delete "value_state_encoder_ln2" (export_weights (const_model 1)))
      = (inl e, (loaded, out)).
Proof.
  apply (partial_optional_subnetwork_raises (const_model 0) "weights.json"
           (delete "value_state_encoder_ln2" (export_weights (const_model 1)))
           "value_state_encoder_ln2").
  - eexists. reflexivity.
  - unfold OPTIONAL_REST.
    repeat first [apply list_elem_of_here | apply list_elem_of_further].
  - apply lookup_delete_eq.
Defined.

(** ** What a load leaves of the model it is given *)

Lemma stored_linear_loadable (w : gmap string jvalue) (name : string)
    (old1 old2 : Linear.t) :
  loadable_linear w name → stored_linear w name old1 = stored_linear w name old2.
Proof. intros (K & b & E & _). unfold stored_linear. by rewrite E. Qed.

Lemma stored_layernorm_loadable (w : gmap string jvalue) (name : string)
    (old1 old2 : LayerNorm.t) (n : nat) :
  loadable_layernorm w name →
  LayerNorm.has_shape n old1 → LayerNorm.has_shape n old2 →
  stored_layernorm w name old1 = stored_layernorm w name old2.
Proof.
  intros (g & b & E) [H1 _] [H2 _]. unfold stored_layernorm.
  by rewrite E, H1, H2.
Qed.

(** X17. A successful load of an archive that holds the optional
    sub-network overwrites every parameter: two constructed models loaded
    from the same archive end up equal, whatever their parameters were. *)
Theorem load_overwrites_every_parameter (m1 m2 : PolicyValueNetwork.t)
    (path : string) (w : gmap string jvalue) :
  PolicyValueNetwork.has_shape m1 →
  PolicyValueNetwork.has_shape m2 →
  Forall (loadable_linear w) (MANDATORY_LINEAR ++ OPTIONAL_LINEAR) →
  Forall (loadable_layernorm w) (MANDATORY_LAYERNORM ++ OPTIONAL_LAYERNORM) →
  ∃ loaded out,
    load_weights m1 path w = (inr (), (loaded, out))
    ∧ load_weights m2 path w = (inr (), (loaded, out)).
Proof.
  intros ((S1 & S2 & S3 & S4) & (V1 & V2 & V3 & V4) & (A1 & A2 & A3)
          & (C1 & C2 & C3) & (H1 & H2))
         ((S1' & S2' & S3' & S4') & (V1' & V2' & V3' & V4') & (A1' & A2' & A3')
          & (C1' & C2' & C3') & (H1' & H2'))
         [HL HOL]%Forall_app [HN HON]%Forall_app.
  exists (loaded_model w m1), (loaded_output w path).
  rewrite !(load_weights_success _ path w HL HN) by (right; done).
  split; [done|]. do 2 f_equal.
  unfold MANDATORY_LINEAR, MANDATORY_LAYERNORM, OPTIONAL_LINEAR,
    OPTIONAL_LAYERNORM in *.
  repeat match goal with
         | H : Forall _ (_ :: _) |- _ => apply Forall_cons_1 in H; destruct H
         | H : Forall _ [] |- _ => clear H
         end.
  unfold loaded_model, stored_state_encoder.
  repeat match goal with
         | |- context [?a +:+ ?b] =>
             let s := eval vm_compute in (a +:+ b) in change (a +:+ b) with s
         end.
  assert (is_Some (w !! "value_state_encoder_fc1")) as [v ->].
  { match goal with
    | H : loadable_linear w "value_state_encoder_fc1" |- _ =>
        destruct H as (? & ? & -> & _); eauto
    end. }
  repeat match goal with
         | |- context [stored_linear w ?k (?f (?g m1))] =>
             rewrite (stored_linear_loadable w k (f (g m1)) (f (g m2)))
               by assumption
         | |- context [stored_layernorm w ?k (?f (?g m1))] =>
             erewrite (stored_layernorm_loadable w k (f (g m1)) (f (g m2)))
               by eassumption
         end.
  reflexivity.
Qed.

Lemma load_overwrites_every_parameter_witness :
  ∃ loaded out,
    load_weights (const_model 0) "weights.json" (export_weights (const_model 1))
      = (inr (), (loaded, out))
    ∧ load_weights (const_model 2) "weights.json" (export_weights (const_model 1))
      = (inr (), (loaded, out)).
Proof.
  destruct (export_loadable (const_model 1)) as (L1 & L2 & L3 & L4).
  apply (load_overwrites_every_parameter (const_model 0) (const_model 2)
           "weights.json" (export_weights (const_model 1))).
  - apply const_model_has_shape.
  - apply const_model_has_shape.
  - apply Forall_app. by split.
  - apply Forall_app. by split.
Defined.

(** X18. The loader has no rollback: when the first entry is in the archive
    and the second is missing, the load raises [KeyError] of the second key
    after it has overwritten the first layer; nothing is printed and every
    other layer is as before. *)
Theorem load_has_no_rollback (model : PolicyValueNetwork.t) (path : string)
    (w : gmap string jvalue) (kernel : list (list R)) (bias : list R) :
  w !! "state_encoder_fc1" = Some (JLinear kernel bias) →
  rectangular kernel = true →
  w !! "state_encoder_ln1" = None →
  load_weights model path w
    = (inl (KeyError "state_encoder_ln1"),
       (PolicyValueNetwork.over_state_encoder
          (StateEncoder.over_fc1 (λ _, Linear.mk (transpose kernel) bias)) model,
        [])).
Proof.
  intros E1 Hr E2.
  unfold load_weights, load_weights_body, load_linear, load_layernorm,
    get_kernel, get_bias, get_gamma, np_array, mbind, Load_bind, mret,
    Load_ret, modify, raise.
  rewrite E1. cbn [fst snd]. rewrite Hr, E2. reflexivity.
Qed.

Lemma load_has_no_rollback_witness :
  load_weights (const_model 0) "old.json"
      {[ "state_encoder_fc1" := JLinear [[1; 2]] [3; 4] ]}
    = (inl (KeyError "state_encoder_ln1"),
       (PolicyValueNetwork.over_state_encoder
          (StateEncoder.over_fc1 (λ _, Linear.mk (transpose [[1; 2]]) [3; 4]))
          (const_model 0),
        [])).
Proof.
  apply (load_has_no_rollback (const_model 0) "old.json"
           {[ "state_encoder_fc1" := JLinear [[1; 2]] [3; 4] ]}
           [[1; 2]] [3; 4]); reflexivity.
Defined.

(** X19. The loader checks no shape: an archive whose first kernel has a
    number of rows other than [STATE_SIZE] loads like any other, and the
    model it leaves rejects every state vector of the documented length. *)
Theorem load_checks_no_shape (model : PolicyValueNetwork.t) (path : string)
    (w : gmap string jvalue) (row : list R) (rows : list (list R))
    (bias : list R) :
  Forall (loadable_linear w) (MANDATORY_LINEAR ++ OPTIONAL_LINEAR) →
  Forall (loadable_layernorm w) (MANDATORY_LAYERNORM ++ OPTIONAL_LAYERNORM) →
  w !! "state_encoder_fc1" = Some (JLinear (row :: rows) bias) →
  row ≠ [] →
  length (row :: rows) ≠ STATE_SIZE →
  ∃ loaded out,
    load_weights model path w = (inr (), (loaded, out))
    ∧ ∀ states action_features action_mask,
        length states = STATE_SIZE →
        PolicyValueNetwork.forward loaded states action_features action_mask
          = None.
Proof.
  intros [HL HOL]%Forall_app [HN HON]%Forall_app E Hrow Hlen.
  exists (loaded_model w model), (loaded_output w path).
  split; [apply load_weights_success; auto|].
  intros states action_features action_mask Hs. rewrite forward_unfold.
  assert (Hfc1 : Linear.weight (StateEncoder.fc1
                   (PolicyValueNetwork.state_encoder (loaded_model w model)))
                 = transpose (row :: rows)).
  { unfold loaded_model, stored_state_encoder, stored_linear.
    cbn [PolicyValueNetwork.state_encoder StateEncoder.fc1].
    change ("state_encoder" +:+ "_fc1") with "state_encoder_fc1".
    by rewrite E. }
  assert (Hnone : StateEncoder.forward
                    (PolicyValueNetwork.state_encoder (loaded_model w model))
                    states = None).
  { unfold StateEncoder.forward, Linear.forward, F.linear. rewrite Hfc1.
    rewrite decide_False; [done|]. intros [HF _].
    pose proof (transpose_rows (row :: rows)) as HT.
    destruct (transpose (row :: rows)) as [|c T] eqn:ET.
    - apply (f_equal length) in ET.
      rewrite (length_transpose (row :: rows) row eq_refl) in ET.
      destruct row; done.
    - inversion HF; inversion HT; subst. congruence. }
  by rewrite Hnone.
Qed.

Lemma load_checks_no_shape_witness :
  ∃ loaded out,
    load_weights (const_model 0) "weights.json"
      (<["state_encoder_fc1" := JLinear [[1; 2]] [3; 4]]>
         (export_weights (const_model 1)))
      = (inr (), (loaded, out))
    ∧ ∀ states action_features action_mask,
        length states = STATE_SIZE →
        PolicyValueNetwork.forward loaded states action_features action_mask
          = None.
Proof.
  apply (load_checks_no_shape (const_model 0) "weights.json"
           (<["state_encoder_fc1" := JLinear [[1; 2]] [3; 4]]>
              (export_weights (const_model 1)))
           [1; 2] [] [3; 4]).
  - unfold MANDATORY_LINEAR, OPTIONAL_LINEAR. cbn [app].
    repeat (apply List.Forall_cons || apply List.Forall_nil);
      (eexists _, _; split;
       [reflexivity | first [apply rectangular_transpose | reflexivity]]).
  - unfold MANDATORY_LAYERNORM, OPTIONAL_LAYERNORM. cbn [app].
    repeat (apply List.Forall_cons || apply List.Forall_nil);
      (eexists _, _; reflexivity).
  - reflexivity.
  - discriminate.
  - cbn. unfold STATE_SIZE. lia.
Defined.

(** ** The test case of [verify_inference.py] *)

Lemma mask_scores_all_valid (raw : list R) (n : nat) :
  length raw = n → mask_scores raw (replicate n true) = map Fin raw.
Proof.
  intros <-. induction raw as [|r raw IH]; [done|].
  cbn [length replicate]. rewrite mask_scores_cons. cbn [map]. by rewrite IH.
Qed.

(** ** Replaying the archive, sub-network by sub-network *)

Lemma replay_state_encoder (m : PolicyValueNetwork.t) (x : list R) :
  PolicyValueNetwork.has_shape m →
  run_archive (export_weights m) "state_encoder" x
    = StateEncoder.forward (PolicyValueNetwork.state_encoder m) x.
Proof.
  intros ((S1 & S2 & S3 & S4) & _).
  assert (Hstate : (0 < STATE_SIZE)%nat) by (unfold STATE_SIZE; lia).
  rewrite StateEncoder_forward_layers. unfold run_archive.
  rewrite manifest_of_state_encoder.
  cbn [mbind option_bind run_ops StateEncoder_layers run_layers].
  replay_linear S1.
  destruct (run_layer _ x) as [x1|]; [|done]. cbn [mbind option_bind].
  replay_layernorm S2.
  destruct (run_layer _ x1) as [x2|]; [|done]. cbn [mbind option_bind].
  change (apply_op _ op_relu x2) with (Some (F.relu x2)).
  change (run_layer LRelu x2) with (Some (F.relu x2)).
  cbn [mbind option_bind].
  replay_linear S3.
  destruct (run_layer _ (F.relu x2)) as [x3|]; [|done]. cbn [mbind option_bind].
  replay_layernorm S4.
  by destruct (run_layer _ x3).
Qed.

Lemma replay_value_state_encoder (m : PolicyValueNetwork.t) (x : list R) :
  PolicyValueNetwork.has_shape m →
  run_archive (export_weights m) "value_state_encoder" x
    = StateEncoder.forward (PolicyValueNetwork.value_state_encoder m) x.
Proof.
  intros (_ & (V1 & V2 & V3 & V4) & _).
  assert (Hstate : (0 < STATE_SIZE)%nat) by (unfold STATE_SIZE; lia).
  rewrite StateEncoder_forward_layers. unfold run_archive.
  rewrite manifest_of_value_state_encoder.
  cbn [mbind option_bind run_ops StateEncoder_layers run_layers].
  replay_linear V1.
  destruct (run_layer _ x) as [x1|]; [|done]. cbn [mbind option_bind].
  replay_layernorm V2.
  destruct (run_layer _ x1) as [x2|]; [|done]. cbn [mbind option_bind].
  change (apply_op _ op_relu x2) with (Some (F.relu x2)).
  change (run_layer LRelu x2) with (Some (F.relu x2)).
  cbn [mbind option_bind].
  replay_linear V3.
  destruct (run_layer _ (F.relu x2)) as [x3|]; [|done]. cbn [mbind option_bind].
  replay_layernorm V4.
  by destruct (run_layer _ x3).
Qed.

Lemma replay_action_encoder (m : PolicyValueNetwork.t) (x : list R) :
  PolicyValueNetwork.has_shape m →
  run_archive (export_weights m) "action_encoder" x
    = ActionEncoder.forward (PolicyValueNetwork.action_encoder m) x.
Proof.
  intros (_ & _ & (A1 & A2 & A3) & _).
  assert (Haction : (0 < ACTION_SIZE)%nat) by (unfold ACTION_SIZE; lia).
  rewrite ActionEncoder_forward_layers. unfold run_archive.
  rewrite manifest_of_action_encoder.
  cbn [mbind option_bind run_ops ActionEncoder_layers run_layers].
  replay_linear A1.
  destruct (run_layer _ x) as [x1|]; [|done]. cbn [mbind option_bind].
  replay_layernorm A2.
  destruct (run_layer _ x1) as [x2|]; [|done]. cbn [mbind option_bind].
  change (apply_op _ op_relu x2) with (Some (F.relu x2)).
  change (run_layer LRelu x2) with (Some (F.relu x2)).
  cbn [mbind option_bind].
  by replay_linear A3.
Qed.

Lemma replay_action_scorer (m : PolicyValueNetwork.t) (s a : list R) :
  PolicyValueNetwork.has_shape m →
  run_archive (export_weights m) "action_scorer" (torch.cat s a) ≫= torch.squeeze
    = ActionScorer.forward (PolicyValueNetwork.action_scorer m) s a.
Proof.
  intros (_ & _ & _ & (C1 & C2 & C3) & _).
  rewrite ActionScorer_forward_layers. f_equal. unfold run_archive.
  rewrite manifest_of_action_scorer.
  cbn [mbind option_bind run_ops ActionScorer_layers run_layers].
  replay_linear C1.
  destruct (run_layer _ (torch.cat s a)) as [x1|]; [|done]. cbn [mbind option_bind].
  replay_layernorm C2.
  destruct (run_layer _ x1) as [x2|]; [|done]. cbn [mbind option_bind].
  change (apply_op _ op_relu x2) with (Some (F.relu x2)).
  change (run_layer LRelu x2) with (Some (F.relu x2)).
  cbn [mbind option_bind].
  by replay_linear C3.
Qed.

Lemma replay_value_head (m : PolicyValueNetwork.t) (x : list R) :
  PolicyValueNetwork.has_shape m →
  run_archive (export_weights m) "value_head" x ≫= torch.squeeze
    = ValueHead.forward (PolicyValueNetwork.value_head m) x.
Proof.
  intros (_ & _ & _ & _ & (H1 & H2)).
  rewrite ValueHead_forward_layers. f_equal. unfold run_archive.
  rewrite manifest_of_value_head.
  cbn [mbind option_bind run_ops ValueHead_layers run_layers].
  replay_linear H1.
  destruct (run_layer _ x) as [x1|]; [|done]. cbn [mbind option_bind].
  change (apply_op _ op_relu x1) with (Some (F.relu x1)).
  change (run_layer LRelu x1) with (Some (F.relu x1)).
  cbn [mbind option_bind].
  replay_linear H2.
  by destruct (run_layer _ (F.relu x1)).
Qed.

(** The executor's forward pass over an exported archive is the model's, on
    every input. *)
Lemma executor_forward_export (m : PolicyValueNetwork.t) (state : list R)
    (actions : list (list R)) :
  PolicyValueNetwork.has_shape m →
  executor_forward (export_weights m) state actions
    = (state_embed ←
         StateEncoder.forward (PolicyValueNetwork.state_encoder m) state;
       value_state_embed ←
         StateEncoder.forward (PolicyValueNetwork.value_state_encoder m) state;
       action_embed ←
         mapM (ActionEncoder.forward (PolicyValueNetwork.action_encoder m)) actions;
       flat_scores ←
         mapM (ActionScorer.forward (PolicyValueNetwork.action_scorer m) state_embed)
              action_embed;
       values ← ValueHead.forward (PolicyValueNetwork.value_head m) value_state_embed;
       Some (flat_scores, values)).
Proof.
  intros Hm. unfold executor_forward.
  rewrite replay_state_encoder, replay_value_state_encoder by done.
  destruct (StateEncoder.forward (PolicyValueNetwork.state_encoder m) state)
    as [se|]; [|done].
  cbn [mbind option_bind].
  destruct (StateEncoder.forward (PolicyValueNetwork.value_state_encoder m) state)
    as [vse|]; [|done].
  cbn [mbind option_bind].
  rewrite (mapM_ext _ (ActionEncoder.forward (PolicyValueNetwork.action_encoder m)))
    by (intros x; by apply replay_action_encoder).
  destruct (mapM _ actions) as [ae|]; [|done]. cbn [mbind option_bind].
  rewrite (mapM_ext _ (ActionScorer.forward (PolicyValueNetwork.action_scorer m) se))
    by (intros a; by apply replay_action_scorer).
  destruct (mapM _ ae) as [raw|]; [|done]. cbn [mbind option_bind].
  by rewrite replay_value_head.
Qed.

(** X21. The two runtimes agree on the test case: a generic executor that
    replays the archive [main] wrote, on the inputs of the test case [main]
    wrote, computes the expected scores and the expected value, and the
    expected policy is the softmax of those scores. *)
Theorem test_case_is_reproduced_by_replay (model : PolicyValueNetwork.t)
    (state : list R) (actions : list (list R)) :
  PolicyValueNetwork.has_shape model →
  length state = STATE_SIZE →
  length actions = NUM_ACTIONS →
  Forall (λ a, length a = ACTION_SIZE) actions →
  ∃ weights tc scores,
    main model state actions = Some (weights, tc)
    ∧ executor_forward weights (TestCase.state tc) (TestCase.actions tc)
      = Some (scores, TestCase.expected_value tc)
    ∧ TestCase.expected_scores tc = map Fin scores
    ∧ TestCase.expected_policy tc = F.softmax (map Fin scores).
Proof.
  intros Hm Hs Hn Ha.
  assert (Hd : documented_shapes state actions (replicate NUM_ACTIONS true)).
  { split; [done|]. split; [done|]. split.
    - intros ->. discriminate.
    - by rewrite length_replicate. }
  destruct (forward_documented model state actions _ Hm Hd)
    as (raw & z & Eraw & Lraw & Ez & Hf).
  rewrite Hn in Lraw. rewrite (mask_scores_all_valid raw _ Lraw) in Hf.
  exists (export_weights model),
    (TestCase.mk state actions (map Fin raw) (torch.tanh z)
       (F.softmax (map Fin raw))), raw.
  split; [unfold main; rewrite Hf; reflexivity|].
  split; [|done].
  cbn [TestCase.state TestCase.actions TestCase.expected_value].
  rewrite executor_forward_export by done.
  unfold raw_score, state_value in Eraw, Ez.
  destruct (StateEncoder.forward (PolicyValueNetwork.state_encoder model) state)
    as [se|]; cbn [mbind option_bind] in *.
  2: { rewrite mapM_None_const in Eraw; [done|]. intros ->. discriminate. }
  rewrite mapM_bind in Eraw.
  destruct (StateEncoder.forward (PolicyValueNetwork.value_state_encoder model)
              state) as [vse|]; cbn [mbind option_bind] in *; [|done].
  destruct (mapM _ actions) as [ae|]; cbn [mbind option_bind] in *; [|done].
  change (mapM (ActionScorer.forward (PolicyValueNetwork.action_scorer model) se) ae
            = Some raw) in Eraw.
  rewrite Eraw. cbn [mbind option_bind]. rewrite Ez. done.
Qed.

Lemma test_case_is_reproduced_by_replay_witness :
  ∃ weights tc scores,
    main (const_model 1) sample_state
      [sample_action 1; sample_action 2; sample_action 3; sample_action 4;
       sample_action 5]
      = Some (weights, tc)
    ∧ executor_forward weights (TestCase.state tc) (TestCase.actions tc)
      = Some (scores, TestCase.expected_value tc)
    ∧ TestCase.expected_scores tc = map Fin scores
    ∧ TestCase.expected_policy tc = F.softmax (map Fin scores).
Proof.
  apply (test_case_is_reproduced_by_replay (const_model 1) sample_state
           [sample_action 1; sample_action 2; sample_action 3; sample_action 4;
            sample_action 5]).
  - apply const_model_has_shape.
  - apply sample_state_length.
  - reflexivity.
  - repeat constructor; apply sample_action_length.
Defined.

(** * The forward pass over binary32: proofs *)

(** ** Rounding never yields NaN, and keeps the magnitude *)
















(** ** Sums of exponentials *)


Lemma f32_at_least_one_nonneg (x : Float32.float32) :
  Float32.at_least_one x = true → Float32.nonneg x = true.
Proof. by destruct x as [[]|[]| |[] ? ?]. Qed.







Lemma f32_sum_nan (e : list Float32.float32) :
  Float32.nan ∈ e → Float32.torch.sum e = Float32.nan.
Proof.
  induction e as [|y e IH]; intros Hin; [by apply elem_of_nil in Hin|].
  apply elem_of_cons in Hin as [<-|Hin]; [done|].
  change (Float32.torch.sum (y :: e)) with (Float32.add y (Float32.torch.sum e)).
  rewrite (IH Hin). by destruct y as [[]|[]| |[] ? ?].
Qed.


(** ** Differences of scores *)

Lemma f32_sub_diag (x : Float32.float32) :
  Float32.is_finite x = true → Float32.sub x x = Float32.zero.
Proof.
  destruct x as [[]|[]| |s m e]; try done. intros _.
  unfold Float32.sub, SFsub. by rewrite Z.sub_diag.
Qed.


Lemma f32_sub_neg_inf_finite (m : Float32.float32) :
  Float32.is_finite m = true → Float32.sub Float32.neg_inf m = Float32.neg_inf.
Proof. by destruct m as [[]|[]| |[] ? ?]. Qed.

(** ** The maximum of a row *)

Lemma f32_maximum_cases (a b : Float32.float32) :
  Float32.torch.maximum a b = Float32.nan
  ∨ Float32.torch.maximum a b = a ∨ Float32.torch.maximum a b = b.
Proof.
  unfold Float32.torch.maximum. destruct (SFcompare a b) as [[]|]; auto.
Qed.

Lemma f32_maximum_numbers (a b : Float32.float32) :
  Float32.is_finite a = true → Float32.is_finite b = true →
  Float32.torch.maximum a b = a ∨ Float32.torch.maximum a b = b.
Proof.
  intros Ha Hb. unfold Float32.torch.maximum.
  assert (H : is_Some (SFcompare a b))
    by (destruct a as [[]|[]| |[] ? ?], b as [[]|[]| |[] ? ?]; done).
  destruct H as [c ->]. destruct c; auto.
Qed.

Lemma f32_maximum_nan_r (a : Float32.float32) :
  Float32.torch.maximum a Float32.nan = Float32.nan.
Proof. by destruct a as [[]|[]| |[] ? ?]. Qed.


(** The maximum of a non-empty row is NaN or one of its entries. *)
Lemma f32_max_elem (l : list Float32.float32) :
  l ≠ [] → Float32.torch.max l = Float32.nan ∨ Float32.torch.max l ∈ l.
Proof.
  induction l as [|a l IH]; [done|]. intros _.
  change (Float32.torch.max (a :: l))
    with (Float32.torch.maximum a (Float32.torch.max l)).
  destruct l as [|b l].
  - change (Float32.torch.max []) with Float32.neg_inf.
    destruct a as [[]|[]| |[] ? ?]; cbn; first [by left | right; by left].
  - destruct (IH ltac:(done)) as [->|Hin].
    + left. apply f32_maximum_nan_r.
    + destruct (f32_maximum_cases a (Float32.torch.max (b :: l)))
        as [-> | [-> | ->]]; [by left | right; by left | right; by right].
Qed.

(** Over numbers and masked positions, the maximum is a number of the row,
    unless every position is masked. *)
Lemma f32_max_masked (l : list Float32.float32) :
  Forall Float32.number_or_masked l →
  (Float32.torch.max l = Float32.neg_inf ∧ Forall (λ x, x = Float32.neg_inf) l)
  ∨ (Float32.is_finite (Float32.torch.max l) = true ∧ Float32.torch.max l ∈ l).
Proof.
  induction 1 as [|a l Ha _ IH]; [by left|].
  change (Float32.torch.max (a :: l))
    with (Float32.torch.maximum a (Float32.torch.max l)).
  destruct Ha as [Ha| ->], IH as [[-> Hl]|[Hm Hin]].
  - right. replace (Float32.torch.maximum a Float32.neg_inf) with a
      by (by destruct a as [[]|[]| |[] ? ?]).
    split; [done | by left].
  - right. destruct (f32_maximum_numbers a _ Ha Hm) as [->| ->];
      [split; [done | by left] | split; [done | by right]].
  - left. split; [done | by constructor].
  - right. replace (Float32.torch.maximum Float32.neg_inf (Float32.torch.max l))
      with (Float32.torch.max l)
      by (by destruct (Float32.torch.max l) as [[]|[]| |[] ? ?]).
    split; [done | by right].
Qed.

(** ** Softmax *)


Lemma f32_map_const {A B} (f : A → B) (c : B) (l : list A) :
  (∀ x, f x = c) → map f l = replicate (length l) c.
Proof. intros H. induction l as [|a l IH]; [done|]. cbn. by rewrite H, IH. Qed.

(** When the maximum of the scores is not a number, the softmax is NaN at
    every position. *)
Lemma f32_softmax_not_finite (M : Float32.libm) (l : list Float32.float32) :
  l ≠ [] → Float32.is_finite (Float32.torch.max l) = false →
  Float32.F.softmax M l = replicate (length l) Float32.nan.
Proof.
  intros Hne Hm. unfold Float32.F.softmax. cbv zeta.
  set (m := Float32.torch.max l) in *.
  set (f := λ x, Float32.torch.exp M (Float32.sub x m)).
  assert (Hnan : Float32.nan ∈ map f l).
  { assert (Hx : ∃ x, x ∈ l ∧ f x = Float32.nan).
    { destruct (f32_max_elem l Hne) as [E|Hin]; [fold m in E | fold m in Hin].
      - destruct l as [|a l]; [done|]. exists a. split; [by left|].
        unfold f. rewrite E. by destruct a as [[]|[]| |[] ? ?].
      - exists m. split; [done|]. unfold f.
        by destruct m as [[]|[]| |[] ? ?]. }
    destruct Hx as (x & Hin & Hx). rewrite <- Hx.
    by apply (list_elem_of_fmap_2 f). }
  rewrite (f32_sum_nan _ Hnan).
  rewrite (f32_map_const _ Float32.nan); [by rewrite length_map|].
  intros y. by destruct y as [[]|[]| |[] ? ?].
Qed.


Lemma f32_sum_zeros (n : nat) :
  Float32.torch.sum (replicate n Float32.zero) = Float32.zero.
Proof. induction n as [|n IH]; [done|]. cbn. unfold Float32.torch.sum in IH. by rewrite IH. Qed.

Lemma f32_sum_one_hot (n k : nat) :
  (k < n)%nat → Float32.torch.sum (Float32.one_hot n k) = Float32.one.
Proof.
  unfold Float32.one_hot. revert k.
  induction n as [|n IH]; intros k Hk; [lia|].
  destruct k as [|k]; cbn [replicate insert list_insert].
  - change (Float32.torch.sum (?a :: ?l)) with (Float32.add a (Float32.torch.sum l)).
    by rewrite f32_sum_zeros.
  - change (Float32.torch.sum (?a :: ?l)) with (Float32.add a (Float32.torch.sum l)).
    rewrite IH by lia. done.
Qed.

(** With one number in the row and every other position masked, the softmax
    is exactly 1 at the number and 0 elsewhere. *)
Lemma f32_softmax_one_hot (M : Float32.libm) (l : list Float32.float32)
    (k : nat) (x : Float32.float32) :
  l !! k = Some x → Float32.is_finite x = true →
  (∀ i, i ≠ k → (i < length l)%nat → l !! i = Some Float32.neg_inf) →
  Float32.F.softmax M l = Float32.one_hot (length l) k.
Proof.
  intros Hk Hx Hrest.
  assert (Hlt : (k < length l)%nat) by (by eapply lookup_lt_Some).
  assert (Hl : Forall Float32.number_or_masked l).
  { apply Forall_lookup. intros i y Hi.
    destruct (decide (i = k)) as [->|Hne].
    - left. by rewrite Hk in Hi; injection Hi as <-.
    - right. apply lookup_lt_Some in Hi as Hlen.
      rewrite (Hrest i Hne Hlen) in Hi. by injection Hi. }
  assert (Hm : Float32.torch.max l = x).
  { destruct (f32_max_masked l Hl) as [[_ Hall]|[Hm Hin]].
    - rewrite Forall_lookup in Hall. by rewrite (Hall k x Hk) in Hx.
    - apply list_elem_of_lookup in Hin as [i Hi].
      destruct (decide (i = k)) as [->|Hne]; [by rewrite Hk in Hi; injection Hi|].
      apply lookup_lt_Some in Hi as Hlen.
      rewrite (Hrest i Hne Hlen) in Hi. injection Hi as Hi.
      by rewrite <- Hi in Hm. }
  unfold Float32.F.softmax. cbv zeta. rewrite Hm.
  set (f := λ y, Float32.torch.exp M (Float32.sub y x)).
  assert (He : map f l = Float32.one_hot (length l) k).
  { apply list_eq. intros i. unfold Float32.one_hot.
    change (map f l) with (f <$> l). rewrite list_lookup_fmap.
    destruct (decide (i = k)) as [->|Hne].
    - rewrite Hk, list_lookup_insert_eq by (by rewrite length_replicate).
      cbn. unfold f. by rewrite f32_sub_diag.
    - rewrite list_lookup_insert_ne by done.
      destruct (decide (i < length l)%nat) as [Hi|Hi].
      + rewrite (Hrest i Hne Hi), lookup_replicate_2 by done. cbn.
        unfold f. by rewrite f32_sub_neg_inf_finite.
      + rewrite lookup_ge_None_2 by lia. cbn.
        symmetry. apply lookup_ge_None_2. rewrite length_replicate. lia. }
  rewrite He, f32_sum_one_hot by done.
  apply list_eq. intros i. unfold Float32.one_hot.
  change (map ?g ?j) with (g <$> j). rewrite list_lookup_fmap.
  destruct (decide (i = k)) as [->|Hne].
  - by rewrite list_lookup_insert_eq by (by rewrite length_replicate).
  - rewrite list_lookup_insert_ne by done.
    destruct (decide (i < length l)%nat) as [Hi|Hi].
    + by rewrite lookup_replicate_2.
    + rewrite lookup_ge_None_2; [done|]. rewrite length_replicate. lia.
Qed.

(** ** The layers return on inputs of the constructed shapes *)

Lemma f32_linear_forward_Some (l : Float32.Linear.t) (i o : nat)
    (x : list Float32.float32) :
  Float32.Linear.has_shape i o l → length x = i →
  ∃ y, Float32.Linear.forward l x = Some y ∧ length y = o.
Proof.
  intros (Hw & Hrows & Hb) Hx. unfold Float32.Linear.forward, Float32.F.linear.
  rewrite decide_True.
  - eexists; split; [done|]. rewrite length_zip_with, length_map. lia.
  - split; [|lia]. eapply Forall_impl; [exact Hrows|]. simpl. lia.
Qed.

Lemma f32_layernorm_forward_Some (n : Float32.LayerNorm.t) (k : nat)
    (x : list Float32.float32) :
  Float32.LayerNorm.has_shape k n → length x = k →
  ∃ y, Float32.LayerNorm.forward n x = Some y ∧ length y = k.
Proof.
  intros (Hs & Hw & Hb) Hx.
  unfold Float32.LayerNorm.forward, Float32.F.layer_norm.
  rewrite decide_True by lia. eexists; split; [done|].
  rewrite !length_zip_with, length_map. lia.
Qed.

Lemma f32_length_relu (x : list Float32.float32) :
  length (Float32.F.relu x) = length x.
Proof. apply length_map. Qed.

Lemma f32_StateEncoder_forward_Some (e : Float32.StateEncoder.t) (h d : nat)
    (x : list Float32.float32) :
  Float32.StateEncoder.has_shape h d e → length x = STATE_SIZE →
  ∃ y, Float32.StateEncoder.forward e x = Some y ∧ length y = d.
Proof.
  intros (H1 & H2 & H3 & H4) Hx. unfold Float32.StateEncoder.forward.
  destruct (f32_linear_forward_Some _ _ _ x H1 Hx) as (y1 & -> & L1).
  cbn [mbind option_bind].
  destruct (f32_layernorm_forward_Some _ _ _ H2 L1) as (y2 & -> & L2).
  cbn [mbind option_bind]. rewrite <- f32_length_relu in L2.
  destruct (f32_linear_forward_Some _ _ _ _ H3 L2) as (y3 & -> & L3).
  cbn [mbind option_bind].
  destruct (f32_layernorm_forward_Some _ _ _ H4 L3) as (y4 & -> & L4).
  cbn [mbind option_bind]. eexists; split; [done|]. by rewrite f32_length_relu.
Qed.

Lemma f32_ActionEncoder_forward_Some (e : Float32.ActionEncoder.t) (h d : nat)
    (x : list Float32.float32) :
  Float32.ActionEncoder.has_shape h d e → length x = ACTION_SIZE →
  ∃ y, Float32.ActionEncoder.forward e x = Some y ∧ length y = d.
Proof.
  intros (H1 & H2 & H3) Hx. unfold Float32.ActionEncoder.forward.
  destruct (f32_linear_forward_Some _ _ _ x H1 Hx) as (y1 & -> & L1).
  cbn [mbind option_bind].
  destruct (f32_layernorm_forward_Some _ _ _ H2 L1) as (y2 & -> & L2).
  cbn [mbind option_bind]. rewrite <- f32_length_relu in L2.
  destruct (f32_linear_forward_Some _ _ _ _ H3 L2) as (y3 & -> & L3).
  cbn [mbind option_bind]. by eexists.
Qed.

Lemma f32_ActionScorer_forward_Some (e : Float32.ActionScorer.t)
    (sd ad h : nat) (s a : list Float32.float32) :
  Float32.ActionScorer.has_shape sd ad h e → length s = sd → length a = ad →
  ∃ y, Float32.ActionScorer.forward e s a = Some y.
Proof.
  intros (H1 & H2 & H3) Hs Ha.
  unfold Float32.ActionScorer.forward, Float32.torch.cat.
  assert (Hx : length (s ++ a) = (sd + ad)%nat) by (rewrite length_app; lia).
  destruct (f32_linear_forward_Some _ _ _ _ H1 Hx) as (y1 & -> & L1).
  cbn [mbind option_bind].
  destruct (f32_layernorm_forward_Some _ _ _ H2 L1) as (y2 & -> & L2).
  cbn [mbind option_bind]. rewrite <- f32_length_relu in L2.
  destruct (f32_linear_forward_Some _ _ _ _ H3 L2) as (y3 & -> & L3).
  cbn [mbind option_bind].
  destruct (length_1_inv _ L3) as [y ->]. by exists y.
Qed.

(** The value head returns the hyperbolic tangent of its last affine
    layer's output. *)
Lemma f32_ValueHead_forward_Some (M : Float32.libm) (e : Float32.ValueHead.t)
    (sd h : nat) (x : list Float32.float32) :
  Float32.ValueHead.has_shape sd h e → length x = sd →
  ∃ z, Float32.ValueHead.forward M e x = Some (Float32.torch.tanh M z).
Proof.
  intros (H1 & H2) Hx. unfold Float32.ValueHead.forward.
  destruct (f32_linear_forward_Some _ _ _ _ H1 Hx) as (y1 & -> & L1).
  cbn [mbind option_bind]. rewrite <- f32_length_relu in L1.
  destruct (f32_linear_forward_Some _ _ _ _ H2 L1) as (y2 & -> & L2).
  cbn [mbind option_bind].
  destruct (length_1_inv _ L2) as [z ->]. by exists z.
Qed.

(** ** The forward pass on inputs of the documented shapes *)

Lemma f32_mask_scores_lookup (raw : list Float32.float32)
    (action_mask : list bool) (i : nat) :
  Float32.mask_scores raw action_mask !! i
    = (x ← raw !! i; b ← action_mask !! i;
       Some (if b : bool then x else Float32.neg_inf)).
Proof.
  unfold Float32.mask_scores. rewrite lookup_zip_with.
  change (map negb action_mask) with (negb <$> action_mask).
  rewrite list_lookup_fmap.
  destruct (raw !! i) as [x|]; cbn; [|done].
  by destruct (action_mask !! i) as [[]|].
Qed.

Lemma f32_length_mask_scores (raw : list Float32.float32)
    (action_mask : list bool) :
  length raw = length action_mask →
  length (Float32.mask_scores raw action_mask) = length action_mask.
Proof.
  intros H. unfold Float32.mask_scores. rewrite length_zip_with, length_map. lia.
Qed.

Lemma f32_forward_documented (M : Float32.libm)
    (m : Float32.PolicyValueNetwork.t) (states : list Float32.float32)
    (action_features : list (list Float32.float32)) (action_mask : list bool) :
  Float32.PolicyValueNetwork.has_shape m →
  Float32.documented_shapes states action_features action_mask →
  ∃ raw z,
    Float32.PolicyValueNetwork.forward M m states action_features action_mask
      = Some (Float32.mask_scores raw action_mask, Float32.torch.tanh M z)
    ∧ length raw = length action_mask.
Proof.
  intros (Hse & Hvse & Hae & Has & Hvh) (Hs & Ha & Hne & Hm).
  unfold Float32.PolicyValueNetwork.forward.
  destruct (f32_StateEncoder_forward_Some _ _ _ _ Hse Hs) as (se & -> & Lse).
  destruct (f32_StateEncoder_forward_Some _ _ _ _ Hvse Hs) as (vse & -> & Lvse).
  cbn [mbind option_bind].
  unfold Float32.PolicyValueNetwork.reshape_actions.
  rewrite decide_True by done. cbn [mbind option_bind].
  destruct (mapM_Forall_Some
              (Float32.ActionEncoder.forward
                 (Float32.PolicyValueNetwork.action_encoder m))
              (λ y, length y = 64%nat) action_features) as (ae & Eae & Pae & Lae).
  { eapply Forall_impl; [exact Ha|]. intros a La.
    by apply (f32_ActionEncoder_forward_Some _ _ _ _ Hae). }
  rewrite Eae. cbn [mbind option_bind].
  rewrite <- Lae, mapM_zip_replicate.
  destruct (mapM_Forall_Some
              (Float32.ActionScorer.forward
                 (Float32.PolicyValueNetwork.action_scorer m) se)
              (λ _, True) ae) as (raw & -> & _ & Lraw).
  { eapply Forall_impl; [exact Pae|]. intros a La.
    destruct (f32_ActionScorer_forward_Some _ _ _ _ se a Has Lse La) as [y Hy].
    by exists y. }
  cbn [mbind option_bind].
  unfold Float32.torch.masked_fill.
  rewrite decide_True by (rewrite length_map; lia). cbn [mbind option_bind].
  destruct (f32_ValueHead_forward_Some M _ _ _ _ Hvh Lvse) as (z & ->).
  cbn [mbind option_bind]. exists raw, z. split; [done | lia].
Qed.


(** ** One valid action *)

Lemma count_valid_cons (b : bool) (action_mask : list bool) :
  count_valid (b :: action_mask)
    = if b then S (count_valid action_mask) else count_valid action_mask.
Proof. unfold count_valid. cbn. by destruct b. Qed.

Lemma f32_count_valid_zero (action_mask : list bool) (i : nat) :
  count_valid action_mask = 0%nat → (i < length action_mask)%nat →
  action_mask !! i = Some false.
Proof.
  revert i. induction action_mask as [|b mask IH]; intros i; [cbn; lia|].
  rewrite count_valid_cons. destruct b; [done|]. intros Hc Hi.
  destruct i as [|i]; [done|]. apply IH; [done | cbn in Hi; lia].
Qed.

Lemma f32_count_valid_lookup (action_mask : list bool) (k : nat) :
  action_mask !! k = Some true → count_valid action_mask ≠ 0%nat.
Proof.
  revert k. induction action_mask as [|b mask IH]; intros k; [done|].
  rewrite count_valid_cons. destruct b; [done|].
  destruct k as [|k]; [done|]. apply IH.
Qed.

Lemma f32_single_valid_elsewhere (action_mask : list bool) (k i : nat) :
  count_valid action_mask = 1%nat → action_mask !! k = Some true →
  i ≠ k → (i < length action_mask)%nat → action_mask !! i = Some false.
Proof.
  revert k i. induction action_mask as [|b mask IH]; intros k i; [cbn; lia|].
  rewrite count_valid_cons. intros Hc Hk Hne Hi.
  destruct k as [|k].
  - injection Hk as ->. injection Hc as Hc.
    destruct i as [|i]; [done|].
    apply (f32_count_valid_zero mask i Hc). cbn in Hi. lia.
  - cbn in Hk. pose proof (f32_count_valid_lookup mask k Hk) as Hpos.
    destruct b; [lia|]. destruct i as [|i]; [done|].
    apply (IH k i); [done | done | lia | cbn in Hi; lia].
Qed.

(** ** The concrete parameters *)

Lemma f32_const_linear_has_shape (i o : nat) (c : Float32.float32) :
  Float32.Linear.has_shape i o (Float32.const_linear i o c).
Proof.
  unfold Float32.Linear.has_shape, Float32.const_linear.
  cbn [Float32.Linear.weight Float32.Linear.bias].
  rewrite !length_replicate. repeat split.
  apply Forall_replicate. by rewrite length_replicate.
Qed.

Lemma f32_unit_layernorm_has_shape (n : nat) :
  Float32.LayerNorm.has_shape n (Float32.unit_layernorm n).
Proof.
  unfold Float32.LayerNorm.has_shape, Float32.unit_layernorm.
  cbn [Float32.LayerNorm.normalized_shape Float32.LayerNorm.weight
       Float32.LayerNorm.bias].
  by rewrite !length_replicate.
Qed.

Lemma f32_const_model_has_shape (c : Float32.float32) :
  Float32.PolicyValueNetwork.has_shape (Float32.const_model c).
Proof.
  unfold Float32.PolicyValueNetwork.has_shape, Float32.const_model,
    Float32.const_state_encoder, Float32.StateEncoder.has_shape,
    Float32.ActionEncoder.has_shape, Float32.ActionScorer.has_shape,
    Float32.ValueHead.has_shape.
  cbn [Float32.PolicyValueNetwork.state_encoder
       Float32.PolicyValueNetwork.value_state_encoder
       Float32.PolicyValueNetwork.action_encoder
       Float32.PolicyValueNetwork.action_scorer
       Float32.PolicyValueNetwork.value_head
       Float32.StateEncoder.fc1 Float32.StateEncoder.ln1
       Float32.StateEncoder.fc2 Float32.StateEncoder.ln2
       Float32.ActionEncoder.fc1 Float32.ActionEncoder.ln1
       Float32.ActionEncoder.fc2
       Float32.ActionScorer.fc1 Float32.ActionScorer.ln1
       Float32.ActionScorer.fc2
       Float32.ValueHead.fc1 Float32.ValueHead.fc2].
  repeat split;
    first [apply f32_const_linear_has_shape | apply f32_unit_layernorm_has_shape].
Qed.

Lemma f32_const_documented_shapes (c : Float32.float32)
    (actions : list (list Float32.float32)) (action_mask : list bool) :
  Forall (λ a, length a = ACTION_SIZE) actions →
  actions ≠ [] →
  length action_mask = length actions →
  Float32.documented_shapes (Float32.const_state c) actions action_mask.
Proof. intros. split; [apply length_replicate | done]. Qed.

Lemma f32_const_action_length (c : Float32.float32) :
  length (Float32.const_action c) = ACTION_SIZE.
Proof. apply length_replicate. Qed.




(** ** Layers whose rows are all equal *)

Lemma f32_bind_Some {A B} (f : A → option B) (a : A) : Some a ≫= f = f a.
Proof. reflexivity. Qed.

Lemma f32_mapM_two {A B} (f : A → option B) (a : A) (b : B) :
  f a = Some b → mapM f [a; a] = Some [b; b].
Proof. intros H. cbn. rewrite H. reflexivity. Qed.

Lemma f32_linear_const (i o : nat) (c : Float32.float32)
    (x : list Float32.float32) :
  length x = i →
  Float32.Linear.forward (Float32.const_linear i o c) x
  = Some (replicate o (Float32.add (Float32.F.dot x (replicate i c))
                                   Float32.zero)).
Proof.
  intros Hx. unfold Float32.Linear.forward, Float32.F.linear, Float32.const_linear.
  cbn [Float32.Linear.weight Float32.Linear.bias].
  rewrite decide_True.
  - f_equal. change (map ?f ?l) with (f <$> l).
    by rewrite fmap_replicate, zip_with_replicate.
  - split; [|by rewrite !length_replicate].
    apply Forall_replicate. by rewrite length_replicate.
Qed.

(** The normalization of a row whose entries are all [a], with scale 1 and
    shift 0. *)
Lemma f32_layernorm_const (n : nat) (a : Float32.float32) :
  Float32.LayerNorm.forward (Float32.unit_layernorm n) (replicate n a)
  = Some (replicate n
            (Float32.add
               (Float32.mul
                  (Float32.div
                     (Float32.sub a (Float32.F.mean (replicate n a)))
                     (Float32.sqrt
                        (Float32.add (Float32.F.var (replicate n a))
                                     Float32.LN_EPS)))
                  Float32.one)
               Float32.zero)).
Proof.
  unfold Float32.LayerNorm.forward, Float32.F.layer_norm, Float32.unit_layernorm.
  cbn [Float32.LayerNorm.normalized_shape Float32.LayerNorm.weight
       Float32.LayerNorm.bias].
  rewrite decide_True by (by rewrite !length_replicate).
  cbv zeta. f_equal. change (map ?f ?l) with (f <$> l).
  by rewrite fmap_replicate, !zip_with_replicate.
Qed.

Lemma f32_relu_replicate (n : nat) (a : Float32.float32) :
  Float32.F.relu (replicate n a) = replicate n (Float32.F.relu1 a).
Proof.
  unfold Float32.F.relu. change (map ?f ?l) with (f <$> l). apply fmap_replicate.
Qed.

(** A row of NaN stays a row of NaN. *)
Lemma f32_normalized_nan (d s : Float32.float32) :
  Float32.add (Float32.mul (Float32.div (Float32.sub Float32.nan d) s)
                           Float32.one) Float32.zero
  = Float32.nan.
Proof. reflexivity. Qed.

Lemma f32_dot_nan (n : nat) (c : Float32.float32) :
  Float32.add (Float32.F.dot (replicate (S n) Float32.nan) (replicate (S n) c))
              Float32.zero
  = Float32.nan.
Proof.
  unfold Float32.F.dot. rewrite zip_with_replicate.
  change (Float32.mul Float32.nan c) with Float32.nan.
  by rewrite f32_sum_nan by left.
Qed.

(** The sum of 501 copies of the largest finite float32 is infinite. *)
Lemma f32_dot_overflow :
  Float32.add
    (Float32.F.dot (replicate STATE_SIZE Float32.FLT_MAX)
                   (replicate STATE_SIZE Float32.one))
    Float32.zero
  = Float32.inf.
Proof. vm_compute. reflexivity. Qed.

(** The mean of a row of infinities is infinite, and infinity minus
    infinity is NaN. *)
Lemma f32_centered_inf :
  Float32.sub Float32.inf (Float32.F.mean (replicate 512 Float32.inf))
  = Float32.nan.
Proof. vm_compute. reflexivity. Qed.

(** The largest finite state on weights that are all 1: the first affine
    layer overflows to infinity, the normalization that follows subtracts
    infinity from infinity, and the embedding is NaN throughout. *)
Lemma f32_state_encoder_overflow :
  Float32.StateEncoder.forward (Float32.const_state_encoder Float32.one)
    (Float32.const_state Float32.FLT_MAX)
  = Some (replicate 256 Float32.nan).
Proof.
  unfold Float32.StateEncoder.forward, Float32.const_state_encoder,
    Float32.const_state.
  cbn [Float32.StateEncoder.fc1 Float32.StateEncoder.ln1
       Float32.StateEncoder.fc2 Float32.StateEncoder.ln2].
  rewrite f32_linear_const by apply length_replicate.
  rewrite f32_dot_overflow, f32_bind_Some.
  rewrite f32_layernorm_const, f32_bind_Some.
  rewrite f32_centered_inf.
  set (sigma := Float32.sqrt
                  (Float32.add (Float32.F.var (replicate 512 Float32.inf))
                               Float32.LN_EPS)).
  clearbody sigma.
  change (Float32.add (Float32.mul (Float32.div Float32.nan sigma) Float32.one)
                      Float32.zero) with Float32.nan.
  rewrite f32_relu_replicate.
  change (Float32.F.relu1 Float32.nan) with Float32.nan.
  rewrite f32_linear_const by apply length_replicate.
  rewrite (f32_dot_nan 511), f32_bind_Some.
  rewrite f32_layernorm_const, f32_bind_Some.
  rewrite f32_normalized_nan, f32_relu_replicate. reflexivity.
Qed.

(** An action of ones on weights that are all 1: the first affine layer
    returns a constant row, which the normalization maps to 0. *)
Lemma f32_action_encoder_ones :
  Float32.ActionEncoder.forward
    (Float32.ActionEncoder.mk (Float32.const_linear ACTION_SIZE 128 Float32.one)
                              (Float32.unit_layernorm 128)
                              (Float32.const_linear 128 64 Float32.one))
    (Float32.const_action Float32.one)
  = Some (replicate 64 Float32.zero).
Proof.
  unfold Float32.ActionEncoder.forward, Float32.const_action.
  cbn [Float32.ActionEncoder.fc1 Float32.ActionEncoder.ln1
       Float32.ActionEncoder.fc2].
  rewrite f32_linear_const by apply length_replicate. rewrite f32_bind_Some.
  rewrite f32_layernorm_const, f32_bind_Some.
  rewrite f32_relu_replicate.
  rewrite f32_linear_const by apply length_replicate. rewrite f32_bind_Some.
  apply (f_equal (λ v, Some (replicate 64 v))). vm_compute. reflexivity.
Qed.

Lemma f32_action_scorer_nan :
  Float32.ActionScorer.forward
    (Float32.ActionScorer.mk (Float32.const_linear (256 + 64) 128 Float32.one)
                             (Float32.unit_layernorm 128)
                             (Float32.const_linear 128 1 Float32.one))
    (replicate 256 Float32.nan) (replicate 64 Float32.zero)
  = Some Float32.nan.
Proof.
  unfold Float32.ActionScorer.forward.
  cbn [Float32.ActionScorer.fc1 Float32.ActionScorer.ln1
       Float32.ActionScorer.fc2].
  rewrite f32_linear_const
    by (unfold Float32.torch.cat; by rewrite length_app, !length_replicate).
  rewrite f32_bind_Some.
  assert (E : Float32.add
                (Float32.F.dot
                   (Float32.torch.cat (replicate 256 Float32.nan)
                                      (replicate 64 Float32.zero))
                   (replicate (256 + 64) Float32.one))
                Float32.zero = Float32.nan) by (vm_compute; reflexivity).
  rewrite E. rewrite f32_layernorm_const, f32_bind_Some.
  rewrite f32_normalized_nan, f32_relu_replicate.
  change (Float32.F.relu1 Float32.nan) with Float32.nan.
  rewrite f32_linear_const by apply length_replicate.
  rewrite (f32_dot_nan 127), f32_bind_Some. reflexivity.
Qed.

Lemma f32_value_head_nan (M : Float32.libm) :
  Float32.ValueHead.forward M
    (Float32.ValueHead.mk (Float32.const_linear 256 128 Float32.one)
                          (Float32.const_linear 128 1 Float32.one))
    (replicate 256 Float32.nan)
  = Some Float32.nan.
Proof.
  unfold Float32.ValueHead.forward.
  cbn [Float32.ValueHead.fc1 Float32.ValueHead.fc2].
  rewrite f32_linear_const by apply length_replicate.
  rewrite (f32_dot_nan 255), f32_bind_Some, f32_relu_replicate.
  change (Float32.F.relu1 Float32.nan) with Float32.nan.
  rewrite f32_linear_const by apply length_replicate.
  rewrite (f32_dot_nan 127), f32_bind_Some. reflexivity.
Qed.

Lemma f32_forward_unfold (M : Float32.libm) (m : Float32.PolicyValueNetwork.t)
    (states : list Float32.float32)
    (action_features : list (list Float32.float32)) (action_mask : list bool) :
  Float32.PolicyValueNetwork.forward M m states action_features action_mask =
    (state_embed ←
       Float32.StateEncoder.forward
         (Float32.PolicyValueNetwork.state_encoder m) states;
     value_state_embed ←
       Float32.StateEncoder.forward
         (Float32.PolicyValueNetwork.value_state_encoder m) states;
     flat_actions ← Float32.PolicyValueNetwork.reshape_actions action_features;
     action_embed ←
       mapM (Float32.ActionEncoder.forward
               (Float32.PolicyValueNetwork.action_encoder m)) flat_actions;
     flat_scores ←
       mapM (Float32.ActionScorer.forward
               (Float32.PolicyValueNetwork.action_scorer m) state_embed)
            action_embed;
     scores ← Float32.torch.masked_fill flat_scores (map negb action_mask)
                Float32.neg_inf;
     values ← Float32.ValueHead.forward M
                (Float32.PolicyValueNetwork.value_head m) value_state_embed;
     Some (scores, values)).
Proof.
  unfold Float32.PolicyValueNetwork.forward.
  destruct (Float32.StateEncoder.forward _ states) as [se|]; [|done].
  cbn [mbind option_bind].
  destruct (Float32.StateEncoder.forward _ states) as [vse|]; [|done].
  cbn [mbind option_bind].
  unfold Float32.PolicyValueNetwork.reshape_actions. case_decide; [|done].
  cbn [mbind option_bind].
  destruct (mapM _ action_features) as [ae|] eqn:E; [|done].
  cbn [mbind option_bind].
  apply length_mapM in E. rewrite E, mapM_zip_replicate. done.
Qed.

(** The largest finite state on parameters that are all 1 or 0: NaN reaches
    the score of the valid action and the value, for every math library. *)
Lemma forward_overflow (M : Float32.libm) :
  Float32.PolicyValueNetwork.forward M (Float32.const_model Float32.one)
    (Float32.const_state Float32.FLT_MAX)
    [Float32.const_action Float32.one; Float32.const_action Float32.one]
    [true; false]
  = Some ([Float32.nan; Float32.neg_inf], Float32.nan).
Proof.
  rewrite f32_forward_unfold. unfold Float32.const_model.
  cbn [Float32.PolicyValueNetwork.state_encoder
       Float32.PolicyValueNetwork.value_state_encoder
       Float32.PolicyValueNetwork.action_encoder
       Float32.PolicyValueNetwork.action_scorer
       Float32.PolicyValueNetwork.value_head].
  rewrite f32_state_encoder_overflow, !f32_bind_Some.
  unfold Float32.PolicyValueNetwork.reshape_actions.
  rewrite decide_True
    by (split; [repeat constructor; apply f32_const_action_length | done]).
  rewrite f32_bind_Some.
  rewrite (f32_mapM_two _ _ _ f32_action_encoder_ones), f32_bind_Some.
  rewrite (f32_mapM_two _ _ _ f32_action_scorer_nan), f32_bind_Some.
  change (Float32.torch.masked_fill [Float32.nan; Float32.nan]
            (map negb [true; false]) Float32.neg_inf)
    with (Some [Float32.nan; Float32.neg_inf]).
  rewrite f32_bind_Some, f32_value_head_nan. reflexivity.
Qed.

(** With weights that are all 0, every layer returns a row of zeros. *)
Lemma f32_state_encoder_zero :
  Float32.StateEncoder.forward (Float32.const_state_encoder Float32.zero)
    (Float32.const_state Float32.one)
  = Some (replicate 256 Float32.zero).
Proof.
  unfold Float32.StateEncoder.forward, Float32.const_state_encoder,
    Float32.const_state.
  cbn [Float32.StateEncoder.fc1 Float32.StateEncoder.ln1
       Float32.StateEncoder.fc2 Float32.StateEncoder.ln2].
  rewrite f32_linear_const by apply length_replicate. rewrite f32_bind_Some.
  rewrite f32_layernorm_const, f32_bind_Some, f32_relu_replicate.
  rewrite f32_linear_const by apply length_replicate. rewrite f32_bind_Some.
  rewrite f32_layernorm_const, f32_bind_Some, f32_relu_replicate.
  apply (f_equal (λ v, Some (replicate 256 v))). vm_compute. reflexivity.
Qed.

Lemma f32_action_encoder_zero :
  Float32.ActionEncoder.forward
    (Float32.ActionEncoder.mk (Float32.const_linear ACTION_SIZE 128 Float32.zero)
                              (Float32.unit_layernorm 128)
                              (Float32.const_linear 128 64 Float32.zero))
    (Float32.const_action Float32.one)
  = Some (replicate 64 Float32.zero).
Proof.
  unfold Float32.ActionEncoder.forward, Float32.const_action.
  cbn [Float32.ActionEncoder.fc1 Float32.ActionEncoder.ln1
       Float32.ActionEncoder.fc2].
  rewrite f32_linear_const by apply length_replicate. rewrite f32_bind_Some.
  rewrite f32_layernorm_const, f32_bind_Some, f32_relu_replicate.
  rewrite f32_linear_const by apply length_replicate. rewrite f32_bind_Some.
  apply (f_equal (λ v, Some (replicate 64 v))). vm_compute. reflexivity.
Qed.

Lemma f32_action_scorer_zero :
  Float32.ActionScorer.forward
    (Float32.ActionScorer.mk (Float32.const_linear (256 + 64) 128 Float32.zero)
                             (Float32.unit_layernorm 128)
                             (Float32.const_linear 128 1 Float32.zero))
    (replicate 256 Float32.zero) (replicate 64 Float32.zero)
  = Some Float32.zero.
Proof.
  unfold Float32.ActionScorer.forward.
  cbn [Float32.ActionScorer.fc1 Float32.ActionScorer.ln1
       Float32.ActionScorer.fc2].
  rewrite f32_linear_const
    by (unfold Float32.torch.cat; by rewrite length_app, !length_replicate).
  rewrite f32_bind_Some.
  rewrite f32_layernorm_const, f32_bind_Some, f32_relu_replicate.
  rewrite f32_linear_const by apply length_replicate. rewrite f32_bind_Some.
  apply (f_equal (λ v : Float32.float32, Some v)). vm_compute. reflexivity.
Qed.

Lemma f32_value_head_zero (M : Float32.libm) :
  Float32.ValueHead.forward M
    (Float32.ValueHead.mk (Float32.const_linear 256 128 Float32.zero)
                          (Float32.const_linear 128 1 Float32.zero))
    (replicate 256 Float32.zero)
  = Some Float32.zero.
Proof.
  unfold Float32.ValueHead.forward.
  cbn [Float32.ValueHead.fc1 Float32.ValueHead.fc2].
  rewrite f32_linear_const by apply length_replicate.
  rewrite f32_bind_Some, f32_relu_replicate.
  rewrite f32_linear_const by apply length_replicate. rewrite f32_bind_Some.
  assert (E : Float32.add
                (Float32.F.dot
                   (replicate 128
                      (Float32.F.relu1
                         (Float32.add
                            (Float32.F.dot (replicate 256 Float32.zero)
                                           (replicate 256 Float32.zero))
                            Float32.zero)))
                   (replicate 128 Float32.zero))
                Float32.zero = Float32.zero) by (vm_compute; reflexivity).
  rewrite E. reflexivity.
Qed.

(** With parameters that are all 0 the scores are 0, for every math
    library: the policy is 1 at the valid action and 0 at the padding, the
    value is 0. *)
Lemma forward_zero_parameters (M : Float32.libm) :
  Float32.PolicyValueNetwork.forward M
    (Float32.const_model Float32.zero) (Float32.const_state Float32.one)
    [Float32.const_action Float32.one; Float32.const_action Float32.one]
    [true; false]
  = Some ([Float32.zero; Float32.neg_inf], Float32.zero)
  ∧ Float32.PolicyValueNetwork.get_policy_and_value M
      (Float32.const_model Float32.zero) (Float32.const_state Float32.one)
      [Float32.const_action Float32.one; Float32.const_action Float32.one]
      [true; false]
    = Some ([Float32.one; Float32.zero], Float32.zero).
Proof.
  assert (H : Float32.PolicyValueNetwork.forward M
                (Float32.const_model Float32.zero)
                (Float32.const_state Float32.one)
                [Float32.const_action Float32.one;
                 Float32.const_action Float32.one] [true; false]
              = Some ([Float32.zero; Float32.neg_inf], Float32.zero)).
  { rewrite f32_forward_unfold. unfold Float32.const_model.
    cbn [Float32.PolicyValueNetwork.state_encoder
         Float32.PolicyValueNetwork.value_state_encoder
         Float32.PolicyValueNetwork.action_encoder
         Float32.PolicyValueNetwork.action_scorer
         Float32.PolicyValueNetwork.value_head].
    rewrite f32_state_encoder_zero, !f32_bind_Some.
    unfold Float32.PolicyValueNetwork.reshape_actions.
    rewrite decide_True
      by (split; [repeat constructor; apply f32_const_action_length | done]).
    rewrite f32_bind_Some.
    rewrite (f32_mapM_two _ _ _ f32_action_encoder_zero), f32_bind_Some.
    rewrite (f32_mapM_two _ _ _ f32_action_scorer_zero), f32_bind_Some.
    change (Float32.torch.masked_fill [Float32.zero; Float32.zero]
              (map negb [true; false]) Float32.neg_inf)
      with (Some [Float32.zero; Float32.neg_inf]).
    rewrite f32_bind_Some, f32_value_head_zero. reflexivity. }
  split; [exact H|].
  unfold Float32.PolicyValueNetwork.get_policy_and_value. rewrite H.
  reflexivity.
Qed.

(** * The claims that depend on float32 arithmetic *)







(** C9, as stated, fails on float32: the mask has exactly one valid
    position, the state and the actions are finite, and the policy at the
    valid position is NaN, not 1, for every math library. *)
Lemma overflow_makes_single_valid_policy_nan :
  count_valid [true; false] = 1%nat
  ∧ Forall (λ x, Float32.is_finite x = true)
           (Float32.const_state Float32.FLT_MAX)
  ∧ ∀ M : Float32.libm, ∃ policy v,
      Float32.PolicyValueNetwork.get_policy_and_value M
        (Float32.const_model Float32.one)
        (Float32.const_state Float32.FLT_MAX)
        [Float32.const_action Float32.one; Float32.const_action Float32.one]
        [true; false]
      = Some (policy, v)
      ∧ policy !! 0%nat = Some Float32.nan
      ∧ policy !! 0%nat ≠ Some Float32.one.
Proof.
  split; [done|]. split; [by apply Forall_replicate|]. intros M.
  exists [Float32.nan; Float32.nan], Float32.nan.
  unfold Float32.PolicyValueNetwork.get_policy_and_value.
  by rewrite forward_overflow.
Qed.

(** C9, amended.  For a model of the constructed shapes and inputs of the
    documented shapes whose mask has exactly one valid position [k], the
    policy is exactly 1 at [k] and 0 at every other position when the score
    at [k] is a number, whatever the number; it is NaN at every position
    when that score is NaN or infinite. *)
Theorem single_valid_action_policy_float32 (M : Float32.libm)
    (m : Float32.PolicyValueNetwork.t) (states : list Float32.float32)
    (action_features : list (list Float32.float32)) (action_mask : list bool)
    (k : nat) :
  Float32.PolicyValueNetwork.has_shape m →
  Float32.documented_shapes states action_features action_mask →
  count_valid action_mask = 1%nat →
  action_mask !! k = Some true →
  ∃ scores x v,
    Float32.PolicyValueNetwork.forward M m states action_features action_mask
      = Some (scores, v)
    ∧ scores !! k = Some x
    ∧ Float32.PolicyValueNetwork.get_policy_and_value M m states
        action_features action_mask
      = Some (if Float32.is_finite x
              then Float32.one_hot (length action_mask) k
              else replicate (length action_mask) Float32.nan, v).
Proof.
  intros Hm Hd Hc Hk.
  destruct (f32_forward_documented M m states action_features action_mask Hm Hd)
    as (raw & z & Hf & Lraw).
  set (scores := Float32.mask_scores raw action_mask) in *.
  assert (Ls : length scores = length action_mask)
    by (by apply f32_length_mask_scores).
  assert (Hklt : (k < length raw)%nat)
    by (apply lookup_lt_Some in Hk; lia).
  destruct (lookup_lt_is_Some_2 raw k Hklt) as [x Hx].
  assert (Hsk : scores !! k = Some x)
    by (unfold scores; by rewrite f32_mask_scores_lookup, Hx, Hk).
  assert (Hrest : ∀ i, i ≠ k → (i < length scores)%nat →
                       scores !! i = Some Float32.neg_inf).
  { intros i Hne Hi. unfold scores. rewrite f32_mask_scores_lookup.
    rewrite (f32_single_valid_elsewhere action_mask k i Hc Hk Hne) by lia.
    destruct (lookup_lt_is_Some_2 raw i) as [y ->]; [lia | done]. }
  exists scores, x, (Float32.torch.tanh M z).
  split; [done|]. split; [done|].
  unfold Float32.PolicyValueNetwork.get_policy_and_value. rewrite Hf.
  cbn [mbind option_bind]. do 2 f_equal. rewrite <- Ls.
  destruct (Float32.is_finite x) eqn:Fx.
  - by apply (f32_softmax_one_hot M scores k x).
  - apply f32_softmax_not_finite.
    + intros E. by rewrite E in Hsk.
    + destruct (f32_max_elem scores) as [->|Hin]; [|done|].
      { intros E. by rewrite E in Hsk. }
      apply list_elem_of_lookup in Hin as [i Hi].
      destruct (decide (i = k)) as [->|Hne].
      * rewrite Hsk in Hi. injection Hi as <-. done.
      * apply lookup_lt_Some in Hi as Hlt.
        rewrite (Hrest i Hne Hlt) in Hi. by injection Hi as <-.
Qed.

Lemma single_valid_action_policy_float32_witness :
  ∃ scores x v,
    Float32.PolicyValueNetwork.forward Float32.limit_libm
      (Float32.const_model Float32.zero) (Float32.const_state Float32.one)
      [Float32.const_action Float32.one; Float32.const_action Float32.one]
      [true; false]
      = Some (scores, v)
    ∧ scores !! 0%nat = Some x
    ∧ Float32.PolicyValueNetwork.get_policy_and_value Float32.limit_libm
        (Float32.const_model Float32.zero) (Float32.const_state Float32.one)
        [Float32.const_action Float32.one; Float32.const_action Float32.one]
        [true; false]
      = Some (if Float32.is_finite x
              then Float32.one_hot (length [true; false]) 0
              else replicate (length [true; false]) Float32.nan, v).
Proof.
  apply (single_valid_action_policy_float32 Float32.limit_libm
           (Float32.const_model Float32.zero) (Float32.const_state Float32.one)
           [Float32.const_action Float32.one; Float32.const_action Float32.one]
           [true; false] 0).
  - apply f32_const_model_has_shape.
  - apply f32_const_documented_shapes;
      [repeat constructor; apply f32_const_action_length | discriminate
      | reflexivity].
  - reflexivity.
  - reflexivity.
Defined.
